(** * IT job portal backend: the request handlers and their properties

    The program is a FastAPI application over three process-wide tables
    ([users], [jobs], [applications]) and two id counters.  The handlers are
    embedded as computations in a state-and-exception monad; the tables are
    Python dictionaries, which keep their keys in insertion order, and are
    embedded as association lists in that order. *)

From Stdlib Require Import ZArith List String Ascii Bool Lia Sorted.
Import ListNotations.
Open Scope string_scope.
Open Scope Z_scope.
Open Scope list_scope.

(** ** Python dictionaries

    A [dict] is an association list in insertion order.  [d.get(k)] is
    [dict_get], [d[k] = v] is [dict_set] (an existing key keeps its place, a
    new key goes last), [del d[k]] is [dict_del], [d.values()] is
    [dict_values] and [k in d] is [dict_mem]. *)

Module PyDict.
Section Dict.
Context {K V : Type}.
Variable eqb : K -> K -> bool.

Definition dict := list (K * V).

Fixpoint dict_get (k : K) (d : dict) : option V :=
  match d with
  | [] => None
  | (k', v) :: r => if eqb k k' then Some v else dict_get k r
  end.

Fixpoint dict_set (k : K) (v : V) (d : dict) : dict :=
  match d with
  | [] => [(k, v)]
  | (k', v') :: r =>
      if eqb k k' then (k, v) :: r else (k', v') :: dict_set k v r
  end.

Definition dict_del (k : K) (d : dict) : dict :=
  filter (fun kv => negb (eqb k (fst kv))) d.

Definition dict_mem (k : K) (d : dict) : bool :=
  match dict_get k d with Some _ => true | None => false end.

Definition dict_keys (d : dict) : list K := map fst d.
Definition dict_values (d : dict) : list V := map snd d.
End Dict.
End PyDict.

Import PyDict.

(** ** Strings

    A Python [str] is represented by its UTF-8 encoding: equality and the
    substring test [a in b] on the encodings are those on the strings, and
    the empty string is the empty encoding.  [len] counts code points, that
    is, the bytes that are not continuation bytes.  [str.lower()] is a
    builtin that follows the Unicode tables; the handlers take it as a
    parameter [lower], and [ascii_lower], which is [str.lower()] on ASCII
    text, serves to run them on ASCII examples. *)

Definition lower_ascii (c : ascii) : ascii :=
  let n := nat_of_ascii c in
  if ((65 <=? n) && (n <=? 90))%nat then ascii_of_nat (n + 32) else c.

Fixpoint ascii_lower (s : string) : string :=
  match s with
  | EmptyString => EmptyString
  | String c r => String (lower_ascii c) (ascii_lower r)
  end.

(** A byte [10xxxxxx] continues a code point. *)
Definition is_continuation (c : ascii) : bool :=
  let n := nat_of_ascii c in
  ((128 <=? n) && (n <? 192))%nat.

(** [len(s)] *)
Fixpoint str_len (s : string) : nat :=
  match s with
  | EmptyString => 0%nat
  | String c r => ((if is_continuation c then 0 else 1) + str_len r)%nat
  end.

(** [str_contains needle hay] is Python's [needle in hay]. *)
Fixpoint str_contains (needle hay : string) : bool :=
  String.prefix needle hay
  || match hay with
     | EmptyString => false
     | String _ r => str_contains needle r
     end.

(** ** Models (pydantic classes of [main.py]) and stored rows

    A stored row is the [.dict()] of a model; a key that a row does not have
    is [None] here ([company_name] of a job seeker, [resume] of an
    employer).  Times are integers handed to the handlers in place of
    [datetime.utcnow()]. *)

Module User.
Record t := mk {
  email : string;
  password : string;
  name : string;
  role : string;
  company_name : option string;
  resume : option string }.
End User.

Module UserBase.
Record t := mk { email : string; name : string; role : string }.
End UserBase.

Module JobSeekerRegister.
Record t := mk {
  email : string; password : string; name : string;
  resume : option string }.
(** [role] is the constant "jobseeker". *)
Definition dict (d : t) : User.t :=
  User.mk (email d) (password d) (name d) "jobseeker" None (resume d).
End JobSeekerRegister.

Module EmployerRegister.
Record t := mk {
  email : string; password : string; name : string;
  company_name : string }.
(** [role] is the constant "employer". *)
Definition dict (d : t) : User.t :=
  User.mk (email d) (password d) (name d) "employer"
          (Some (company_name d)) None.
End EmployerRegister.

Module UserLogin.
Record t := mk { email : string; password : string; role : string }.
End UserLogin.

Module OAuth2PasswordRequestForm.
Record t := mk {
  username : string; password : string; scopes : list string }.
End OAuth2PasswordRequestForm.

Module JobCreate.
Record t := mk {
  title : string;
  description : string;
  company : string;
  location : string;
  skills : list string;
  salary_min : option Z;
  salary_max : option Z }.
End JobCreate.

Module Job.
Record t := mk {
  id : Z;
  title : string;
  description : string;
  company : string;
  location : string;
  skills : list string;
  salary_min : option Z;
  salary_max : option Z;
  posted_by : string;
  created_at : Z }.

(** [updated = job.copy(); updated.update(update.dict())]: the seven keys
    of [JobCreate] are written over, the other keys stay. *)
Definition update (job : t) (u : JobCreate.t) : t :=
  mk (id job)
     (JobCreate.title u) (JobCreate.description u) (JobCreate.company u)
     (JobCreate.location u) (JobCreate.skills u)
     (JobCreate.salary_min u) (JobCreate.salary_max u)
     (posted_by job) (created_at job).
End Job.

Module ApplicationBase.
Record t := mk {
  job_id : Z;
  seeker_email : string;
  cover_letter : option string }.
End ApplicationBase.

Module Application.
Record t := mk {
  id : Z;
  job_id : Z;
  seeker_email : string;
  cover_letter : option string;
  status : string;
  applied_at : Z }.

(** [app_item["status"] = s] *)
Definition set_status (s : string) (a : t) : t :=
  mk (id a) (job_id a) (seeker_email a) (cover_letter a) s (applied_at a).
End Application.

Module ApplicationReview.
Record t := mk { status : string }.
End ApplicationReview.

(** ** Tokens

    A bearer token is represented by what [jwt.decode] makes of it when the
    request arrives: a [JWTError] (bad signature, malformed, expired) or the
    payload, of which the code reads [payload.get("email")] and
    [payload.get("role")]. *)

Module Payload.
Record t := mk { email : option string; role : option string }.
End Payload.

Inductive jwt : Type :=
| jwt_invalid
| jwt_signed (payload : Payload.t).

Definition jwt_decode (token : jwt) : option Payload.t :=
  match token with
  | jwt_invalid => None
  | jwt_signed p => Some p
  end.

Module Token.
Record t := mk { access_token : jwt; token_type : string }.
End Token.

(** ** Errors *)

Record HTTPException := { status_code : Z; detail : string }.

Definition credentials_exception : HTTPException :=
  {| status_code := 401; detail := "Could not validate credentials" |}.

(** What FastAPI answers when a body fails its model's constraints; only
    the status code is modelled. *)
Definition RequestValidationError : HTTPException :=
  {| status_code := 422; detail := "Unprocessable Entity" |}.

(** The error kinds of the specification, read off the status code (and,
    for the two 400s, the message). *)
Definition Unauthorized (e : HTTPException) : Prop := status_code e = 401.
Definition Forbidden (e : HTTPException) : Prop := status_code e = 403.
Definition NotFound (e : HTTPException) : Prop := status_code e = 404.
Definition DuplicateEmail (e : HTTPException) : Prop :=
  e = {| status_code := 400; detail := "Email already registered" |}.
Definition DuplicateApplication (e : HTTPException) : Prop :=
  e = {| status_code := 400; detail := "Already applied to this job" |}.
Definition ValidationError (e : HTTPException) : Prop := status_code e = 422.

(** ** The process state and the handler monad *)

Record State := {
  users : @dict string User.t;
  jobs : @dict Z Job.t;
  applications : @dict Z Application.t;
  last_job_id : Z;
  last_app_id : Z }.

Definition initial_state : State :=
  {| users := []; jobs := []; applications := [];
     last_job_id := 0; last_app_id := 0 |}.

Definition set_users (x : @dict string User.t) (st : State) : State :=
  {| users := x; jobs := jobs st; applications := applications st;
     last_job_id := last_job_id st; last_app_id := last_app_id st |}.
Definition set_jobs (x : @dict Z Job.t) (st : State) : State :=
  {| users := users st; jobs := x; applications := applications st;
     last_job_id := last_job_id st; last_app_id := last_app_id st |}.
Definition set_applications (x : @dict Z Application.t) (st : State) : State :=
  {| users := users st; jobs := jobs st; applications := x;
     last_job_id := last_job_id st; last_app_id := last_app_id st |}.
Definition set_last_job_id (x : Z) (st : State) : State :=
  {| users := users st; jobs := jobs st; applications := applications st;
     last_job_id := x; last_app_id := last_app_id st |}.
Definition set_last_app_id (x : Z) (st : State) : State :=
  {| users := users st; jobs := jobs st; applications := applications st;
     last_job_id := last_job_id st; last_app_id := x |}.

(** A handler either returns or raises; a raise keeps whatever the handler
    had already written to the globals. *)
Inductive result (A : Type) : Type :=
| Return (a : A)
| Raise (e : HTTPException).
Arguments Return {A} a.
Arguments Raise {A} e.

Definition M (A : Type) : Type := State -> State * result A.

Definition ret {A} (a : A) : M A := fun st => (st, Return a).
Definition raise {A} (e : HTTPException) : M A := fun st => (st, Raise e).
Definition bind {A B} (m : M A) (f : A -> M B) : M B :=
  fun st =>
    match m st with
    | (st', Return a) => f a st'
    | (st', Raise e) => (st', Raise e)
    end.
Definition gets {A} (f : State -> A) : M A := fun st => (st, Return (f st)).
Definition modify (f : State -> State) : M unit :=
  fun st => (f st, Return tt).

Notation "x <- c ;; k" := (bind c (fun x => k))
  (at level 61, c at next level, right associativity).
Notation "c ;;; k" := (bind c (fun _ => k))
  (at level 61, right associativity).
Notation "'HTTP' c d" := {| status_code := c; detail := d |}
  (at level 10, c at level 9, d at level 9).

Definition str_ne (a b : string) : bool := negb (String.eqb a b).

(** ** Authentication *)

Definition create_access_token (email role : string) : jwt :=
  jwt_signed (Payload.mk (Some email) (Some role)).

Definition authenticate_user (email password role : string)
  : M (option User.t) :=
  user <- gets (fun st => dict_get String.eqb email (users st)) ;;
  match user with
  | None => ret None
  | Some u =>
      if str_ne (User.password u) password || str_ne (User.role u) role
      then ret None
      else ret (Some u)
  end.

Definition get_current_user (token : jwt) : M User.t :=
  match jwt_decode token with
  | None => raise credentials_exception
  | Some payload =>
      match Payload.email payload, Payload.role payload with
      | Some email, Some role =>
          if negb (existsb (String.eqb role) ["jobseeker"; "employer"])
          then raise credentials_exception
          else
            user <- gets (fun st => dict_get String.eqb email (users st)) ;;
            match user with
            | None => raise credentials_exception
            | Some u =>
                if str_ne (User.role u) role
                then raise credentials_exception
                else ret u
            end
      | _, _ => raise credentials_exception
      end
  end.

Definition register_job_seeker (data : JobSeekerRegister.t) : M UserBase.t :=
  present <- gets (fun st =>
    dict_mem String.eqb (JobSeekerRegister.email data) (users st)) ;;
  if present : bool then raise (HTTP 400 "Email already registered")
  else
    modify (fun st =>
      set_users (dict_set String.eqb (JobSeekerRegister.email data)
                   (JobSeekerRegister.dict data) (users st)) st) ;;;
    ret (UserBase.mk (JobSeekerRegister.email data)
                     (JobSeekerRegister.name data) "jobseeker").

Definition register_employer (data : EmployerRegister.t) : M UserBase.t :=
  present <- gets (fun st =>
    dict_mem String.eqb (EmployerRegister.email data) (users st)) ;;
  if present : bool then raise (HTTP 400 "Email already registered")
  else
    modify (fun st =>
      set_users (dict_set String.eqb (EmployerRegister.email data)
                   (EmployerRegister.dict data) (users st)) st) ;;;
    ret (UserBase.mk (EmployerRegister.email data)
                     (EmployerRegister.name data) "employer").

Definition issue_token (user : option User.t) : M Token.t :=
  match user with
  | None => raise (HTTP 401 "Incorrect email, password, or role")
  | Some u =>
      ret (Token.mk (create_access_token (User.email u) (User.role u))
                    "bearer")
  end.

Definition login (form_data : OAuth2PasswordRequestForm.t) : M Token.t :=
  user <- authenticate_user
            (OAuth2PasswordRequestForm.username form_data)
            (OAuth2PasswordRequestForm.password form_data)
            (match OAuth2PasswordRequestForm.scopes form_data with
             | s0 :: _ => s0
             | [] => "jobseeker"
             end) ;;
  issue_token user.

Definition login_alt (data : UserLogin.t) : M Token.t :=
  user <- authenticate_user (UserLogin.email data) (UserLogin.password data)
                            (UserLogin.role data) ;;
  issue_token user.

(** ** Jobs *)

Definition post_job (job : JobCreate.t) (current_user : User.t) (now : Z)
  : M Job.t :=
  if str_ne (User.role current_user) "employer"
  then raise (HTTP 403 "Only employers can post jobs")
  else
    modify (fun st => set_last_job_id (last_job_id st + 1) st) ;;;
    id <- gets last_job_id ;;
    let new_job :=
      Job.mk id
        (JobCreate.title job)
        (JobCreate.description job)
        (match User.company_name current_user with
         | Some c => c
         | None => JobCreate.company job
         end)
        (JobCreate.location job)
        (JobCreate.skills job)
        (JobCreate.salary_min job)
        (JobCreate.salary_max job)
        (User.email current_user)
        now in
    modify (fun st => set_jobs (dict_set Z.eqb id new_job (jobs st)) st) ;;;
    ret new_job.

(** The body of the loop of [list_jobs]: the value of [match] for one job.
    [if query:] holds for a string that is neither [None] nor empty, and
    likewise for [location] and [skills]. *)
Section ListJobs.
Variable lower : string -> string.

Definition list_jobs_match (query location : option string)
    (skills : option (list string)) (job : Job.t) : bool :=
  let match_ := true in
  let match_ :=
    match query with
    | Some ((String _ _) as q) =>
        if negb (str_contains (lower q)
                   (lower (Job.title job) ++ lower (Job.description job))%string)
        then false else match_
    | _ => match_
    end in
  let match_ :=
    match location with
    | Some ((String _ _) as l) =>
        if str_ne (lower l) (lower (Job.location job))
        then false else match_
    | _ => match_
    end in
  let match_ :=
    match skills with
    | Some ((_ :: _) as sk) =>
        if negb (forallb (fun skill =>
                   existsb (String.eqb (lower skill))
                           (map lower (Job.skills job))) sk)
        then false else match_
    | _ => match_
    end in
  match_.

Fixpoint list_jobs_loop (query location : option string)
    (skills : option (list string)) (rows filtered : list Job.t)
  : list Job.t :=
  match rows with
  | [] => filtered
  | job :: rest =>
      list_jobs_loop query location skills rest
        (if list_jobs_match query location skills job
         then filtered ++ [job] else filtered)
  end.

Definition list_jobs (query location : option string)
    (skills : option (list string)) : M (list Job.t) :=
  rows <- gets (fun st => dict_values (jobs st)) ;;
  ret (list_jobs_loop query location skills rows []).
End ListJobs.

Definition get_job (job_id : Z) : M Job.t :=
  job <- gets (fun st => dict_get Z.eqb job_id (jobs st)) ;;
  match job with
  | None => raise (HTTP 404 "Job not found")
  | Some j => ret j
  end.

Definition update_job (job_id : Z) (update : JobCreate.t)
    (current_user : User.t) : M Job.t :=
  job <- gets (fun st => dict_get Z.eqb job_id (jobs st)) ;;
  match job with
  | None => raise (HTTP 404 "Job not found")
  | Some j =>
      if str_ne (Job.posted_by j) (User.email current_user)
      then raise (HTTP 403 "Cannot update job not posted by you")
      else
        let updated := Job.update j update in
        modify (fun st =>
          set_jobs (dict_set Z.eqb job_id updated (jobs st)) st) ;;;
        ret updated
  end.

Definition delete_job (job_id : Z) (current_user : User.t) : M unit :=
  job <- gets (fun st => dict_get Z.eqb job_id (jobs st)) ;;
  match job with
  | None => raise (HTTP 404 "Job not found")
  | Some j =>
      if str_ne (Job.posted_by j) (User.email current_user)
      then raise (HTTP 403 "Cannot delete job not posted by you")
      else modify (fun st => set_jobs (dict_del Z.eqb job_id (jobs st)) st)
  end.

(** ** Applications *)

(** The scan of [apply_for_job] over [applications.values()]: it raises at
    the first application of this seeker to this job. *)
Fixpoint apply_scan (items : list Application.t) (job_id : Z)
    (email : string) : M unit :=
  match items with
  | [] => ret tt
  | app_item :: rest =>
      if (Application.job_id app_item =? job_id)
         && String.eqb (Application.seeker_email app_item) email
      then raise (HTTP 400 "Already applied to this job")
      else apply_scan rest job_id email
  end.

Definition apply_for_job (application : ApplicationBase.t)
    (current_user : User.t) (now : Z) : M Application.t :=
  if str_ne (User.role current_user) "jobseeker"
  then raise (HTTP 403 "Only job seekers can apply")
  else if str_ne (ApplicationBase.seeker_email application)
                 (User.email current_user)
  then raise (HTTP 403 "You can only apply as yourself")
  else
    job <- gets (fun st =>
      dict_get Z.eqb (ApplicationBase.job_id application) (jobs st)) ;;
    match job with
    | None => raise (HTTP 404 "Job not found")
    | Some _ =>
        items <- gets (fun st => dict_values (applications st)) ;;
        apply_scan items (ApplicationBase.job_id application)
                   (User.email current_user) ;;;
        modify (fun st => set_last_app_id (last_app_id st + 1) st) ;;;
        id <- gets last_app_id ;;
        let new_app :=
          Application.mk id
            (ApplicationBase.job_id application)
            (User.email current_user)
            (ApplicationBase.cover_letter application)
            "pending"
            now in
        modify (fun st =>
          set_applications (dict_set Z.eqb id new_app (applications st)) st) ;;;
        ret new_app
    end.

Definition my_applications (current_user : User.t)
  : M (list Application.t) :=
  if str_ne (User.role current_user) "jobseeker"
  then raise (HTTP 403 "Only job seekers can view their applications")
  else
    gets (fun st =>
      filter (fun a => String.eqb (Application.seeker_email a)
                                  (User.email current_user))
             (dict_values (applications st))).

Definition applications_for_job (job_id : Z) (current_user : User.t)
  : M (list Application.t) :=
  job <- gets (fun st => dict_get Z.eqb job_id (jobs st)) ;;
  match job with
  | None => raise (HTTP 404 "Job not found")
  | Some j =>
      if str_ne (Job.posted_by j) (User.email current_user)
      then raise (HTTP 403
        "Only the employer who posted the job can review applications")
      else
        gets (fun st =>
          filter (fun a => Application.job_id a =? job_id)
                 (dict_values (applications st)))
  end.

Definition review_application (app_id : Z) (review : ApplicationReview.t)
    (current_user : User.t) : M Application.t :=
  app_item <- gets (fun st => dict_get Z.eqb app_id (applications st)) ;;
  match app_item with
  | None => raise (HTTP 404 "Application not found")
  | Some a =>
      job <- gets (fun st => dict_get Z.eqb (Application.job_id a) (jobs st)) ;;
      if match job with
         | None => true
         | Some j => str_ne (Job.posted_by j) (User.email current_user)
         end
      then raise (HTTP 403 "Can only review applications for your jobs")
      else
        let a' := Application.set_status (ApplicationReview.status review) a in
        modify (fun st =>
          set_applications (dict_set Z.eqb app_id a' (applications st)) st) ;;;
        ret a'
  end.

(** ** Dashboards *)

Module JobseekerDashboard.
Record t := mk {
  user : UserBase.t;
  num_applications : nat;
  applied_jobs : list Job.t;
  applications : list Application.t }.
End JobseekerDashboard.

Module EmployerDashboard.
Record t := mk {
  user : UserBase.t;
  num_jobs_posted : nat;
  jobs : list Job.t;
  num_applications : nat;
  applications : list Application.t }.
End EmployerDashboard.

(** [[jobs[jid] for jid in applied_job_ids if jid in jobs]] *)
Definition jobs_of_ids (table : @dict Z Job.t) (ids : list Z) : list Job.t :=
  flat_map (fun jid =>
              match dict_get Z.eqb jid table with
              | Some j => [j]
              | None => []
              end) ids.

Definition jobseeker_dashboard (current_user : User.t)
  : M JobseekerDashboard.t :=
  if str_ne (User.role current_user) "jobseeker"
  then raise (HTTP 403 "Job seekers only")
  else
    my_apps <- gets (fun st =>
      filter (fun a => String.eqb (Application.seeker_email a)
                                  (User.email current_user))
             (dict_values (applications st))) ;;
    let applied_job_ids := map Application.job_id my_apps in
    applied_jobs <- gets (fun st => jobs_of_ids (jobs st) applied_job_ids) ;;
    ret (JobseekerDashboard.mk
           (UserBase.mk (User.email current_user) (User.name current_user)
                        "jobseeker")
           (List.length my_apps)
           applied_jobs
           my_apps).

Definition employer_dashboard (current_user : User.t)
  : M EmployerDashboard.t :=
  if str_ne (User.role current_user) "employer"
  then raise (HTTP 403 "Employers only")
  else
    posted_jobs <- gets (fun st =>
      filter (fun job => String.eqb (Job.posted_by job)
                                    (User.email current_user))
             (dict_values (jobs st))) ;;
    let job_ids := map Job.id posted_jobs in
    all_apps <- gets (fun st =>
      filter (fun a => existsb (Z.eqb (Application.job_id a)) job_ids)
             (dict_values (applications st))) ;;
    ret (EmployerDashboard.mk
           (UserBase.mk (User.email current_user) (User.name current_user)
                        "employer")
           (List.length posted_jobs)
           posted_jobs
           (List.length all_apps)
           all_apps).

(** ** Requests

    What the framework does around a handler: it resolves the
    [Depends(get_current_user)] parameter from the bearer token, then checks
    the body against its model, then calls the handler.  The constraints the
    models state are [min_length=6] on a password, the pattern of
    [ApplicationReview.status], and [EmailStr], whose check lives in
    pydantic and is taken as a parameter: it rejects an address or returns
    it normalised. *)

Definition newline : string := String (ascii_of_nat 10) EmptyString.

(** [re.match("^(reviewed|rejected|accepted)$", s)]: in Python's [re], [$]
    also matches just before a newline that ends the string. *)
Definition ApplicationReview_status_regex (s : string) : bool :=
  existsb (fun w => String.eqb s w || String.eqb s (w ++ newline)%string)
          ["reviewed"; "rejected"; "accepted"].

Definition ApplicationReview_validate (status : string)
  : option ApplicationReview.t :=
  if ApplicationReview_status_regex status
  then Some (ApplicationReview.mk status)
  else None.

Inductive Request : Type :=
| POST_auth_register_jobseeker (data : JobSeekerRegister.t)
| POST_auth_register_employer (data : EmployerRegister.t)
| POST_jobs (token : jwt) (job : JobCreate.t) (now : Z)
| PUT_jobs (token : jwt) (job_id : Z) (update : JobCreate.t)
| DELETE_jobs (token : jwt) (job_id : Z)
| POST_applications (token : jwt) (application : ApplicationBase.t) (now : Z)
| PUT_applications_review (token : jwt) (app_id : Z) (status : string).

Inductive Response : Type :=
| resp_user (u : UserBase.t)
| resp_job (j : Job.t)
| resp_no_content
| resp_application (a : Application.t).

Definition fmap {A B} (f : A -> B) (m : M A) : M B :=
  a <- m ;; ret (f a).

Section Endpoints.
Variable EmailStr : string -> option string.

Definition password_ok (pw : string) : bool :=
  (6 <=? str_len pw)%nat.

Definition JobSeekerRegister_validate (d : JobSeekerRegister.t)
  : option JobSeekerRegister.t :=
  match EmailStr (JobSeekerRegister.email d) with
  | Some e =>
      if password_ok (JobSeekerRegister.password d)
      then Some (JobSeekerRegister.mk e (JobSeekerRegister.password d)
                   (JobSeekerRegister.name d) (JobSeekerRegister.resume d))
      else None
  | None => None
  end.

Definition EmployerRegister_validate (d : EmployerRegister.t)
  : option EmployerRegister.t :=
  match EmailStr (EmployerRegister.email d) with
  | Some e =>
      if password_ok (EmployerRegister.password d)
      then Some (EmployerRegister.mk e (EmployerRegister.password d)
                   (EmployerRegister.name d)
                   (EmployerRegister.company_name d))
      else None
  | None => None
  end.

Definition ApplicationBase_validate (a : ApplicationBase.t)
  : option ApplicationBase.t :=
  match EmailStr (ApplicationBase.seeker_email a) with
  | Some e => Some (ApplicationBase.mk (ApplicationBase.job_id a) e
                      (ApplicationBase.cover_letter a))
  | None => None
  end.

Definition validated {A} (o : option A) : M A :=
  match o with
  | Some a => ret a
  | None => raise RequestValidationError
  end.

Definition handle (req : Request) : M Response :=
  match req with
  | POST_auth_register_jobseeker data =>
      d <- validated (JobSeekerRegister_validate data) ;;
      fmap resp_user (register_job_seeker d)
  | POST_auth_register_employer data =>
      d <- validated (EmployerRegister_validate data) ;;
      fmap resp_user (register_employer d)
  | POST_jobs token job now =>
      current_user <- get_current_user token ;;
      fmap resp_job (post_job job current_user now)
  | PUT_jobs token job_id update =>
      current_user <- get_current_user token ;;
      fmap resp_job (update_job job_id update current_user)
  | DELETE_jobs token job_id =>
      current_user <- get_current_user token ;;
      fmap (fun _ => resp_no_content) (delete_job job_id current_user)
  | POST_applications token application now =>
      current_user <- get_current_user token ;;
      a <- validated (ApplicationBase_validate application) ;;
      fmap resp_application (apply_for_job a current_user now)
  | PUT_applications_review token app_id status =>
      current_user <- get_current_user token ;;
      review <- validated (ApplicationReview_validate status) ;;
      fmap resp_application (review_application app_id review current_user)
  end.

(** The states the process can be in: the empty tables at start-up, and
    whatever a request leaves behind, whether it returned or raised. *)
Inductive reachable : State -> Prop :=
| reachable_init : reachable initial_state
| reachable_step st req :
    reachable st -> reachable (fst (handle req st)).

(** A run of requests, with the responses collected. *)
Fixpoint run (reqs : list Request) (st : State)
  : State * list (result Response) :=
  match reqs with
  | [] => (st, [])
  | req :: rest =>
      let (st1, r) := handle req st in
      let (st2, rs) := run rest st1 in
      (st2, r :: rs)
  end.
End Endpoints.

(** ** Words of the specification, and the invariant of the tables *)

(** Some stored application already carries the pair (job, seeker). *)
Definition AlreadyApplied (st : State) (job_id : Z) (email : string) : Prop :=
  exists a, In a (dict_values (applications st))
            /\ Application.job_id a = job_id
            /\ Application.seeker_email a = email.

(** [needle] occurs in [hay]. *)
Definition Substring (needle hay : string) : Prop :=
  exists pre post, hay = (pre ++ needle ++ post)%string.

(** The test of the scan of [apply_for_job] on one stored application. *)
Definition applied_test (job_id : Z) (email : string) (a : Application.t)
  : bool :=
  (Application.job_id a =? job_id)
  && String.eqb (Application.seeker_email a) email.

(** ** A small portal to run the handlers on

    One employer, one job seeker, one job and one application, built by
    sending the requests to the empty portal; [EmailStr_id] accepts every
    address as it is. *)

Definition EmailStr_id (s : string) : option string := Some s.

Definition boss : EmployerRegister.t :=
  EmployerRegister.mk "boss@acme.io" "secret1" "Boss" "Acme".
Definition ann : JobSeekerRegister.t :=
  JobSeekerRegister.mk "ann@mail.io" "hunter22" "Ann" None.
Definition boss_user : User.t := EmployerRegister.dict boss.
Definition ann_user : User.t := JobSeekerRegister.dict ann.
Definition boss_token : jwt := create_access_token "boss@acme.io" "employer".
Definition ann_token : jwt := create_access_token "ann@mail.io" "jobseeker".

Definition backend_job : JobCreate.t :=
  JobCreate.mk "Backend Engineer" "Go and Rust" "Acme" "Remote"
               ["go"; "rust"] None None.
Definition frontend_job : JobCreate.t :=
  JobCreate.mk "Frontend Dev" "React" "Acme" "NYC" ["react"] (Some 10) None.

Definition ann_applies : ApplicationBase.t :=
  ApplicationBase.mk 1 "ann@mail.io" (Some "Dear Boss").

Definition demo_requests : list Request :=
  [ POST_auth_register_employer boss;
    POST_auth_register_jobseeker ann;
    POST_jobs boss_token backend_job 100;
    POST_applications ann_token ann_applies 200 ].

Definition demo_state : State :=
  fst (run EmailStr_id demo_requests initial_state).

Definition demo_updated : Job.t :=
  Job.mk 1 "Frontend Dev" "React" "Acme" "NYC" ["react"] (Some 10) None
         "boss@acme.io" 100.

(** The invariant of the tables: keys are unique, a row carries its key,
    ids lie between 1 and their counter, and a job was posted by a
    registered employer. *)
Record Inv (st : State) : Prop := {
  inv_users_nodup : NoDup (dict_keys (users st));
  inv_users_email :
    forall e u, In (e, u) (users st) -> User.email u = e;
  inv_jobs_nodup : NoDup (dict_keys (jobs st));
  inv_jobs_id :
    forall k j, In (k, j) (jobs st) ->
                Job.id j = k /\ 1 <= k <= last_job_id st;
  inv_jobs_owner :
    forall k j, In (k, j) (jobs st) ->
      exists u, dict_get String.eqb (Job.posted_by j) (users st) = Some u
                /\ User.role u = "employer";
  inv_apps_nodup : NoDup (dict_keys (applications st));
  inv_apps_id :
    forall k a, In (k, a) (applications st) ->
                Application.id a = k /\ 1 <= k <= last_app_id st;
  inv_counters : 0 <= last_job_id st /\ 0 <= last_app_id st }.

(** [u] is the row stored under its own email: what [get_current_user]
    hands to a handler. *)
Definition Resolved (st : State) (u : User.t) : Prop :=
  dict_get String.eqb (User.email u) (users st) = Some u.

(** What [handle] comes down to: the request is turned away before its
    handler runs (401 or 422, nothing written), or the handler runs on the
    validated body and the resolved user. *)
Inductive dispatched (st : State)
  : Request -> State * result Response -> Prop :=
| dispatched_rejected req e :
    dispatched st req (st, Raise e)
| dispatched_register_job_seeker data d :
    dispatched st (POST_auth_register_jobseeker data)
               (fmap resp_user (register_job_seeker d) st)
| dispatched_register_employer data d :
    dispatched st (POST_auth_register_employer data)
               (fmap resp_user (register_employer d) st)
| dispatched_post_job token job now u :
    get_current_user token st = (st, Return u) ->
    dispatched st (POST_jobs token job now)
               (fmap resp_job (post_job job u now) st)
| dispatched_update_job token job_id update u :
    get_current_user token st = (st, Return u) ->
    dispatched st (PUT_jobs token job_id update)
               (fmap resp_job (update_job job_id update u) st)
| dispatched_delete_job token job_id u :
    get_current_user token st = (st, Return u) ->
    dispatched st (DELETE_jobs token job_id)
               (fmap (fun _ => resp_no_content) (delete_job job_id u) st)
| dispatched_apply_for_job token application a now u :
    get_current_user token st = (st, Return u) ->
    dispatched st (POST_applications token application now)
               (fmap resp_application (apply_for_job a u now) st)
| dispatched_review_application token app_id status review u :
    get_current_user token st = (st, Return u) ->
    dispatched st (PUT_applications_review token app_id status)
               (fmap resp_application
                     (review_application app_id review u) st).

(** The ids handed out by a request: the id of the job that a successful
    POST /jobs/ returns, and of the application that a successful
    POST /applications/ returns. *)
Definition issued_job_id (req : Request) (r : result Response) : list Z :=
  match req, r with
  | POST_jobs _ _ _, Return (resp_job j) => [Job.id j]
  | _, _ => []
  end.

Definition issued_app_id (req : Request) (r : result Response) : list Z :=
  match req, r with
  | POST_applications _ _ _, Return (resp_application a) => [Application.id a]
  | _, _ => []
  end.

(** The ids handed out over a run, in the order of the requests. *)
Definition job_ids_issued (EmailStr : string -> option string)
    (reqs : list Request) (st : State) : list Z :=
  flat_map (fun p => issued_job_id (fst p) (snd p))
           (combine reqs (snd (run EmailStr reqs st))).

Definition app_ids_issued (EmailStr : string -> option string)
    (reqs : list Request) (st : State) : list Z :=
  flat_map (fun p => issued_app_id (fst p) (snd p))
           (combine reqs (snd (run EmailStr reqs st))).

(** The application that [demo_requests] stores. *)
Definition demo_application : Application.t :=
  Application.mk 1 1 "ann@mail.io" (Some "Dear Boss") "pending" 200.

(** The job that [demo_requests] stores. *)
Definition demo_job : Job.t :=
  Job.mk 1 "Backend Engineer" "Go and Rust" "Acme" "Remote" ["go"; "rust"]
         None None "boss@acme.io" 100.

(** ** The filters of [list_jobs], in the words of the specification *)

Section Filters.
Variable lower : string -> string.

(** [query] is found, in lower case, in the lower-cased title followed at
    once by the lower-cased description. *)
Definition query_matches (q : string) (job : Job.t) : bool :=
  str_contains (lower q)
               (lower (Job.title job) ++ lower (Job.description job))%string.

(** [location] is the stored location, but for case. *)
Definition location_matches (l : string) (job : Job.t) : bool :=
  String.eqb (lower l) (lower (Job.location job)).

(** Every requested skill is, but for case, one of the stored skills. *)
Definition skills_match (sk : list string) (job : Job.t) : bool :=
  forallb (fun skill =>
             existsb (String.eqb (lower skill)) (map lower (Job.skills job)))
          sk.

(** All the filters that are given, where given means not [None]. *)
Definition job_matches_as_stated (query location : option string)
    (skills : option (list string)) (job : Job.t) : bool :=
  match query with Some q => query_matches q job | None => true end
  && match location with Some l => location_matches l job | None => true end
  && match skills with Some sk => skills_match sk job | None => true end.

(** The same, with an empty [query] and an empty [location] counted as not
    given. *)
Definition job_matches (query location : option string)
    (skills : option (list string)) (job : Job.t) : bool :=
  match query with
  | Some ((String _ _) as q) => query_matches q job
  | _ => true
  end
  && match location with
     | Some ((String _ _) as l) => location_matches l job
     | _ => true
     end
  && match skills with Some sk => skills_match sk job | None => true end.
End Filters.

(** The demo portal just before Ann applies. *)
Definition demo_state_before_apply : State :=
  fst (run EmailStr_id (firstn 3 demo_requests) initial_state).

(** A run in which the only job is deleted and another one is posted. *)
Definition repost_requests : list Request :=
  [ POST_auth_register_employer boss;
    POST_jobs boss_token backend_job 100;
    DELETE_jobs boss_token 1;
    POST_jobs boss_token frontend_job 101 ].

(** ** More of the invariant: who is registered, what applications refer to *)

(** A row that a registration endpoint can have written: the role is the
    constant of its model, an employer has a company name and a job seeker
    has not, the password has its six characters, and the email is one that
    [EmailStr] returns. *)
Definition registered_row (EmailStr : string -> option string) (u : User.t)
  : Prop :=
  ((User.role u = "jobseeker" /\ User.company_name u = None)
   \/ (User.role u = "employer" /\ exists c, User.company_name u = Some c))
  /\ (6 <= str_len (User.password u))%nat
  /\ exists raw, EmailStr raw = Some (User.email u).

Definition UsersInv (EmailStr : string -> option string) (st : State)
  : Prop :=
  forall e u, In (e, u) (users st) -> registered_row EmailStr u.

(** An application was sent by a registered job seeker for a job id that was
    handed out, and no two applications share job and seeker. *)
Record AppsInv (st : State) : Prop := {
  ainv_seeker :
    forall k a, In (k, a) (applications st) ->
      exists u, dict_get String.eqb (Application.seeker_email a) (users st)
                = Some u
                /\ User.role u = "jobseeker";
  ainv_job :
    forall k a, In (k, a) (applications st) ->
      1 <= Application.job_id a <= last_job_id st;
  ainv_unique :
    forall k1 a1 k2 a2,
      In (k1, a1) (applications st) -> In (k2, a2) (applications st) ->
      Application.job_id a1 = Application.job_id a2 ->
      Application.seeker_email a1 = Application.seeker_email a2 ->
      k1 = k2 }.

(** Two rows of one application: everything but the status is the same. *)
Definition same_application (a a' : Application.t) : Prop :=
  Application.id a' = Application.id a
  /\ Application.job_id a' = Application.job_id a
  /\ Application.seeker_email a' = Application.seeker_email a
  /\ Application.cover_letter a' = Application.cover_letter a
  /\ Application.applied_at a' = Application.applied_at a.

(** Two rows of one job: id, owner and creation time are the same. *)
Definition same_job (j j' : Job.t) : Prop :=
  Job.id j' = Job.id j
  /\ Job.posted_by j' = Job.posted_by j
  /\ Job.created_at j' = Job.created_at j.

(** ** The health check *)

Definition health_check : M (list (string * string)) :=
  ret [("message", "Healthy")].

(** The bearer token a request carries; the registration endpoints take
    none. *)
Definition bearer (req : Request) : option jwt :=
  match req with
  | POST_auth_register_jobseeker _ | POST_auth_register_employer _ => None
  | POST_jobs token _ _ | PUT_jobs token _ _ | DELETE_jobs token _
  | POST_applications token _ _ | PUT_applications_review token _ _ =>
      Some token
  end.

(** What [if query:] lets through: a text that is neither [None] nor
    empty; and likewise [if skills:] for a list. *)
Definition given_text (o : option string) : option string :=
  match o with
  | Some ((String _ _) as x) => Some x
  | _ => None
  end.

Definition given_list (o : option (list string)) : option (list string) :=
  match o with
  | Some ((_ :: _) as x) => Some x
  | _ => None
  end.

(** ** A portal with two jobs

    As the demo portal, but Boss has also posted the frontend job and Ann
    has applied to both. *)

Definition ann_applies_2 : ApplicationBase.t :=
  ApplicationBase.mk 2 "ann@mail.io" None.

Definition two_jobs_requests : list Request :=
  [ POST_auth_register_employer boss;
    POST_auth_register_jobseeker ann;
    POST_jobs boss_token backend_job 100;
    POST_jobs boss_token frontend_job 101;
    POST_applications ann_token ann_applies 200;
    POST_applications ann_token ann_applies_2 201 ].

Definition two_jobs_state : State :=
  fst (run EmailStr_id two_jobs_requests initial_state).

(** The second job and the second application that it stores. *)
Definition demo_job_2 : Job.t :=
  Job.mk 2 "Frontend Dev" "React" "Acme" "NYC" ["react"] (Some 10) None
         "boss@acme.io" 101.

Definition demo_application_2 : Application.t :=
  Application.mk 2 2 "ann@mail.io" None "pending" 201.

(** The password "ééé": three code points, six bytes. *)
Definition three_e_acute : string :=
  let e_acute := String (ascii_of_nat 195) (String (ascii_of_nat 169) EmptyString) in
  (e_acute ++ e_acute ++ e_acute)%string.

(** The status "accepted" followed by a newline. *)
Definition accepted_newline : string := ("accepted" ++ newline)%string.

(* ================================================================== *)
(** * Properties *)

(** ** Facts about dictionaries *)

Module PyDictFacts.
Section Facts.
Context {K V : Type}.
Variable eqb : K -> K -> bool.
Implicit Types (k a b : K) (v : V) (d : list (K * V)) (kv : K * V).
Hypothesis eqb_spec : forall a b, eqb a b = true <-> a = b.

Lemma eqb_refl k : eqb k k = true.
Proof. now apply eqb_spec. Qed.

Lemma eqb_neq a b : a <> b -> eqb a b = false.
Proof.
  intros Hn. destruct (eqb a b) eqn:E; [|reflexivity].
  apply eqb_spec in E. contradiction.
Qed.

Lemma get_set_same k v d : dict_get eqb k (dict_set eqb k v d) = Some v.
Proof.
  induction d as [|[k' v'] r IH]; simpl.
  - now rewrite eqb_refl.
  - destruct (eqb k k') eqn:E; simpl.
    + now rewrite eqb_refl.
    + now rewrite E.
Qed.

Lemma get_set_other k k' v d :
  k' <> k -> dict_get eqb k' (dict_set eqb k v d) = dict_get eqb k' d.
Proof.
  intros Hn. induction d as [|[k0 v0] r IH]; simpl.
  - now rewrite (eqb_neq _ _ Hn).
  - destruct (eqb k k0) eqn:E; simpl.
    + apply eqb_spec in E. subst k0. now rewrite (eqb_neq _ _ Hn).
    + now rewrite IH.
Qed.

Lemma get_del_same k d : dict_get eqb k (dict_del eqb k d) = None.
Proof.
  induction d as [|[k' v'] r IH]; simpl; [reflexivity|].
  destruct (eqb k k') eqn:E; simpl; [assumption|].
  now rewrite E.
Qed.

Lemma get_del_other k k' d :
  k' <> k -> dict_get eqb k' (dict_del eqb k d) = dict_get eqb k' d.
Proof.
  intros Hn. induction d as [|[k0 v0] r IH]; simpl; [reflexivity|].
  destruct (eqb k k0) eqn:E; simpl.
  - apply eqb_spec in E. subst k0. now rewrite (eqb_neq _ _ Hn).
  - now rewrite IH.
Qed.

Lemma get_In k v d : dict_get eqb k d = Some v -> In (k, v) d.
Proof.
  induction d as [|[k' v'] r IH]; simpl; [discriminate|].
  destruct (eqb k k') eqn:E.
  - apply eqb_spec in E. intros [= ->]. subst. now left.
  - intros H. right. now apply IH.
Qed.

Lemma get_None_not_key k d : dict_get eqb k d = None -> ~ In k (dict_keys d).
Proof.
  induction d as [|[k' v'] r IH]; simpl; [tauto|].
  destruct (eqb k k') eqn:E; [discriminate|].
  intros H [Hk|Hk].
  - subst k'. now rewrite eqb_refl in E.
  - now apply IH.
Qed.

Lemma In_get k v d :
  NoDup (dict_keys d) -> In (k, v) d -> dict_get eqb k d = Some v.
Proof.
  induction d as [|[k' v'] r IH]; simpl; [tauto|].
  intros Hnd [H|H].
  - inversion H; subst. now rewrite eqb_refl.
  - inversion Hnd as [|? ? Hni Hnd']; subst.
    destruct (eqb k k') eqn:E.
    + apply eqb_spec in E. subst k'. exfalso. apply Hni.
      change k with (fst (k, v)). now apply in_map.
    + now apply IH.
Qed.

(** Where an entry of [dict_set eqb k v d] comes from. *)
Lemma In_set k v d kv :
  In kv (dict_set eqb k v d) -> kv = (k, v) \/ In kv d.
Proof.
  induction d as [|[k' v'] r IH]; simpl.
  - intros [H|[]]. now left.
  - destruct (eqb k k'); simpl.
    + intros [H|H]; [now left|right; now right].
    + intros [H|H]; [right; now left|].
      destruct (IH H) as [->|Hin]; [now left|right; now right].
Qed.

Lemma set_absent k v d :
  dict_get eqb k d = None -> dict_set eqb k v d = d ++ [(k, v)].
Proof.
  induction d as [|[k' v'] r IH]; simpl; [reflexivity|].
  destruct (eqb k k'); [discriminate|].
  intros H. now rewrite IH.
Qed.

Lemma keys_set_present k v v0 d :
  dict_get eqb k d = Some v0 -> dict_keys (dict_set eqb k v d) = dict_keys d.
Proof.
  induction d as [|[k' v'] r IH]; simpl; [discriminate|].
  destruct (eqb k k') eqn:E; simpl.
  - apply eqb_spec in E. now subst.
  - intros H. f_equal. now apply IH.
Qed.

Lemma In_del k d kv :
  In kv (dict_del eqb k d) <-> In kv d /\ fst kv <> k.
Proof.
  unfold dict_del. rewrite filter_In. split; intros [H1 H2]; split; trivial.
  - intros E. rewrite E, eqb_refl in H2. discriminate.
  - rewrite eqb_neq; [reflexivity|]. intros E. now apply H2.
Qed.

Lemma NoDup_keys_del k d :
  NoDup (dict_keys d) -> NoDup (dict_keys (dict_del eqb k d)).
Proof.
  induction d as [|[k' v'] r IH]; simpl; [trivial|].
  intros Hnd. inversion Hnd as [|? ? Hni Hnd']; subst.
  destruct (eqb k k'); simpl; [now apply IH|].
  constructor; [|now apply IH].
  intros Hin. apply Hni. unfold dict_keys in *.
  apply in_map_iff in Hin. destruct Hin as [[a b] [Hf Hin]].
  apply In_del in Hin. simpl in Hf. subst a.
  change k' with (fst (k', b)). apply in_map. tauto.
Qed.

Lemma NoDup_keys_set k v d :
  NoDup (dict_keys d) -> NoDup (dict_keys (dict_set eqb k v d)).
Proof.
  intros Hnd. destruct (dict_get eqb k d) as [v0|] eqn:G.
  - now rewrite (keys_set_present _ _ _ _ G).
  - rewrite (set_absent _ _ _ G). unfold dict_keys. rewrite map_app. simpl.
    apply get_None_not_key in G.
    unfold dict_keys in G.
    induction d as [|[k' v'] r IH]; simpl in *.
    + repeat constructor. simpl. tauto.
    + inversion Hnd as [|? ? Hni Hnd']; subst. constructor.
      * rewrite in_app_iff. simpl. intros [H|[H|[]]]; [tauto|].
        apply G. now left.
      * apply IH; [assumption|]. intros H. apply G. now right.
Qed.
End Facts.
End PyDictFacts.
Import PyDictFacts.

Lemma Zeqb_spec (a b : Z) : (a =? b) = true <-> a = b.
Proof. apply Z.eqb_eq. Qed.

Lemma Seqb_spec (a b : string) : String.eqb a b = true <-> a = b.
Proof. apply String.eqb_eq. Qed.

Lemma str_ne_true a b : str_ne a b = true <-> a <> b.
Proof.
  unfold str_ne. rewrite negb_true_iff. split.
  - intros E ->. now rewrite String.eqb_refl in E.
  - intros Hn. now apply String.eqb_neq.
Qed.

Lemma str_ne_false a b : str_ne a b = false <-> a = b.
Proof.
  unfold str_ne. rewrite negb_false_iff. apply String.eqb_eq.
Qed.

(** ** How each handler runs *)

Ltac unfold_monad :=
  unfold bind, fmap, gets, modify, ret, raise in *.

Lemma apply_scan_run items job_id email st :
  apply_scan items job_id email st =
  if existsb (applied_test job_id email) items
  then (st, Raise (HTTP 400 "Already applied to this job"))
  else (st, Return tt).
Proof.
  induction items as [|a rest IH]; simpl; [reflexivity|].
  unfold applied_test at 1.
  destruct ((Application.job_id a =? job_id)
            && String.eqb (Application.seeker_email a) email);
    simpl; [reflexivity|exact IH].
Qed.

Lemma AlreadyApplied_scan st job_id email :
  existsb (applied_test job_id email) (dict_values (applications st)) = true
  <-> AlreadyApplied st job_id email.
Proof.
  unfold AlreadyApplied, applied_test. rewrite existsb_exists.
  split; intros [a [Hin H]]; exists a; split; trivial.
  - apply andb_true_iff in H. destruct H as [H1 H2].
    apply Z.eqb_eq in H1. apply String.eqb_eq in H2. now split.
  - destruct H as [-> ->]. now rewrite Z.eqb_refl, String.eqb_refl.
Qed.

Lemma not_AlreadyApplied_scan st job_id email :
  existsb (applied_test job_id email) (dict_values (applications st)) = false
  <-> ~ AlreadyApplied st job_id email.
Proof.
  rewrite <- AlreadyApplied_scan.
  destruct (existsb _ _); split; intros; congruence.
Qed.

(** ** Applying for a job *)

(** C1.  [apply_for_job] checks, in this order: the actor's role (403), the
    declared seeker against the actor's email (403), the job (404), an
    earlier application of the actor to the job (400).  Each failure leaves
    the state as it was.  Past the four checks it stores and returns an
    application with status "pending", the actor's email, and the id
    [last_app_id + 1], which also becomes the counter; when the stored ids are
    at most the counter that id was not in use. *)
Theorem apply_for_job_checks_in_order
    (application : ApplicationBase.t) (current_user : User.t) (now : Z)
    (st : State) :
  let jid := ApplicationBase.job_id application in
  let me := User.email current_user in
  let new_app :=
    Application.mk (last_app_id st + 1) jid me
      (ApplicationBase.cover_letter application) "pending" now in
  let run := apply_for_job application current_user now st in
  (User.role current_user <> "jobseeker" ->
     exists e, run = (st, Raise e) /\ Forbidden e)
  /\ (User.role current_user = "jobseeker" ->
      ApplicationBase.seeker_email application <> me ->
      exists e, run = (st, Raise e) /\ Forbidden e)
  /\ (User.role current_user = "jobseeker" ->
      ApplicationBase.seeker_email application = me ->
      dict_get Z.eqb jid (jobs st) = None ->
      exists e, run = (st, Raise e) /\ NotFound e)
  /\ (User.role current_user = "jobseeker" ->
      ApplicationBase.seeker_email application = me ->
      dict_get Z.eqb jid (jobs st) <> None ->
      AlreadyApplied st jid me ->
      exists e, run = (st, Raise e) /\ DuplicateApplication e)
  /\ (User.role current_user = "jobseeker" ->
      ApplicationBase.seeker_email application = me ->
      dict_get Z.eqb jid (jobs st) <> None ->
      ~ AlreadyApplied st jid me ->
      run = (set_applications
               (dict_set Z.eqb (last_app_id st + 1) new_app (applications st))
               (set_last_app_id (last_app_id st + 1) st),
             Return new_app)
      /\ Application.status new_app = "pending"
      /\ Application.seeker_email new_app = User.email current_user
      /\ Application.id new_app = last_app_id st + 1
      /\ ((forall k, In k (dict_keys (applications st)) ->
                     k <= last_app_id st) ->
          dict_get Z.eqb (last_app_id st + 1) (applications st) = None)).
Proof.
  intros jid me new_app run. subst run jid me new_app.
  unfold apply_for_job. repeat split.
  - intros Hr. apply str_ne_true in Hr. rewrite Hr.
    eexists. split; reflexivity.
  - intros Hr Hs. apply str_ne_false in Hr. apply str_ne_true in Hs.
    rewrite Hr, Hs. eexists. split; reflexivity.
  - intros Hr Hs Hj. apply str_ne_false in Hr, Hs. rewrite Hr, Hs.
    unfold_monad. rewrite Hj. eexists. split; reflexivity.
  - intros Hr Hs Hj Ha. apply str_ne_false in Hr, Hs. rewrite Hr, Hs.
    unfold_monad.
    destruct (dict_get Z.eqb _ (jobs st)); [|congruence].
    rewrite apply_scan_run. apply AlreadyApplied_scan in Ha.
    rewrite Ha. eexists. split; reflexivity.
  - apply str_ne_false in H, H0. rewrite H, H0.
    unfold_monad.
    destruct (dict_get Z.eqb _ (jobs st)); [|congruence].
    rewrite apply_scan_run. apply not_AlreadyApplied_scan in H2.
    rewrite H2. reflexivity.
  - intros Hk.
    destruct (dict_get Z.eqb (last_app_id st + 1) (applications st))
      as [a|] eqn:G; [|reflexivity].
    apply (get_In Z.eqb Zeqb_spec) in G.
    assert (Hin : In (last_app_id st + 1) (dict_keys (applications st))).
    { change (last_app_id st + 1) with (fst (last_app_id st + 1, a)).
      now apply in_map. }
    apply Hk in Hin. lia.
Qed.

(** On the demo portal: Ann's first application goes through with id 1, and
    the same application sent again is a duplicate. *)
Lemma apply_for_job_checks_in_order_witness :
  apply_for_job ann_applies ann_user 200 demo_state_before_apply
    = (demo_state, Return demo_application)
  /\ (exists e, apply_for_job ann_applies ann_user 300 demo_state
                  = (demo_state, Raise e)
                /\ DuplicateApplication e).
Proof.
  split.
  - destruct (apply_for_job_checks_in_order ann_applies ann_user 200
                demo_state_before_apply) as (_ & _ & _ & _ & H).
    apply H; [reflexivity|reflexivity|vm_compute; discriminate|].
    intros (a & Hin & _). vm_compute in Hin. exact Hin.
  - destruct (apply_for_job_checks_in_order ann_applies ann_user 300
                demo_state) as (_ & _ & _ & H & _).
    apply H; [reflexivity|reflexivity|vm_compute; discriminate|].
    exists demo_application. vm_compute. auto.
Defined.

(** ** Updating and deleting a job *)

(** C4.  [update_job] and [delete_job] answer 404 when the id is not in the
    catalog, 403 when the stored job was posted by someone else, and go
    through exactly when the job is there and was posted by the actor; the
    404 comes first. *)
Theorem update_delete_owner_only
    (job_id : Z) (update : JobCreate.t) (current_user : User.t) (st : State) :
  let upd := update_job job_id update current_user st in
  let del := delete_job job_id current_user st in
  (dict_get Z.eqb job_id (jobs st) = None ->
     (exists e, upd = (st, Raise e) /\ NotFound e)
     /\ (exists e, del = (st, Raise e) /\ NotFound e))
  /\ (forall j, dict_get Z.eqb job_id (jobs st) = Some j ->
        Job.posted_by j <> User.email current_user ->
        (exists e, upd = (st, Raise e) /\ Forbidden e)
        /\ (exists e, del = (st, Raise e) /\ Forbidden e))
  /\ (forall j, dict_get Z.eqb job_id (jobs st) = Some j ->
        Job.posted_by j = User.email current_user ->
        upd = (set_jobs (dict_set Z.eqb job_id (Job.update j update) (jobs st))
                        st,
               Return (Job.update j update))
        /\ del = (set_jobs (dict_del Z.eqb job_id (jobs st)) st, Return tt))
  /\ ((exists st' r, upd = (st', Return r))
      <-> (exists j, dict_get Z.eqb job_id (jobs st) = Some j
                     /\ Job.posted_by j = User.email current_user))
  /\ ((exists st' r, del = (st', Return r))
      <-> (exists j, dict_get Z.eqb job_id (jobs st) = Some j
                     /\ Job.posted_by j = User.email current_user)).
Proof.
  intros upd del. subst upd del. unfold update_job, delete_job. unfold_monad.
  destruct (dict_get Z.eqb job_id (jobs st)) as [j|] eqn:G.
  - destruct (str_ne (Job.posted_by j) (User.email current_user)) eqn:E.
    + apply str_ne_true in E.
      split; [discriminate|]. split; [|split; [|split]].
      * intros j' [= <-] _. split; eexists; split; reflexivity.
      * intros j' [= <-] Hp. contradiction.
      * split; [intros (st' & r & H); discriminate|].
        intros (j' & [= <-] & Hp). contradiction.
      * split; [intros (st' & r & H); discriminate|].
        intros (j' & [= <-] & Hp). contradiction.
    + apply str_ne_false in E.
      split; [discriminate|]. split; [|split; [|split]].
      * intros j' [= <-] Hp. contradiction.
      * intros j' [= <-] _. split; reflexivity.
      * split; [intros _; now exists j|]. intros _. eexists. eexists.
        reflexivity.
      * split; [intros _; now exists j|]. intros _. eexists. eexists.
        reflexivity.
  - split; [|split; [|split; [|split]]].
    + intros _. split; eexists; split; reflexivity.
    + discriminate.
    + discriminate.
    + split; [intros (st' & r & H); discriminate|].
      intros (j' & H & _). discriminate.
    + split; [intros (st' & r & H); discriminate|].
      intros (j' & H & _). discriminate.
Qed.

(** On the demo portal: Boss may delete job 1, Ann may not, and job 7 is
    not there for anyone. *)
Lemma update_delete_owner_only_witness :
  delete_job 1 boss_user demo_state
    = (set_jobs (dict_del Z.eqb 1 (jobs demo_state)) demo_state, Return tt)
  /\ (exists e, delete_job 1 ann_user demo_state = (demo_state, Raise e)
                /\ Forbidden e)
  /\ (exists e, delete_job 7 boss_user demo_state = (demo_state, Raise e)
                /\ NotFound e).
Proof.
  split; [|split].
  - destruct (update_delete_owner_only 1 frontend_job boss_user demo_state)
      as (_ & _ & H & _).
    apply (H demo_job); reflexivity.
  - destruct (update_delete_owner_only 1 frontend_job ann_user demo_state)
      as (_ & H & _).
    apply (H demo_job); [reflexivity|vm_compute; discriminate].
  - destruct (update_delete_owner_only 7 frontend_job boss_user demo_state)
      as (H & _).
    apply H. reflexivity.
Defined.

(** C7.  A successful [update_job] stores and returns a job whose seven
    [JobCreate] fields are the payload's (a [None] salary included) and whose
    [id], [posted_by] and [created_at] are the old ones; the other jobs, the
    order of the catalog, the other tables and the counters are as before. *)
Theorem update_job_full_replace
    (job_id : Z) (update : JobCreate.t) (current_user : User.t)
    (st st' : State) (updated : Job.t) :
  update_job job_id update current_user st = (st', Return updated) ->
  exists old,
    dict_get Z.eqb job_id (jobs st) = Some old
    /\ dict_get Z.eqb job_id (jobs st') = Some updated
    /\ Job.title updated = JobCreate.title update
    /\ Job.description updated = JobCreate.description update
    /\ Job.company updated = JobCreate.company update
    /\ Job.location updated = JobCreate.location update
    /\ Job.skills updated = JobCreate.skills update
    /\ Job.salary_min updated = JobCreate.salary_min update
    /\ Job.salary_max updated = JobCreate.salary_max update
    /\ Job.id updated = Job.id old
    /\ Job.posted_by updated = Job.posted_by old
    /\ Job.created_at updated = Job.created_at old
    /\ (forall k, k <> job_id ->
          dict_get Z.eqb k (jobs st') = dict_get Z.eqb k (jobs st))
    /\ dict_keys (jobs st') = dict_keys (jobs st)
    /\ users st' = users st
    /\ applications st' = applications st
    /\ last_job_id st' = last_job_id st
    /\ last_app_id st' = last_app_id st.
Proof.
  unfold update_job. unfold_monad.
  destruct (dict_get Z.eqb job_id (jobs st)) as [j|] eqn:G; [|discriminate].
  destruct (str_ne (Job.posted_by j) (User.email current_user));
    [discriminate|].
  intros [= <- <-]. exists j. simpl.
  split; [reflexivity|].
  split; [apply (get_set_same Z.eqb Zeqb_spec)|].
  repeat (split; [reflexivity|]).
  split; [intros k Hk; now apply (get_set_other Z.eqb Zeqb_spec)|].
  split; [now apply (keys_set_present Z.eqb Zeqb_spec _ _ j)|].
  repeat split.
Qed.

(** On the demo portal: Boss replaces job 1 by the frontend job. *)
Lemma update_job_full_replace_witness :
  update_job 1 frontend_job boss_user demo_state
    = (set_jobs [(1, demo_updated)] demo_state, Return demo_updated)
  /\ Job.salary_min demo_updated = JobCreate.salary_min frontend_job
  /\ applications (set_jobs [(1, demo_updated)] demo_state)
     = applications demo_state.
Proof.
  assert (H : update_job 1 frontend_job boss_user demo_state
              = (set_jobs [(1, demo_updated)] demo_state, Return demo_updated))
    by (vm_compute; reflexivity).
  split; [exact H|].
  destruct (update_job_full_replace _ _ _ _ _ _ H) as (old & _ & _ & Hf).
  split; [apply Hf|]. apply Hf.
Defined.

(** ** Reviewing an application *)

Lemma get_current_user_state token st st' r :
  get_current_user token st = (st', r) -> st' = st.
Proof.
  unfold get_current_user. unfold_monad.
  destruct (jwt_decode token) as [p|]; [|now intros [= <- _]].
  destruct (Payload.email p); [|now intros [= <- _]].
  destruct (Payload.role p); [|now intros [= <- _]].
  destruct (negb _); [now intros [= <- _]|].
  destruct (dict_get String.eqb _ (users st)); [|now intros [= <- _]].
  destruct (str_ne _ _); now intros [= <- _].
Qed.

Lemma fmap_state {A B} (f : A -> B) (m : M A) st :
  fst (fmap f m st) = fst (m st).
Proof. unfold fmap, bind, ret. now destruct (m st) as [s [a|e]]. Qed.

Lemma handle_dispatched EmailStr req st :
  dispatched st req (handle EmailStr req st).
Proof.
  destruct req as [d|d|token job now|token job_id upd|token job_id
                  |token a now|token app_id status]; simpl; unfold bind at 1.
  1: unfold validated; destruct (JobSeekerRegister_validate EmailStr d);
     [unfold ret at 1|]; constructor.
  1: unfold validated; destruct (EmployerRegister_validate EmailStr d);
     [unfold ret at 1|]; constructor.
  all: destruct (get_current_user token st) as [s [u|e']] eqn:U;
       pose proof (get_current_user_state _ _ _ _ U); subst s;
       [|constructor].
  1,2,3: now constructor.
  - unfold bind at 1, validated.
    destruct (ApplicationBase_validate EmailStr a);
      [unfold ret at 1|]; now constructor.
  - unfold bind at 1, validated.
    destruct (ApplicationReview_validate status);
      [unfold ret at 1|]; now constructor.
Qed.

(** X23.  [review_application] answers 404 when the application id is not
    stored; otherwise 403 when the application's job is gone from the catalog
    or was posted by someone else; otherwise it writes the new status over
    the old one, whatever the old one was.  The body model admits
    "reviewed", "rejected" and "accepted" and turns "pending" down, so a
    request of an authenticated user that carries "pending" is answered 422
    and changes nothing. *)
Theorem review_application_checks
    (app_id : Z) (review : ApplicationReview.t) (current_user : User.t)
    (st : State) :
  let run := review_application app_id review current_user st in
  (dict_get Z.eqb app_id (applications st) = None ->
     exists e, run = (st, Raise e) /\ NotFound e)
  /\ (forall a, dict_get Z.eqb app_id (applications st) = Some a ->
        dict_get Z.eqb (Application.job_id a) (jobs st) = None ->
        exists e, run = (st, Raise e) /\ Forbidden e)
  /\ (forall a j, dict_get Z.eqb app_id (applications st) = Some a ->
        dict_get Z.eqb (Application.job_id a) (jobs st) = Some j ->
        Job.posted_by j <> User.email current_user ->
        exists e, run = (st, Raise e) /\ Forbidden e)
  /\ (forall a j, dict_get Z.eqb app_id (applications st) = Some a ->
        dict_get Z.eqb (Application.job_id a) (jobs st) = Some j ->
        Job.posted_by j = User.email current_user ->
        let a' := Application.set_status (ApplicationReview.status review) a in
        run = (set_applications
                 (dict_set Z.eqb app_id a' (applications st)) st,
               Return a')
        /\ Application.status a' = ApplicationReview.status review)
  /\ (forall s, In s ["reviewed"; "rejected"; "accepted"] ->
        ApplicationReview_validate s = Some (ApplicationReview.mk s))
  /\ ApplicationReview_validate "pending" = None
  /\ (forall EmailStr token u,
        get_current_user token st = (st, Return u) ->
        exists e,
          handle EmailStr (PUT_applications_review token app_id "pending") st
            = (st, Raise e)
          /\ ValidationError e).
Proof.
  intros run. subst run. unfold review_application. unfold_monad.
  split; [|split; [|split; [|split; [|split; [|split]]]]].
  - intros ->. eexists. split; reflexivity.
  - intros a -> ->. eexists. split; reflexivity.
  - intros a j -> -> Hp. apply str_ne_true in Hp. rewrite Hp.
    eexists. split; reflexivity.
  - intros a j -> -> Hp. apply str_ne_false in Hp. rewrite Hp.
    split; reflexivity.
  - intros s [<-|[<-|[<-|[]]]]; reflexivity.
  - reflexivity.
  - intros EmailStr token u Hu. unfold handle. unfold_monad. rewrite Hu.
    eexists. split; reflexivity.
Qed.

(** On the demo portal: Boss accepts Ann's application; Ann cannot. *)
Lemma review_application_checks_witness :
  review_application 1 (ApplicationReview.mk "accepted") boss_user demo_state
    = (set_applications
         [(1, Application.set_status "accepted" demo_application)] demo_state,
       Return (Application.set_status "accepted" demo_application))
  /\ (exists e,
        review_application 1 (ApplicationReview.mk "accepted") ann_user
                           demo_state = (demo_state, Raise e)
        /\ Forbidden e).
Proof.
  split.
  - destruct (review_application_checks 1 (ApplicationReview.mk "accepted")
                boss_user demo_state) as (_ & _ & _ & H & _).
    apply (H demo_application demo_job); reflexivity.
  - destruct (review_application_checks 1 (ApplicationReview.mk "accepted")
                ann_user demo_state) as (_ & _ & H & _).
    apply (H demo_application demo_job);
      [reflexivity|reflexivity|vm_compute; discriminate].
Defined.

Lemma ApplicationReview_status_regex_spec s :
  ApplicationReview_status_regex s = true
  <-> In s ["reviewed"; "rejected"; "accepted"]
      \/ exists w, In w ["reviewed"; "rejected"; "accepted"]
                   /\ s = (w ++ newline)%string.
Proof.
  unfold ApplicationReview_status_regex. rewrite existsb_exists. split.
  - intros (w & Hw & E). apply orb_true_iff in E.
    destruct E as [E|E]; apply String.eqb_eq in E; subst s.
    + now left.
    + right. now exists w.
  - intros [H|(w & Hw & ->)].
    + exists s. split; [assumption|]. now rewrite String.eqb_refl.
    + exists w. split; [assumption|].
      now rewrite String.eqb_refl, orb_true_r.
Qed.

(** C3.  The pattern of [ApplicationReview.status] is matched with Python's
    [re.match], whose [$] also matches before a newline that ends the
    string: the body model admits exactly "reviewed", "rejected" and
    "accepted" and each of the three followed by one newline, so the new
    status is not confined to the three words.  On the demo portal Boss
    reviews Ann's application with the status "accepted" followed by a
    newline: the request is not turned down, and the status stored and
    returned is that text, which is none of "pending", "reviewed",
    "rejected" and "accepted". *)
Theorem review_stores_a_status_with_a_trailing_newline :
  (forall s,
      ApplicationReview_validate s = Some (ApplicationReview.mk s)
      <-> In s ["reviewed"; "rejected"; "accepted"]
          \/ exists w, In w ["reviewed"; "rejected"; "accepted"]
                       /\ s = (w ++ newline)%string)
  /\ ~ In accepted_newline ["pending"; "reviewed"; "rejected"; "accepted"]
  /\ ApplicationReview_validate accepted_newline
     = Some (ApplicationReview.mk accepted_newline)
  /\ handle EmailStr_id
       (PUT_applications_review boss_token 1 accepted_newline) demo_state
     = (set_applications
          [(1, Application.set_status accepted_newline demo_application)]
          demo_state,
        Return (resp_application
                  (Application.set_status accepted_newline
                                          demo_application)))
  /\ Application.status
       (Application.set_status accepted_newline demo_application)
     = accepted_newline.
Proof.
  split; [|split; [|split; [|split]]].
  - intros s. rewrite <- ApplicationReview_status_regex_spec.
    unfold ApplicationReview_validate.
    destruct (ApplicationReview_status_regex s); split;
      congruence.
  - vm_compute. intuition discriminate.
  - vm_compute. reflexivity.
  - vm_compute. reflexivity.
  - reflexivity.
Qed.

(** ** Failures change nothing *)

Ltac same_state H := injection H as <- _; reflexivity.

Lemma register_job_seeker_raise d st st' e :
  register_job_seeker d st = (st', Raise e) -> st' = st.
Proof.
  unfold register_job_seeker. unfold_monad.
  destruct (dict_mem _ _ _); intros H; [same_state H|discriminate].
Qed.

Lemma register_employer_raise d st st' e :
  register_employer d st = (st', Raise e) -> st' = st.
Proof.
  unfold register_employer. unfold_monad.
  destruct (dict_mem _ _ _); intros H; [same_state H|discriminate].
Qed.

Lemma post_job_raise job u now st st' e :
  post_job job u now st = (st', Raise e) -> st' = st.
Proof.
  unfold post_job. unfold_monad.
  destruct (str_ne _ _); intros H; [same_state H|discriminate].
Qed.

Lemma update_job_raise job_id upd u st st' e :
  update_job job_id upd u st = (st', Raise e) -> st' = st.
Proof.
  unfold update_job. unfold_monad.
  destruct (dict_get _ _ _); [|intros H; same_state H].
  destruct (str_ne _ _); intros H; [same_state H|discriminate].
Qed.

Lemma delete_job_raise job_id u st st' e :
  delete_job job_id u st = (st', Raise e) -> st' = st.
Proof.
  unfold delete_job. unfold_monad.
  destruct (dict_get _ _ _); [|intros H; same_state H].
  destruct (str_ne _ _); intros H; [same_state H|discriminate].
Qed.

Lemma apply_for_job_raise a u now st st' e :
  apply_for_job a u now st = (st', Raise e) -> st' = st.
Proof.
  unfold apply_for_job.
  destruct (str_ne _ _); [intros H; same_state H|].
  destruct (str_ne _ _); [intros H; same_state H|].
  unfold_monad.
  destruct (dict_get _ _ _); [|intros H; same_state H].
  rewrite apply_scan_run.
  destruct (existsb _ _); intros H; [same_state H|discriminate].
Qed.

Lemma review_application_raise app_id review u st st' e :
  review_application app_id review u st = (st', Raise e) -> st' = st.
Proof.
  unfold review_application. unfold_monad.
  destruct (dict_get _ _ (applications st)); [|intros H; same_state H].
  destruct (dict_get _ _ (jobs st)); [|intros H; same_state H].
  destruct (str_ne _ _); intros H; [same_state H|discriminate].
Qed.

Lemma fmap_raise {A B} (f : A -> B) (m : M A) st st' e :
  fmap f m st = (st', Raise e) -> m st = (st', Raise e).
Proof.
  unfold fmap, bind, ret. destruct (m st) as [s [a|e']]; [discriminate|].
  now intros [= <- <-].
Qed.

(** C9.  A request that is answered with an error, whichever it is (401
    from the token, 422 from the body, 400, 403 or 404 from the handler),
    leaves the three tables and the two counters as they were; so does each
    of the six mutating handlers on any arguments.  In particular a failed
    [apply_for_job] does not advance [last_app_id]. *)
Theorem failure_leaves_state_unchanged (st st' : State) (e : HTTPException) :
  (forall EmailStr req, handle EmailStr req st = (st', Raise e) -> st' = st)
  /\ (forall d, register_job_seeker d st = (st', Raise e) -> st' = st)
  /\ (forall d, register_employer d st = (st', Raise e) -> st' = st)
  /\ (forall job u now, post_job job u now st = (st', Raise e) -> st' = st)
  /\ (forall job_id upd u,
        update_job job_id upd u st = (st', Raise e) -> st' = st)
  /\ (forall job_id u, delete_job job_id u st = (st', Raise e) -> st' = st)
  /\ (forall a u now,
        apply_for_job a u now st = (st', Raise e) ->
        st' = st /\ last_app_id st' = last_app_id st)
  /\ (forall app_id review u,
        review_application app_id review u st = (st', Raise e) -> st' = st).
Proof.
  split; [|repeat split; intros;
           eauto using register_job_seeker_raise, register_employer_raise,
             post_job_raise, update_job_raise, delete_job_raise,
             apply_for_job_raise, review_application_raise].
  - intros EmailStr req H.
    pose proof (handle_dispatched EmailStr req st) as D. rewrite H in D.
    inversion D; subst; [reflexivity|..];
      match goal with
      | E : _ = fmap _ _ _ |- _ => symmetry in E; apply fmap_raise in E
      | E : fmap _ _ _ = _ |- _ => apply fmap_raise in E
      end;
      eauto using register_job_seeker_raise, register_employer_raise,
        post_job_raise, update_job_raise, delete_job_raise,
        apply_for_job_raise, review_application_raise.
  - f_equal. eauto using apply_for_job_raise.
Qed.

(** On the demo portal: Ann applies a second time; the answer is 400 and
    the counter stays at 1. *)
Lemma failure_leaves_state_unchanged_witness :
  snd (apply_for_job ann_applies ann_user 300 demo_state)
    = Raise (HTTP 400 "Already applied to this job")
  /\ fst (apply_for_job ann_applies ann_user 300 demo_state) = demo_state
  /\ last_app_id (fst (apply_for_job ann_applies ann_user 300 demo_state))
     = last_app_id demo_state.
Proof.
  assert (H : apply_for_job ann_applies ann_user 300 demo_state
              = (fst (apply_for_job ann_applies ann_user 300 demo_state),
                 Raise (HTTP 400 "Already applied to this job")))
    by (vm_compute; reflexivity).
  split; [vm_compute; reflexivity|].
  destruct (failure_leaves_state_unchanged demo_state
              (fst (apply_for_job ann_applies ann_user 300 demo_state))
              (HTTP 400 "Already applied to this job"))
    as (_ & _ & _ & _ & _ & _ & Ha & _).
  exact (Ha _ _ _ H).
Defined.

(** ** Logging in *)

Lemma authenticate_user_run email password role st :
  authenticate_user email password role st =
  (st, Return
         match dict_get String.eqb email (users st) with
         | None => None
         | Some u =>
             if str_ne (User.password u) password || str_ne (User.role u) role
             then None else Some u
         end).
Proof.
  unfold authenticate_user. unfold_monad.
  destruct (dict_get String.eqb email (users st)) as [u|]; [|reflexivity].
  destruct (str_ne _ _ || str_ne _ _); reflexivity.
Qed.

(** C10.  [login] (POST /auth/token) authenticates with the first scope of
    the form, and with "jobseeker" when the form has no scope.  With no
    scope, the right email and password get a bearer token for a stored job
    seeker and the 401 for any other stored user; with scopes, they get a
    token iff the stored role is the first scope.  An unknown email or a
    wrong password gets the 401 whatever the scopes.  So an employer who
    sends the right email and password with no scope, or with a first scope
    other than "employer", is answered 401 and gets no token.  [login_alt]
    (POST /auth/login) authenticates with the role of its body: the right
    email and password get a token iff the stored role is that role.
    Nothing is written. *)
Theorem login_role_defaults_to_jobseeker
    (form_data : OAuth2PasswordRequestForm.t) (data : UserLogin.t)
    (st : State) :
  let token_of u :=
    Token.mk (create_access_token (User.email u) (User.role u)) "bearer" in
  let unauthorized := HTTP 401 "Incorrect email, password, or role" in
  (forall u,
      dict_get String.eqb (OAuth2PasswordRequestForm.username form_data)
               (users st) = Some u ->
      User.password u = OAuth2PasswordRequestForm.password form_data ->
      (OAuth2PasswordRequestForm.scopes form_data = [] ->
         (User.role u = "jobseeker" ->
            login form_data st = (st, Return (token_of u)))
         /\ (User.role u <> "jobseeker" ->
               login form_data st = (st, Raise unauthorized)))
      /\ (forall s rest,
            OAuth2PasswordRequestForm.scopes form_data = s :: rest ->
            (User.role u = s ->
               login form_data st = (st, Return (token_of u)))
            /\ (User.role u <> s ->
                  login form_data st = (st, Raise unauthorized)))
      /\ (User.role u = "employer" ->
          OAuth2PasswordRequestForm.scopes form_data = []
          \/ (exists s rest,
                OAuth2PasswordRequestForm.scopes form_data = s :: rest
                /\ s <> "employer") ->
          exists e, login form_data st = (st, Raise e) /\ Unauthorized e))
  /\ ((forall u,
         dict_get String.eqb (OAuth2PasswordRequestForm.username form_data)
                  (users st) = Some u ->
         User.password u <> OAuth2PasswordRequestForm.password form_data) ->
      login form_data st = (st, Raise unauthorized))
  /\ (forall u,
        dict_get String.eqb (UserLogin.email data) (users st) = Some u ->
        User.password u = UserLogin.password data ->
        (User.role u = UserLogin.role data ->
           login_alt data st = (st, Return (token_of u)))
        /\ (User.role u <> UserLogin.role data ->
              login_alt data st = (st, Raise unauthorized)))
  /\ ((forall u,
         dict_get String.eqb (UserLogin.email data) (users st) = Some u ->
         User.password u <> UserLogin.password data) ->
      login_alt data st = (st, Raise unauthorized)).
Proof.
  intros token_of unauthorized. subst token_of unauthorized.
  assert (Hsame : forall a, str_ne a a = false)
    by (intros a; now apply str_ne_false).
  split; [|split; [|split]].
  - intros u Hu Hp.
    assert (Hrole : forall role,
               (User.role u = role ->
                bind (authenticate_user
                        (OAuth2PasswordRequestForm.username form_data)
                        (OAuth2PasswordRequestForm.password form_data) role)
                     issue_token st
                = (st, Return (Token.mk (create_access_token (User.email u)
                                           (User.role u)) "bearer")))
               /\ (User.role u <> role ->
                   bind (authenticate_user
                           (OAuth2PasswordRequestForm.username form_data)
                           (OAuth2PasswordRequestForm.password form_data)
                           role)
                        issue_token st
                   = (st, Raise (HTTP 401
                                   "Incorrect email, password, or role")))).
    { intros role. unfold bind. rewrite authenticate_user_run, Hu, Hp, Hsame.
      simpl. split; intros Hr.
      - rewrite (proj2 (str_ne_false _ _) Hr). reflexivity.
      - rewrite (proj2 (str_ne_true _ _) Hr). reflexivity. }
    split; [|split].
    + intros Hs. unfold login. rewrite Hs. apply Hrole.
    + intros s rest Hs. unfold login. rewrite Hs. apply Hrole.
    + intros Hr [Hs|(s & rest & Hs & Hn)]; unfold login; rewrite Hs;
        eexists; (split; [apply Hrole; congruence|reflexivity]).
  - intros H. unfold login, bind. rewrite authenticate_user_run.
    destruct (dict_get String.eqb _ (users st)) as [u|] eqn:G;
      [|reflexivity].
    specialize (H u eq_refl). apply str_ne_true in H. now rewrite H.
  - intros u Hu Hp. unfold login_alt, bind.
    rewrite authenticate_user_run, Hu, Hp, Hsame. simpl. split; intros Hr.
    + rewrite (proj2 (str_ne_false _ _) Hr). reflexivity.
    + rewrite (proj2 (str_ne_true _ _) Hr). reflexivity.
  - intros H. unfold login_alt, bind. rewrite authenticate_user_run.
    destruct (dict_get String.eqb _ (users st)) as [u|] eqn:G;
      [|reflexivity].
    specialize (H u eq_refl). apply str_ne_true in H. now rewrite H.
Qed.

(** On the demo portal: without a scope Ann, a job seeker, gets her token
    from [login] and Boss, an employer, gets the 401; Boss gets his token
    from [login] with the scope "employer" and from [login_alt] with the
    role "employer". *)
Lemma login_role_defaults_to_jobseeker_witness :
  login (OAuth2PasswordRequestForm.mk "ann@mail.io" "hunter22" []) demo_state
    = (demo_state, Return (Token.mk ann_token "bearer"))
  /\ (exists e,
        login (OAuth2PasswordRequestForm.mk "boss@acme.io" "secret1" [])
              demo_state = (demo_state, Raise e)
        /\ Unauthorized e)
  /\ login (OAuth2PasswordRequestForm.mk "boss@acme.io" "secret1"
                                         ["employer"]) demo_state
     = (demo_state, Return (Token.mk boss_token "bearer"))
  /\ login_alt (UserLogin.mk "boss@acme.io" "secret1" "employer") demo_state
     = (demo_state, Return (Token.mk boss_token "bearer")).
Proof.
  split; [|split; [|split]].
  - destruct (login_role_defaults_to_jobseeker
                (OAuth2PasswordRequestForm.mk "ann@mail.io" "hunter22" [])
                (UserLogin.mk "ann@mail.io" "hunter22" "jobseeker")
                demo_state) as (H & _).
    destruct (H ann_user eq_refl eq_refl) as (H1 & _).
    now apply H1.
  - destruct (login_role_defaults_to_jobseeker
                (OAuth2PasswordRequestForm.mk "boss@acme.io" "secret1" [])
                (UserLogin.mk "boss@acme.io" "secret1" "employer")
                demo_state) as (H & _).
    destruct (H boss_user eq_refl eq_refl) as (_ & _ & H3).
    apply H3; [reflexivity|now left].
  - destruct (login_role_defaults_to_jobseeker
                (OAuth2PasswordRequestForm.mk "boss@acme.io" "secret1"
                                              ["employer"])
                (UserLogin.mk "boss@acme.io" "secret1" "employer")
                demo_state) as (H & _).
    destruct (H boss_user eq_refl eq_refl) as (_ & H2 & _).
    now apply (H2 "employer" []).
  - destruct (login_role_defaults_to_jobseeker
                (OAuth2PasswordRequestForm.mk "boss@acme.io" "secret1" [])
                (UserLogin.mk "boss@acme.io" "secret1" "employer")
                demo_state) as (_ & _ & H & _).
    now apply (H boss_user).
Defined.

(** ** The invariant holds in every reachable state *)

Lemma Inv_initial : Inv initial_state.
Proof.
  constructor; simpl; try (intros; contradiction); try constructor; lia.
Qed.

Lemma get_current_user_resolved token st st' u :
  Inv st ->
  get_current_user token st = (st', Return u) ->
  Resolved st u
  /\ (User.role u = "jobseeker" \/ User.role u = "employer")
  /\ Payload.role (match jwt_decode token with
                   | Some p => p
                   | None => Payload.mk None None
                   end) = Some (User.role u).
Proof.
  intros HI. unfold get_current_user, Resolved. unfold_monad.
  destruct (jwt_decode token) as [p|]; [|discriminate].
  destruct (Payload.email p) as [email|]; [|discriminate].
  destruct (Payload.role p) as [role|]; [|discriminate].
  destruct (negb _) eqn:E; [discriminate|].
  destruct (dict_get String.eqb email (users st)) as [u0|] eqn:G;
    [|discriminate].
  destruct (str_ne (User.role u0) role) eqn:R; [discriminate|].
  intros [= <- <-]. apply str_ne_false in R.
  pose proof (get_In String.eqb Seqb_spec _ _ _ G) as Hin.
  apply (inv_users_email _ HI) in Hin. rewrite Hin.
  split; [assumption|]. rewrite R. split; [|reflexivity].
  apply negb_false_iff in E. simpl in E.
  rewrite !orb_true_iff in E.
  destruct E as [E|[E|E]]; [| |discriminate];
    apply String.eqb_eq in E; auto.
Qed.

Lemma Inv_add_user st email u :
  Inv st ->
  dict_get String.eqb email (users st) = None ->
  User.email u = email ->
  Inv (set_users (dict_set String.eqb email u (users st)) st).
Proof.
  intros HI Hnone He. destruct HI. constructor; simpl; trivial.
  - now apply (NoDup_keys_set String.eqb Seqb_spec).
  - intros e u' Hin. apply In_set in Hin. destruct Hin as [[= -> ->]|Hin].
    + assumption.
    + eauto.
  - intros k j Hin. destruct (inv_jobs_owner0 k j Hin) as (u0 & Hg & Hr).
    exists u0. split; [|assumption].
    rewrite (get_set_other String.eqb Seqb_spec); [assumption|].
    intros E. rewrite E in Hg. congruence.
Qed.

Lemma dict_mem_false {V} email (d : @dict string V) :
  dict_mem String.eqb email d = false -> dict_get String.eqb email d = None.
Proof. unfold dict_mem. destruct (dict_get _ _ _); congruence. Qed.

Lemma register_job_seeker_Inv d st :
  Inv st -> Inv (fst (register_job_seeker d st)).
Proof.
  intros HI. unfold register_job_seeker. unfold_monad.
  destruct (dict_mem _ _ _) eqn:E; simpl; [assumption|].
  apply Inv_add_user; [assumption|now apply dict_mem_false|reflexivity].
Qed.

Lemma register_employer_Inv d st :
  Inv st -> Inv (fst (register_employer d st)).
Proof.
  intros HI. unfold register_employer. unfold_monad.
  destruct (dict_mem _ _ _) eqn:E; simpl; [assumption|].
  apply Inv_add_user; [assumption|now apply dict_mem_false|reflexivity].
Qed.

Lemma key_in {V} (k : Z) (v : V) (d : @dict Z V) :
  In (k, v) d -> In k (dict_keys d).
Proof. intros H. change k with (fst (k, v)). now apply in_map. Qed.

Lemma post_job_Inv job u now st :
  Inv st -> Resolved st u -> Inv (fst (post_job job u now st)).
Proof.
  intros HI Hu. unfold post_job. unfold_monad.
  destruct (str_ne (User.role u) "employer") eqn:E; simpl; [assumption|].
  apply str_ne_false in E. destruct HI. constructor; simpl; trivial.
  - now apply (NoDup_keys_set Z.eqb Zeqb_spec).
  - intros k j Hin. apply In_set in Hin. destruct Hin as [[= -> ->]|Hin].
    + simpl. lia.
    + apply inv_jobs_id0 in Hin. lia.
  - intros k j Hin. apply In_set in Hin. destruct Hin as [[= -> ->]|Hin].
    + simpl. now exists u.
    + eauto.
  - lia.
Qed.

Lemma update_job_Inv job_id upd u st :
  Inv st -> Inv (fst (update_job job_id upd u st)).
Proof.
  intros HI. unfold update_job. unfold_monad.
  destruct (dict_get Z.eqb job_id (jobs st)) as [j0|] eqn:G;
    simpl; [|assumption].
  destruct (str_ne _ _); simpl; [assumption|].
  apply (get_In Z.eqb Zeqb_spec) in G.
  destruct HI. constructor; simpl; trivial.
  - now apply (NoDup_keys_set Z.eqb Zeqb_spec).
  - intros k j Hin. apply In_set in Hin. destruct Hin as [[= -> ->]|Hin].
    + simpl. now apply inv_jobs_id0.
    + now apply inv_jobs_id0.
  - intros k j Hin. apply In_set in Hin. destruct Hin as [[= -> ->]|Hin].
    + simpl. eauto.
    + eauto.
Qed.

Lemma delete_job_Inv job_id u st :
  Inv st -> Inv (fst (delete_job job_id u st)).
Proof.
  intros HI. unfold delete_job. unfold_monad.
  destruct (dict_get Z.eqb job_id (jobs st)) as [j0|] eqn:G;
    simpl; [|assumption].
  destruct (str_ne _ _); simpl; [assumption|].
  destruct HI. constructor; simpl; trivial.
  - now apply (NoDup_keys_del Z.eqb Zeqb_spec).
  - intros k j Hin. apply (In_del Z.eqb Zeqb_spec) in Hin.
    now apply inv_jobs_id0.
  - intros k j Hin. apply (In_del Z.eqb Zeqb_spec) in Hin.
    destruct Hin. eauto.
Qed.

Lemma apply_for_job_Inv a u now st :
  Inv st -> Inv (fst (apply_for_job a u now st)).
Proof.
  intros HI. unfold apply_for_job.
  destruct (str_ne _ _); simpl; [assumption|].
  destruct (str_ne _ _); simpl; [assumption|].
  unfold_monad.
  destruct (dict_get Z.eqb _ (jobs st)); simpl; [|assumption].
  rewrite apply_scan_run.
  destruct (existsb _ _); simpl; [assumption|].
  destruct HI. constructor; simpl; trivial.
  - now apply (NoDup_keys_set Z.eqb Zeqb_spec).
  - intros k x Hin. apply In_set in Hin. destruct Hin as [[= -> ->]|Hin].
    + simpl. lia.
    + apply inv_apps_id0 in Hin. lia.
  - lia.
Qed.

Lemma review_application_Inv app_id review u st :
  Inv st -> Inv (fst (review_application app_id review u st)).
Proof.
  intros HI. unfold review_application. unfold_monad.
  destruct (dict_get Z.eqb app_id (applications st)) as [a0|] eqn:G;
    simpl; [|assumption].
  destruct (dict_get Z.eqb _ (jobs st)); simpl; [|assumption].
  destruct (str_ne _ _); simpl; [assumption|].
  apply (get_In Z.eqb Zeqb_spec) in G.
  destruct HI. constructor; simpl; trivial.
  - now apply (NoDup_keys_set Z.eqb Zeqb_spec).
  - intros k x Hin. apply In_set in Hin. destruct Hin as [[= -> ->]|Hin].
    + simpl. now apply inv_apps_id0.
    + now apply inv_apps_id0.
Qed.

Lemma handle_Inv EmailStr req st :
  Inv st -> Inv (fst (handle EmailStr req st)).
Proof.
  intros HI.
  destruct (handle_dispatched EmailStr req st);
    rewrite ?fmap_state; simpl;
    auto using register_job_seeker_Inv, register_employer_Inv,
      update_job_Inv, delete_job_Inv, apply_for_job_Inv,
      review_application_Inv.
  apply post_job_Inv; [assumption|].
  eapply get_current_user_resolved; eassumption.
Qed.

Lemma reachable_Inv EmailStr st : reachable EmailStr st -> Inv st.
Proof.
  induction 1 as [|st req _ IH]; [apply Inv_initial|now apply handle_Inv].
Qed.

(** ** Identifiers *)

Ltac crunch_handler :=
  unfold fmap, register_job_seeker, register_employer, post_job, update_job,
    delete_job, apply_for_job, review_application;
  unfold_monad; rewrite ?apply_scan_run; simpl;
  repeat (match goal with
          | |- context [if ?c then _ else _] => destruct c eqn:?
          | |- context [match dict_get ?e ?k ?d with _ => _ end] =>
              destruct (dict_get e k d) eqn:?
          end; rewrite ?apply_scan_run; simpl).

Lemma handle_ids EmailStr req st :
  let st' := fst (handle EmailStr req st) in
  let r := snd (handle EmailStr req st) in
  last_job_id st <= last_job_id st'
  /\ last_app_id st <= last_app_id st'
  /\ Forall (fun i => i = last_job_id st + 1 /\ last_job_id st' = i)
            (issued_job_id req r)
  /\ Forall (fun i => i = last_app_id st + 1 /\ last_app_id st' = i)
            (issued_app_id req r).
Proof.
  cbv zeta.
  destruct (handle_dispatched EmailStr req st);
    try (destruct req; simpl; repeat split; solve [lia|constructor]);
    crunch_handler;
    repeat split; try lia; repeat constructor.
Qed.

Lemma run_cons EmailStr req rest st :
  run EmailStr (req :: rest) st =
  (fst (run EmailStr rest (fst (handle EmailStr req st))),
   snd (handle EmailStr req st)
     :: snd (run EmailStr rest (fst (handle EmailStr req st)))).
Proof.
  simpl. destruct (handle EmailStr req st) as [st1 r]. simpl.
  now destruct (run EmailStr rest st1).
Qed.

Lemma job_ids_issued_cons EmailStr req rest st :
  job_ids_issued EmailStr (req :: rest) st =
  issued_job_id req (snd (handle EmailStr req st))
    ++ job_ids_issued EmailStr rest (fst (handle EmailStr req st)).
Proof. unfold job_ids_issued. now rewrite run_cons. Qed.

Lemma app_ids_issued_cons EmailStr req rest st :
  app_ids_issued EmailStr (req :: rest) st =
  issued_app_id req (snd (handle EmailStr req st))
    ++ app_ids_issued EmailStr rest (fst (handle EmailStr req st)).
Proof. unfold app_ids_issued. now rewrite run_cons. Qed.

(** An id that the counter reaches is above everything issued before. *)
Lemma issued_sorted (counter counter' : Z) (now later : list Z) :
  counter <= counter' ->
  Forall (fun i => i = counter + 1 /\ counter' = i) now ->
  (List.length now <= 1)%nat ->
  Forall (fun i => counter' < i) later ->
  StronglySorted Z.lt later ->
  Forall (fun i => counter < i) (now ++ later)
  /\ StronglySorted Z.lt (now ++ later).
Proof.
  intros Hle Hnow Hlen Hlater Hs.
  assert (Hl : Forall (fun i => counter < i) later).
  { eapply Forall_impl; [|exact Hlater]. simpl. intros; lia. }
  destruct now as [|i [|j rest]]; simpl in *; [now split| |lia].
  inversion Hnow as [|? ? [Hi Hc] _]; subst.
  split; constructor; trivial; lia.
Qed.

Lemma issued_job_id_length req r : (List.length (issued_job_id req r) <= 1)%nat.
Proof. destruct req, r as [[]|]; simpl; lia. Qed.

Lemma issued_app_id_length req r : (List.length (issued_app_id req r) <= 1)%nat.
Proof. destruct req, r as [[]|]; simpl; lia. Qed.

Lemma job_ids_issued_sorted EmailStr reqs : forall st,
  Forall (fun i => last_job_id st < i) (job_ids_issued EmailStr reqs st)
  /\ StronglySorted Z.lt (job_ids_issued EmailStr reqs st).
Proof.
  induction reqs as [|req rest IH]; intros st.
  - split; constructor.
  - rewrite job_ids_issued_cons.
    destruct (handle_ids EmailStr req st) as (Hj & _ & Hi & _).
    destruct (IH (fst (handle EmailStr req st))) as [Hf Hs].
    eapply issued_sorted; eauto using issued_job_id_length.
Qed.

Lemma app_ids_issued_sorted EmailStr reqs : forall st,
  Forall (fun i => last_app_id st < i) (app_ids_issued EmailStr reqs st)
  /\ StronglySorted Z.lt (app_ids_issued EmailStr reqs st).
Proof.
  induction reqs as [|req rest IH]; intros st.
  - split; constructor.
  - rewrite app_ids_issued_cons.
    destruct (handle_ids EmailStr req st) as (_ & Hj & _ & Hi).
    destruct (IH (fst (handle EmailStr req st))) as [Hf Hs].
    eapply issued_sorted; eauto using issued_app_id_length.
Qed.

(** Rows that carry their key have distinct ids when the keys are. *)
Lemma ids_of_rows {V} (id : V -> Z) (d : @dict Z V) :
  (forall k v, In (k, v) d -> id v = k) ->
  map id (dict_values d) = dict_keys d.
Proof.
  unfold dict_values, dict_keys. rewrite map_map. intros H.
  apply map_ext_in. intros [k v] Hin. simpl. now apply H.
Qed.

(** C6.  Ids come from counters that only go up: a successful [post_job]
    (or [apply_for_job]) hands out the old counter plus one and leaves the
    counter at that id; no request lowers a counter; so over any run of
    requests, from any state, the job ids handed out are strictly increasing
    and above the counter the run started with, and likewise the application
    ids.  In every reachable state each stored row carries its key as its
    id, the stored ids are pairwise distinct and at most the counter.  The
    id of a deleted job is out of the catalog and is not handed out by any
    later request. *)
Theorem ids_monotonic_never_reused (EmailStr : string -> option string) :
  (forall job u now st st' j,
      post_job job u now st = (st', Return j) ->
      Job.id j = last_job_id st + 1 /\ last_job_id st' = last_job_id st + 1)
  /\ (forall a u now st st' x,
        apply_for_job a u now st = (st', Return x) ->
        Application.id x = last_app_id st + 1
        /\ last_app_id st' = last_app_id st + 1)
  /\ (forall req st,
        last_job_id st <= last_job_id (fst (handle EmailStr req st))
        /\ last_app_id st <= last_app_id (fst (handle EmailStr req st)))
  /\ (forall reqs st,
        StronglySorted Z.lt (job_ids_issued EmailStr reqs st)
        /\ Forall (fun i => last_job_id st < i)
                  (job_ids_issued EmailStr reqs st)
        /\ StronglySorted Z.lt (app_ids_issued EmailStr reqs st)
        /\ Forall (fun i => last_app_id st < i)
                  (app_ids_issued EmailStr reqs st))
  /\ (forall st,
        reachable EmailStr st ->
        (forall k j, In (k, j) (jobs st) ->
                     Job.id j = k /\ k <= last_job_id st)
        /\ NoDup (map Job.id (dict_values (jobs st)))
        /\ (forall k a, In (k, a) (applications st) ->
                        Application.id a = k /\ k <= last_app_id st)
        /\ NoDup (map Application.id (dict_values (applications st))))
  /\ (forall st job_id u st',
        reachable EmailStr st ->
        delete_job job_id u st = (st', Return tt) ->
        dict_get Z.eqb job_id (jobs st') = None
        /\ forall reqs, ~ In job_id (job_ids_issued EmailStr reqs st')).
Proof.
  split; [|split; [|split; [|split; [|split]]]].
  - intros job u now st st' j. unfold post_job. unfold_monad.
    destruct (str_ne _ _); [discriminate|]. intros [= <- <-]. now split.
  - intros a u now st st' x. unfold apply_for_job.
    destruct (str_ne _ _); [discriminate|].
    destruct (str_ne _ _); [discriminate|]. unfold_monad.
    destruct (dict_get _ _ _); [|discriminate]. rewrite apply_scan_run.
    destruct (existsb _ _); [discriminate|]. intros [= <- <-]. now split.
  - intros req st. destruct (handle_ids EmailStr req st) as (H1 & H2 & _).
    now split.
  - intros reqs st.
    destruct (job_ids_issued_sorted EmailStr reqs st).
    destruct (app_ids_issued_sorted EmailStr reqs st). tauto.
  - intros st Hr. apply reachable_Inv in Hr. destruct Hr.
    split; [intros k j Hin; apply inv_jobs_id0 in Hin; intuition lia|].
    split; [rewrite ids_of_rows; [assumption|];
            intros k v Hin; now apply inv_jobs_id0|].
    split; [intros k j Hin; apply inv_apps_id0 in Hin; intuition lia|].
    rewrite ids_of_rows; [assumption|].
    intros k v Hin; now apply inv_apps_id0.
  - intros st job_id u st' Hr. apply reachable_Inv in Hr.
    unfold delete_job. unfold_monad.
    destruct (dict_get Z.eqb job_id (jobs st)) as [j|] eqn:G; [|discriminate].
    destruct (str_ne _ _); [discriminate|]. intros [= <-]. simpl.
    split; [apply (get_del_same Z.eqb)|].
    intros reqs Hin.
    destruct (job_ids_issued_sorted EmailStr reqs
                (set_jobs (dict_del Z.eqb job_id (jobs st)) st)) as [Hf _].
    rewrite Forall_forall in Hf. apply Hf in Hin. simpl in Hin.
    apply (get_In Z.eqb Zeqb_spec) in G.
    apply (inv_jobs_id _ Hr) in G. lia.
Qed.

(** Job 1 is posted and deleted, and the next job gets id 2. *)
Lemma ids_monotonic_never_reused_witness :
  job_ids_issued EmailStr_id repost_requests initial_state = [1; 2]
  /\ StronglySorted Z.lt
       (job_ids_issued EmailStr_id repost_requests initial_state)
  /\ dict_keys (jobs (fst (run EmailStr_id repost_requests initial_state)))
     = [2].
Proof.
  split; [vm_compute; reflexivity|].
  split; [|vm_compute; reflexivity].
  destruct (ids_monotonic_never_reused EmailStr_id) as (_ & _ & _ & H & _).
  apply (H repost_requests initial_state).
Defined.

(** ** Roles *)

Lemma reachable_run EmailStr reqs : forall st,
  reachable EmailStr st -> reachable EmailStr (fst (run EmailStr reqs st)).
Proof.
  induction reqs as [|req rest IH]; intros st Hr; [exact Hr|].
  rewrite run_cons. simpl. apply IH. now constructor.
Qed.

Lemma reachable_demo_state : reachable EmailStr_id demo_state.
Proof. apply reachable_run. constructor. Qed.

(** A job in the catalog was not posted by a user who is not an employer. *)
Lemma not_employer_not_owner st u job_id j :
  Inv st -> Resolved st u -> User.role u <> "employer" ->
  dict_get Z.eqb job_id (jobs st) = Some j ->
  str_ne (Job.posted_by j) (User.email u) = true.
Proof.
  intros HI Hu Hr G. apply str_ne_true. intros E.
  apply (get_In Z.eqb Zeqb_spec) in G.
  destruct (inv_jobs_owner _ HI _ _ G) as (u0 & Hg & Hr0).
  unfold Resolved in Hu. rewrite E in Hg. congruence.
Qed.

(** C2, as the code has it.  In a reachable state, let a token resolve to a
    user; the role claim of the token is then that user's role.  If the
    role is not "employer", [post_job] and [employer_dashboard] answer 403;
    [update_job], [delete_job] and [applications_for_job] answer 404 when
    the job id is not in the catalog and 403 when it is; [review_application]
    answers 404 when the application id is not stored and 403 when it is.
    If the role is not "jobseeker", [apply_for_job], [my_applications] and
    [jobseeker_dashboard] answer 403.  Nothing is written in any of these
    cases. *)
Theorem wrong_role_is_refused
    (EmailStr : string -> option string) (st : State) (token : jwt)
    (u : User.t) :
  reachable EmailStr st ->
  get_current_user token st = (st, Return u) ->
  (exists p, jwt_decode token = Some p
             /\ Payload.role p = Some (User.role u))
  /\ (User.role u <> "employer" ->
      (forall job now,
          exists e, post_job job u now st = (st, Raise e) /\ Forbidden e)
      /\ (exists e, employer_dashboard u st = (st, Raise e) /\ Forbidden e)
      /\ (forall job_id upd,
            exists e, update_job job_id upd u st = (st, Raise e)
                      /\ if dict_mem Z.eqb job_id (jobs st)
                         then Forbidden e else NotFound e)
      /\ (forall job_id,
            exists e, delete_job job_id u st = (st, Raise e)
                      /\ if dict_mem Z.eqb job_id (jobs st)
                         then Forbidden e else NotFound e)
      /\ (forall job_id,
            exists e, applications_for_job job_id u st = (st, Raise e)
                      /\ if dict_mem Z.eqb job_id (jobs st)
                         then Forbidden e else NotFound e)
      /\ (forall app_id review,
            exists e, review_application app_id review u st = (st, Raise e)
                      /\ if dict_mem Z.eqb app_id (applications st)
                         then Forbidden e else NotFound e))
  /\ (User.role u <> "jobseeker" ->
      (forall a now,
          exists e, apply_for_job a u now st = (st, Raise e) /\ Forbidden e)
      /\ (exists e, my_applications u st = (st, Raise e) /\ Forbidden e)
      /\ (exists e, jobseeker_dashboard u st = (st, Raise e) /\ Forbidden e)).
Proof.
  intros Hreach Hu. apply reachable_Inv in Hreach.
  destruct (get_current_user_resolved _ _ _ _ Hreach Hu) as (Hres & _ & Hp).
  split; [|split].
  - destruct (jwt_decode token) as [p|]; [now exists p|discriminate].
  - intros Hr. pose proof (proj2 (str_ne_true _ _) Hr) as E.
    split; [|split; [|split; [|split; [|split]]]].
    + intros job now. unfold post_job. rewrite E.
      eexists. split; reflexivity.
    + unfold employer_dashboard. rewrite E. eexists. split; reflexivity.
    + intros job_id upd. unfold update_job, dict_mem. unfold_monad.
      destruct (dict_get Z.eqb job_id (jobs st)) as [j|] eqn:G.
      * rewrite (not_employer_not_owner _ _ _ _ Hreach Hres Hr G).
        eexists. split; reflexivity.
      * eexists. split; reflexivity.
    + intros job_id. unfold delete_job, dict_mem. unfold_monad.
      destruct (dict_get Z.eqb job_id (jobs st)) as [j|] eqn:G.
      * rewrite (not_employer_not_owner _ _ _ _ Hreach Hres Hr G).
        eexists. split; reflexivity.
      * eexists. split; reflexivity.
    + intros job_id. unfold applications_for_job, dict_mem. unfold_monad.
      destruct (dict_get Z.eqb job_id (jobs st)) as [j|] eqn:G.
      * rewrite (not_employer_not_owner _ _ _ _ Hreach Hres Hr G).
        eexists. split; reflexivity.
      * eexists. split; reflexivity.
    + intros app_id review. unfold review_application, dict_mem.
      unfold_monad.
      destruct (dict_get Z.eqb app_id (applications st)) as [a|] eqn:G.
      * destruct (dict_get Z.eqb (Application.job_id a) (jobs st))
          as [j|] eqn:Gj.
        -- rewrite (not_employer_not_owner _ _ _ _ Hreach Hres Hr Gj).
           eexists. split; reflexivity.
        -- eexists. split; reflexivity.
      * eexists. split; reflexivity.
  - intros Hr. pose proof (proj2 (str_ne_true _ _) Hr) as E.
    split; [|split].
    + intros a now. unfold apply_for_job. rewrite E.
      eexists. split; reflexivity.
    + unfold my_applications. rewrite E. eexists. split; reflexivity.
    + unfold jobseeker_dashboard. rewrite E. eexists. split; reflexivity.
Qed.

(** On the demo portal: Ann cannot update job 1 (403) nor delete job 7
    (404), and Boss cannot apply (403). *)
Lemma wrong_role_is_refused_witness :
  (exists e, update_job 1 frontend_job ann_user demo_state
             = (demo_state, Raise e) /\ Forbidden e)
  /\ (exists e, delete_job 7 ann_user demo_state
                = (demo_state, Raise e) /\ NotFound e)
  /\ (exists e, apply_for_job ann_applies boss_user 300 demo_state
                = (demo_state, Raise e) /\ Forbidden e).
Proof.
  assert (Ha : get_current_user ann_token demo_state
               = (demo_state, Return ann_user)) by (vm_compute; reflexivity).
  assert (Hb : get_current_user boss_token demo_state
               = (demo_state, Return boss_user)) by (vm_compute; reflexivity).
  destruct (wrong_role_is_refused EmailStr_id demo_state ann_token ann_user
              reachable_demo_state Ha) as (_ & He & _).
  destruct (wrong_role_is_refused EmailStr_id demo_state boss_token boss_user
              reachable_demo_state Hb) as (_ & _ & Hj).
  assert (Hne : User.role ann_user <> "employer") by (simpl; discriminate).
  assert (Hnj : User.role boss_user <> "jobseeker") by (simpl; discriminate).
  destruct (He Hne) as (_ & _ & Hupd & Hdel & _).
  destruct (Hj Hnj) as (Happ & _).
  split; [exact (Hupd 1 frontend_job)|].
  split; [exact (Hdel 7)|exact (Happ ann_applies 300)].
Defined.

(** C2, read to the letter, also promises 403 where the target of the
    request does not exist.  On the demo portal Ann, a job seeker, deletes
    job 7, which was never posted, with her own valid token: the answer is
    404, not 403. *)
Lemma wrong_role_not_always_forbidden :
  reachable EmailStr_id demo_state
  /\ get_current_user ann_token demo_state = (demo_state, Return ann_user)
  /\ User.role ann_user <> "employer"
  /\ handle EmailStr_id (DELETE_jobs ann_token 7) demo_state
     = (demo_state, Raise (HTTP 404 "Job not found"))
  /\ ~ Forbidden (HTTP 404 "Job not found").
Proof.
  split; [exact reachable_demo_state|].
  split; [vm_compute; reflexivity|].
  split; [simpl; discriminate|].
  split; [vm_compute; reflexivity|].
  unfold Forbidden. simpl. lia.
Qed.

(** ** Deleting a job that has applications *)

Lemma jobs_of_ids_length table ids :
  (List.length (jobs_of_ids table ids) <= List.length ids)%nat.
Proof.
  induction ids as [|i rest IH]; simpl; [lia|].
  rewrite length_app. destruct (dict_get Z.eqb i table); simpl; lia.
Qed.

Lemma jobs_of_ids_missing table ids i :
  In i ids -> dict_get Z.eqb i table = None ->
  (List.length (jobs_of_ids table ids) < List.length ids)%nat.
Proof.
  induction ids as [|i0 rest IH]; simpl; [tauto|].
  intros [->|Hin] Hnone; rewrite length_app.
  - rewrite Hnone. simpl. pose proof (jobs_of_ids_length table rest).
    unfold jobs_of_ids in *. lia.
  - specialize (IH Hin Hnone). unfold jobs_of_ids in *.
    destruct (dict_get Z.eqb i0 table); simpl; lia.
Qed.

Lemma jobs_of_ids_In table ids j :
  In j (jobs_of_ids table ids) ->
  exists i, In i ids /\ dict_get Z.eqb i table = Some j.
Proof.
  unfold jobs_of_ids. rewrite in_flat_map. intros (i & Hi & Hj).
  exists i. split; [assumption|].
  destruct (dict_get Z.eqb i table); simpl in Hj; [|contradiction].
  destruct Hj as [->|[]]. reflexivity.
Qed.

Lemma jobs_of_ids_In_iff table ids j :
  In j (jobs_of_ids table ids)
  <-> exists i, In i ids /\ dict_get Z.eqb i table = Some j.
Proof.
  split; [apply jobs_of_ids_In|].
  intros (i & Hi & G). unfold jobs_of_ids. apply in_flat_map.
  exists i. split; [assumption|]. rewrite G. now left.
Qed.

Lemma jobs_of_ids_count table ids :
  List.length (jobs_of_ids table ids)
  = List.length (filter (fun i => dict_mem Z.eqb i table) ids).
Proof.
  induction ids as [|i rest IH]; simpl; [reflexivity|].
  rewrite length_app. fold (jobs_of_ids table rest). rewrite IH.
  unfold dict_mem. now destruct (dict_get Z.eqb i table).
Qed.

Lemma filter_map_length {A B} (f : A -> B) (p : B -> bool) (l : list A) :
  List.length (filter p (map f l))
  = List.length (filter (fun x => p (f x)) l).
Proof.
  induction l as [|x l IH]; simpl; [reflexivity|].
  destruct (p (f x)); simpl; now rewrite IH.
Qed.

(** Taking a job out of the catalog takes it out of the join and leaves the
    rest of the join as it was. *)
Lemma jobs_of_ids_del table id ids :
  (forall k j, In (k, j) table -> Job.id j = k) ->
  jobs_of_ids (dict_del Z.eqb id table) ids
  = filter (fun j => negb (Job.id j =? id)) (jobs_of_ids table ids).
Proof.
  intros Hid. induction ids as [|i rest IH]; simpl; [reflexivity|].
  fold (jobs_of_ids (dict_del Z.eqb id table) rest).
  fold (jobs_of_ids table rest). rewrite filter_app, IH. f_equal.
  destruct (Z.eq_dec i id) as [->|Hn].
  - rewrite (get_del_same Z.eqb).
    destruct (dict_get Z.eqb id table) as [j|] eqn:G; [|reflexivity].
    apply (get_In Z.eqb Zeqb_spec) in G. apply Hid in G.
    simpl. now rewrite G, Z.eqb_refl.
  - rewrite (get_del_other Z.eqb Zeqb_spec); [|assumption].
    destruct (dict_get Z.eqb i table) as [j|] eqn:G; [|reflexivity].
    apply (get_In Z.eqb Zeqb_spec) in G. apply Hid in G.
    simpl. rewrite G. now rewrite (proj2 (Z.eqb_neq i id) Hn).
Qed.

(** C8.  A successful [delete_job] takes the job out of the catalog and
    touches nothing else.  For a job seeker who had applied to it, the
    dashboard computed afterwards lists the same applications as before the
    delete (the stored applications that carry the seeker's email), that
    application among them, and counts them all.  [applied_jobs] is the join
    of those applications with the jobs still in the catalog: a job is in it
    iff it is the catalog's row for the job of one of the applications, so
    the job of every application whose job was not the deleted one is kept;
    it has one entry for each application whose job is still there; it is
    [applied_jobs] of before without the entries of the deleted job; it
    holds no job with the deleted id, and is strictly shorter than the list
    of applications. *)
Theorem delete_job_keeps_applications
    (EmailStr : string -> option string) (job_id : Z)
    (employer seeker : User.t) (st st' : State) (a : Application.t) :
  reachable EmailStr st ->
  delete_job job_id employer st = (st', Return tt) ->
  User.role seeker = "jobseeker" ->
  In a (dict_values (applications st)) ->
  Application.job_id a = job_id ->
  Application.seeker_email a = User.email seeker ->
  jobs st' = dict_del Z.eqb job_id (jobs st)
  /\ dict_get Z.eqb job_id (jobs st') = None
  /\ applications st' = applications st
  /\ users st' = users st
  /\ last_job_id st' = last_job_id st
  /\ last_app_id st' = last_app_id st
  /\ exists before after,
       jobseeker_dashboard seeker st = (st, Return before)
       /\ jobseeker_dashboard seeker st' = (st', Return after)
       /\ JobseekerDashboard.applications after
          = JobseekerDashboard.applications before
       /\ In a (JobseekerDashboard.applications after)
       /\ JobseekerDashboard.num_applications after
          = List.length (JobseekerDashboard.applications after)
       /\ JobseekerDashboard.applied_jobs after
          = jobs_of_ids (jobs st')
              (map Application.job_id (JobseekerDashboard.applications after))
       /\ (forall j, In j (JobseekerDashboard.applied_jobs after) ->
                     Job.id j <> job_id)
       /\ (List.length (JobseekerDashboard.applied_jobs after)
           < List.length (JobseekerDashboard.applications after))%nat
       /\ (forall x,
             In x (JobseekerDashboard.applications after) <->
             In x (dict_values (applications st'))
             /\ Application.seeker_email x = User.email seeker)
       /\ (forall j,
             In j (JobseekerDashboard.applied_jobs after) <->
             exists x,
               In x (JobseekerDashboard.applications after)
               /\ dict_get Z.eqb (Application.job_id x) (jobs st') = Some j)
       /\ (forall x j,
             In x (JobseekerDashboard.applications after) ->
             Application.job_id x <> job_id ->
             dict_get Z.eqb (Application.job_id x) (jobs st) = Some j ->
             In j (JobseekerDashboard.applied_jobs after))
       /\ List.length (JobseekerDashboard.applied_jobs after)
          = List.length
              (filter (fun x => dict_mem Z.eqb (Application.job_id x)
                                         (jobs st'))
                      (JobseekerDashboard.applications after))
       /\ JobseekerDashboard.applied_jobs after
          = filter (fun j => negb (Job.id j =? job_id))
                   (JobseekerDashboard.applied_jobs before).
Proof.
  intros Hreach Hdel Hrole Hin Hjob Hmail. apply reachable_Inv in Hreach.
  revert Hdel. unfold delete_job. unfold_monad.
  destruct (dict_get Z.eqb job_id (jobs st)) as [j0|] eqn:G; [|discriminate].
  destruct (str_ne _ _); [discriminate|]. intros [= <-]. simpl.
  split; [reflexivity|]. split; [apply (get_del_same Z.eqb)|].
  repeat (split; [reflexivity|]).
  unfold jobseeker_dashboard. unfold_monad.
  rewrite (proj2 (str_ne_false _ _) Hrole). simpl.
  eexists. eexists. split; [reflexivity|]. split; [reflexivity|]. simpl.
  assert (Hmine : In a (filter
            (fun x => String.eqb (Application.seeker_email x)
                                 (User.email seeker))
            (dict_values (applications st)))).
  { apply filter_In. split; [assumption|]. now apply String.eqb_eq. }
  split; [reflexivity|]. split; [assumption|].
  split; [reflexivity|]. split; [reflexivity|].
  split; [|split; [|split; [|split; [|split; [|split]]]]].
  - intros j Hj. apply jobs_of_ids_In in Hj. destruct Hj as (i & _ & Hg).
    apply (get_In Z.eqb Zeqb_spec) in Hg.
    apply (In_del Z.eqb Zeqb_spec) in Hg. destruct Hg as [Hg Hne].
    apply (inv_jobs_id _ Hreach) in Hg. simpl in Hne. intuition congruence.
  - rewrite <- (length_map Application.job_id (filter _ _)).
    apply jobs_of_ids_missing with (i := job_id).
    + rewrite <- Hjob. now apply in_map.
    + apply (get_del_same Z.eqb).
  - intros x. now rewrite filter_In, String.eqb_eq.
  - intros j. rewrite jobs_of_ids_In_iff. split.
    + intros (i & Hi & Gi). apply in_map_iff in Hi.
      destruct Hi as (x & <- & Hx). now exists x.
    + intros (x & Hx & Gx). exists (Application.job_id x).
      split; [now apply in_map|exact Gx].
  - intros x j Hx Hne Gx. apply jobs_of_ids_In_iff.
    exists (Application.job_id x). split; [now apply in_map|].
    now rewrite (get_del_other Z.eqb Zeqb_spec).
  - rewrite jobs_of_ids_count. apply filter_map_length.
  - apply jobs_of_ids_del. intros k j Hk.
    now apply (inv_jobs_id _ Hreach) in Hk.
Qed.

(** On the portal with two jobs: once Boss has deleted job 1, Ann's
    dashboard still lists her application to it, keeps job 2 among the
    applied jobs, holds no job with id 1 there, and has fewer applied jobs
    than applications. *)
Lemma delete_job_keeps_applications_witness :
  let st' := set_jobs [(2, demo_job_2)] two_jobs_state in
  exists after,
    jobseeker_dashboard ann_user st' = (st', Return after)
    /\ In demo_application (JobseekerDashboard.applications after)
    /\ In demo_job_2 (JobseekerDashboard.applied_jobs after)
    /\ (forall j, In j (JobseekerDashboard.applied_jobs after) ->
                  Job.id j <> 1)
    /\ (List.length (JobseekerDashboard.applied_jobs after)
        < List.length (JobseekerDashboard.applications after))%nat.
Proof.
  intros st'.
  assert (Hr : reachable EmailStr_id two_jobs_state).
  { apply reachable_run. constructor. }
  assert (Hdel : delete_job 1 boss_user two_jobs_state = (st', Return tt))
    by (vm_compute; reflexivity).
  assert (Hin : In demo_application
                   (dict_values (applications two_jobs_state)))
    by (vm_compute; left; reflexivity).
  destruct (delete_job_keeps_applications EmailStr_id 1 boss_user ann_user
              two_jobs_state st' demo_application
              Hr Hdel eq_refl Hin eq_refl eq_refl)
    as (_ & _ & _ & _ & _ & _ & before & after
        & _ & H2 & _ & H4 & _ & _ & H7 & H8 & H9 & _ & H11 & _).
  exists after. split; [exact H2|]. split; [exact H4|].
  split; [|split; [exact H7|exact H8]].
  apply (H11 demo_application_2); [|discriminate|reflexivity].
  apply H9. split; [|reflexivity].
  vm_compute. right. left. reflexivity.
Defined.

(** ** Listing jobs *)

Lemma prefix_app p : forall s,
  String.prefix p s = true <-> exists t, s = (p ++ t)%string.
Proof.
  induction p as [|a p IH]; intros s; simpl.
  - split; [intros _; now exists s|intros _; now destruct s].
  - destruct s as [|b s]; simpl.
    + split; [discriminate|]. intros [t H]. discriminate.
    + destruct (ascii_dec a b) as [->|Hn].
      * rewrite IH. split; intros [t H]; exists t; [now rewrite H|].
        now injection H.
      * split; [discriminate|]. intros [t H]. injection H as E _.
        congruence.
Qed.

Lemma str_contains_cons needle c hay :
  str_contains needle (String c hay)
  = String.prefix needle (String c hay) || str_contains needle hay.
Proof. reflexivity. Qed.

Lemma str_contains_Substring needle : forall hay,
  str_contains needle hay = true <-> Substring needle hay.
Proof.
  unfold Substring. induction hay as [|c hay IH].
  - change (str_contains needle EmptyString)
      with (String.prefix needle EmptyString || false).
    rewrite orb_false_r, prefix_app. split.
    + intros [t H]. now exists EmptyString, t.
    + intros (pre & post & H). destruct pre; simpl in H; [|discriminate].
      now exists post.
  - rewrite str_contains_cons, orb_true_iff, prefix_app, IH. split.
    + intros [[t H]|(pre & post & H)].
      * now exists EmptyString, t.
      * exists (String c pre), post. simpl. now rewrite H.
    + intros (pre & post & H). destruct pre as [|c' pre]; simpl in H.
      * left. now exists post.
      * right. injection H as _ H. now exists pre, post.
Qed.

Lemma str_app_assoc (a b c : string) :
  ((a ++ b) ++ c = a ++ (b ++ c))%string.
Proof. induction a as [|x a IH]; simpl; [reflexivity|now rewrite IH]. Qed.

Lemma list_jobs_loop_filter lower query location skills rows :
  forall filtered,
  list_jobs_loop lower query location skills rows filtered
  = filtered ++ filter (list_jobs_match lower query location skills) rows.
Proof.
  induction rows as [|job rest IH]; intros filtered; simpl.
  - now rewrite app_nil_r.
  - rewrite IH.
    destruct (list_jobs_match lower query location skills job);
      [now rewrite <- app_assoc|reflexivity].
Qed.

Lemma list_jobs_match_job_matches lower query location skills job :
  list_jobs_match lower query location skills job
  = job_matches lower query location skills job.
Proof.
  unfold list_jobs_match, job_matches.
  destruct query as [[|c q]|], location as [[|c' l]|],
           skills as [[|s sk]|]; cbv beta iota zeta;
    change (skills_match lower [] job) with true;
    unfold query_matches, location_matches, skills_match, str_ne;
    repeat match goal with
           | |- context [str_contains ?a ?b] => destruct (str_contains a b)
           | |- context [String.eqb ?a ?b] => destruct (String.eqb a b)
           | |- context [forallb ?f ?l] => destruct (forallb f l)
           end; reflexivity.
Qed.

Lemma skills_match_spec lower sk job :
  skills_match lower sk job = true
  <-> forall s, In s sk ->
        exists t, In t (Job.skills job) /\ lower s = lower t.
Proof.
  unfold skills_match. rewrite forallb_forall.
  split; intros H s Hs; specialize (H s Hs).
  - apply existsb_exists in H. destruct H as (t' & Hin & E).
    apply in_map_iff in Hin. destruct Hin as (t & <- & Hin).
    apply String.eqb_eq in E. now exists t.
  - destruct H as (t & Hin & E). apply existsb_exists.
    exists (lower t). split; [now apply in_map|now apply String.eqb_eq].
Qed.

Lemma list_jobs_run lower query location skills st :
  list_jobs lower query location skills st
  = (st, Return (filter (job_matches lower query location skills)
                        (dict_values (jobs st)))).
Proof.
  unfold list_jobs. unfold_monad. rewrite list_jobs_loop_filter. simpl.
  f_equal. f_equal. apply filter_ext. intros job.
  apply list_jobs_match_job_matches.
Qed.

(** C5, as the code has it.  Whatever function [lower] stands for
    [str.lower()], [list_jobs] returns, in the order of the catalog, exactly
    the jobs that pass every filter that is given, where a filter is given
    when it is neither [None] nor empty: [query] passes iff its lower case
    occurs in the lower-cased title followed at once by the lower-cased
    description (so a query whose first part ends the title and whose rest
    starts the description passes); [location] passes iff its lower case is
    the lower case of the stored location; [skills] pass iff each of them
    has the lower case of one of the stored skills.  Where the lower case of
    the empty string is the empty string, an empty query passes every job
    also when counted as given, so that only an empty [location] is read
    otherwise than a filter that is given.  With no filter every job is
    returned, and nothing is written. *)
Theorem list_jobs_filters (lower : string -> string) (st : State)
    (query location : option string) (skills : option (list string)) :
  list_jobs lower query location skills st
    = (st, Return (filter (job_matches lower query location skills)
                          (dict_values (jobs st))))
  /\ (forall job,
        job_matches lower query location skills job = true
        <-> (forall q, query = Some q -> q <> EmptyString ->
               Substring (lower q)
                 (lower (Job.title job) ++ lower (Job.description job))%string)
            /\ (forall l, location = Some l -> l <> EmptyString ->
                  lower l = lower (Job.location job))
            /\ (forall sk, skills = Some sk ->
                  forall s, In s sk ->
                    exists t, In t (Job.skills job) /\ lower s = lower t))
  /\ (forall job q a b pre post,
        lower q = (a ++ b)%string ->
        lower (Job.title job) = (pre ++ a)%string ->
        lower (Job.description job) = (b ++ post)%string ->
        query_matches lower q job = true)
  /\ (lower EmptyString = EmptyString ->
      location <> Some EmptyString ->
      forall job,
        job_matches_as_stated lower query location skills job
        = job_matches lower query location skills job)
  /\ list_jobs lower None None None st
     = (st, Return (dict_values (jobs st))).
Proof.
  split; [apply list_jobs_run|]. split; [|split; [|split]].
  - intros job. unfold job_matches. rewrite !andb_true_iff. split.
    + intros [[Hq Hl] Hs]. split; [|split].
      * intros q -> Hne. destruct q as [|c q]; [congruence|].
        now apply str_contains_Substring.
      * intros l -> Hne. destruct l as [|c l]; [congruence|].
        now apply String.eqb_eq.
      * intros sk ->. now apply skills_match_spec.
    + intros (Hq & Hl & Hs). split; [split|].
      * destruct query as [[|c q]|]; try reflexivity.
        apply str_contains_Substring. apply Hq; [reflexivity|discriminate].
      * destruct location as [[|c l]|]; try reflexivity.
        apply String.eqb_eq. apply Hl; [reflexivity|discriminate].
      * destruct skills as [sk|]; [|reflexivity].
        apply skills_match_spec. now apply Hs.
  - intros job q a b pre post Hq Ht Hd. unfold query_matches.
    apply str_contains_Substring. exists pre, post.
    rewrite Hq, Ht, Hd. now rewrite !str_app_assoc.
  - intros Hempty Hloc job. unfold job_matches_as_stated, job_matches.
    f_equal. f_equal.
    + destruct query as [[|c q]|]; try reflexivity.
      unfold query_matches. rewrite Hempty. apply str_contains_Substring.
      now exists EmptyString,
        (lower (Job.title job) ++ lower (Job.description job))%string.
    + destruct location as [[|c l]|]; try reflexivity. congruence.
  - rewrite list_jobs_run. f_equal. f_equal.
    induction (dict_values (jobs st)) as [|j r IH]; simpl;
      [reflexivity|now rewrite IH].
Qed.

(** On the demo portal, with [ascii_lower], the query "ENGINEERgo", which
    runs over the end of the title into the description, finds the job. *)
Lemma list_jobs_filters_witness :
  list_jobs ascii_lower (Some "ENGINEERgo") None None demo_state
    = (demo_state, Return [demo_job])
  /\ query_matches ascii_lower "ENGINEERgo" demo_job = true.
Proof.
  destruct (list_jobs_filters ascii_lower demo_state (Some "ENGINEERgo")
              None None) as (H1 & _ & H3 & _).
  split; [rewrite H1; vm_compute; reflexivity|].
  apply (H3 demo_job "ENGINEERgo" "engineer" "go" "backend " " and rust");
    reflexivity.
Defined.

(** C5, read to the letter, counts an empty [location] as a filter that is
    given.  On the demo portal, whose one job is in "Remote", [list_jobs]
    with the empty string for [location] returns that job, whatever [lower]
    is; and as soon as the lower case of "Remote" is not that of the empty
    string, which is so for [str.lower()] as for [ascii_lower], the job does
    not pass the filter as stated. *)
Lemma empty_location_is_not_a_filter :
  (forall lower,
      list_jobs lower None (Some EmptyString) None demo_state
      = (demo_state, Return [demo_job]))
  /\ (forall lower,
        lower EmptyString <> lower (Job.location demo_job) ->
        job_matches_as_stated lower None (Some EmptyString) None demo_job
        = false
        /\ list_jobs lower None (Some EmptyString) None demo_state
           <> (demo_state,
               Return (filter (job_matches_as_stated lower None
                                 (Some EmptyString) None)
                              (dict_values (jobs demo_state)))))
  /\ Job.location demo_job = "Remote"
  /\ ascii_lower EmptyString <> ascii_lower (Job.location demo_job).
Proof.
  assert (H : forall lower,
             list_jobs lower None (Some EmptyString) None demo_state
             = (demo_state, Return [demo_job]))
    by (intros lower; vm_compute; reflexivity).
  split; [exact H|]. split; [|split; [reflexivity|vm_compute; discriminate]].
  intros lower Hne.
  assert (E : job_matches_as_stated lower None (Some EmptyString) None
                                    demo_job = false).
  { unfold job_matches_as_stated, location_matches. simpl.
    rewrite andb_true_r. now apply String.eqb_neq. }
  split; [exact E|]. rewrite H.
  change (dict_values (jobs demo_state)) with [demo_job].
  simpl. rewrite E. discriminate.
Qed.

(** The examples of the specification, with [ascii_lower]. *)
Example list_jobs_examples :
  let st := fst (run EmailStr_id
                   [ POST_auth_register_employer boss;
                     POST_jobs boss_token backend_job 100;
                     POST_jobs boss_token frontend_job 101 ]
                   initial_state) in
  let titles r :=
    match snd r with
    | Return l => map Job.title l
    | Raise _ => []
    end in
  titles (list_jobs ascii_lower None None (Some ["go"]) st)
    = ["Backend Engineer"]
  /\ titles (list_jobs ascii_lower None (Some "remote") None st)
     = ["Backend Engineer"]
  /\ titles (list_jobs ascii_lower (Some "react") None None st)
     = ["Frontend Dev"]
  /\ titles (list_jobs ascii_lower (Some "ENGINEERgo") None None st)
     = ["Backend Engineer"]
  /\ titles (list_jobs ascii_lower None None None st)
     = ["Backend Engineer"; "Frontend Dev"].
Proof. vm_compute. repeat split. Qed.

(* ================================================================== *)
(** * Further properties of the handlers *)

(** ** Case analysis on a request *)

(** Whatever holds of a request that is turned away, and of each handler
    run on a validated body and a resolved user, holds of [handle]. *)
Lemma handle_cases (EmailStr : string -> option string)
    (P : Request -> State -> State * result Response -> Prop) :
  (forall req st e, P req st (st, Raise e)) ->
  (forall data d st,
      JobSeekerRegister_validate EmailStr data = Some d ->
      P (POST_auth_register_jobseeker data) st
        (fmap resp_user (register_job_seeker d) st)) ->
  (forall data d st,
      EmployerRegister_validate EmailStr data = Some d ->
      P (POST_auth_register_employer data) st
        (fmap resp_user (register_employer d) st)) ->
  (forall token job now u st,
      get_current_user token st = (st, Return u) ->
      P (POST_jobs token job now) st
        (fmap resp_job (post_job job u now) st)) ->
  (forall token job_id upd u st,
      get_current_user token st = (st, Return u) ->
      P (PUT_jobs token job_id upd) st
        (fmap resp_job (update_job job_id upd u) st)) ->
  (forall token job_id u st,
      get_current_user token st = (st, Return u) ->
      P (DELETE_jobs token job_id) st
        (fmap (fun _ => resp_no_content) (delete_job job_id u) st)) ->
  (forall token application a now u st,
      get_current_user token st = (st, Return u) ->
      ApplicationBase_validate EmailStr application = Some a ->
      P (POST_applications token application now) st
        (fmap resp_application (apply_for_job a u now) st)) ->
  (forall token app_id status review u st,
      get_current_user token st = (st, Return u) ->
      ApplicationReview_validate status = Some review ->
      P (PUT_applications_review token app_id status) st
        (fmap resp_application (review_application app_id review u) st)) ->
  forall req st, P req st (handle EmailStr req st).
Proof.
  intros Hrej Hjs Hemp Hpost Hupd Hdel Happ Hrev req st.
  destruct req as [d|d|token job now|token job_id upd|token job_id
                  |token a now|token app_id status]; simpl; unfold bind at 1.
  1: unfold validated;
     destruct (JobSeekerRegister_validate EmailStr d) eqn:V;
     [unfold ret at 1; now apply Hjs|apply Hrej].
  1: unfold validated;
     destruct (EmployerRegister_validate EmailStr d) eqn:V;
     [unfold ret at 1; now apply Hemp|apply Hrej].
  all: destruct (get_current_user token st) as [s [u|e']] eqn:U;
       pose proof (get_current_user_state _ _ _ _ U); subst s;
       [|apply Hrej].
  - now apply Hpost.
  - now apply Hupd.
  - now apply Hdel.
  - unfold bind at 1, validated.
    destruct (ApplicationBase_validate EmailStr a) eqn:V;
      [unfold ret at 1; now apply Happ|apply Hrej].
  - unfold bind at 1, validated.
    destruct (ApplicationReview_validate status) eqn:V;
      [unfold ret at 1; now apply Hrev|apply Hrej].
Qed.

Lemma In_set_nodup {K V} (eqb : K -> K -> bool)
    (eqb_spec : forall a b, eqb a b = true <-> a = b)
    (k : K) (v : V) (d : list (K * V)) (kv : K * V) :
  NoDup (dict_keys d) ->
  In kv (dict_set eqb k v d) ->
  kv = (k, v) \/ (In kv d /\ fst kv <> k).
Proof.
  induction d as [|[k' v'] r IH]; simpl; intros Hnd.
  - intros [H|[]]. now left.
  - inversion Hnd as [|? ? Hni Hnd']; subst.
    destruct (eqb k k') eqn:E; simpl.
    + apply eqb_spec in E. subst k'.
      intros [H|H]; [now left|]. right. split; [now right|].
      intros Hk. apply Hni. rewrite <- Hk. now apply in_map.
    + intros [H|H].
      * subst kv. right. split; [now left|]. simpl. intros ->.
        rewrite (proj2 (eqb_spec k k) eq_refl) in E. discriminate.
      * destruct (IH Hnd' H) as [->|[Hin Hne]]; [now left|].
        right. split; [now right|assumption].
Qed.

Lemma values_In {K V} (d : list (K * V)) (v : V) :
  In v (dict_values d) <-> exists k, In (k, v) d.
Proof.
  unfold dict_values. rewrite in_map_iff. split.
  - intros ([k v'] & E & Hin). simpl in E. subst v'. now exists k.
  - intros (k & Hin). now exists (k, v).
Qed.

Lemma snd_fmap {A B} (f : A -> B) (m : M A) st :
  snd (fmap f m st)
  = match snd (m st) with
    | Return a => Return (f a)
    | Raise e => Raise e
    end.
Proof. unfold fmap, bind, ret. now destruct (m st) as [s [a|e]]. Qed.

(** ** The users table *)

Lemma UsersInv_add EmailStr st email u :
  UsersInv EmailStr st -> User.email u = email ->
  registered_row EmailStr u ->
  UsersInv EmailStr
    (set_users (dict_set String.eqb email u (users st)) st).
Proof.
  intros HU He Hrow e u' Hin. simpl in Hin. apply In_set in Hin.
  destruct Hin as [[= -> ->]|Hin]; [assumption|eauto].
Qed.

Lemma JobSeekerRegister_validate_row EmailStr data d :
  JobSeekerRegister_validate EmailStr data = Some d ->
  registered_row EmailStr (JobSeekerRegister.dict d).
Proof.
  unfold JobSeekerRegister_validate.
  destruct (EmailStr (JobSeekerRegister.email data)) as [e|] eqn:E;
    [|discriminate].
  destruct (password_ok _) eqn:Pw; [|discriminate]. intros [= <-].
  unfold registered_row. simpl. split; [now left|]. split.
  - now apply Nat.leb_le.
  - now exists (JobSeekerRegister.email data).
Qed.

Lemma EmployerRegister_validate_row EmailStr data d :
  EmployerRegister_validate EmailStr data = Some d ->
  registered_row EmailStr (EmployerRegister.dict d).
Proof.
  unfold EmployerRegister_validate.
  destruct (EmailStr (EmployerRegister.email data)) as [e|] eqn:E;
    [|discriminate].
  destruct (password_ok _) eqn:Pw; [|discriminate]. intros [= <-].
  unfold registered_row. simpl. split; [right; eauto|]. split.
  - now apply Nat.leb_le.
  - now exists (EmployerRegister.email data).
Qed.

Lemma handle_UsersInv EmailStr req st :
  UsersInv EmailStr st -> UsersInv EmailStr (fst (handle EmailStr req st)).
Proof.
  revert req st.
  apply (handle_cases EmailStr
           (fun req st r => UsersInv EmailStr st -> UsersInv EmailStr (fst r)));
    intros; rewrite ?fmap_state; trivial.
  - unfold register_job_seeker. unfold_monad.
    destruct (dict_mem _ _ _); simpl; [assumption|].
    apply UsersInv_add;
      eauto using JobSeekerRegister_validate_row.
  - unfold register_employer. unfold_monad.
    destruct (dict_mem _ _ _); simpl; [assumption|].
    apply UsersInv_add;
      eauto using EmployerRegister_validate_row.
  - crunch_handler; assumption.
  - crunch_handler; assumption.
  - crunch_handler; assumption.
  - crunch_handler; assumption.
  - crunch_handler; assumption.
Qed.

Lemma reachable_UsersInv EmailStr st :
  reachable EmailStr st -> UsersInv EmailStr st.
Proof.
  induction 1 as [|st req _ IH]; [intros e u []|now apply handle_UsersInv].
Qed.

(** A request leaves the rows of the users table where they are. *)
Lemma handle_users_kept EmailStr req st e u :
  dict_get String.eqb e (users st) = Some u ->
  dict_get String.eqb e (users (fst (handle EmailStr req st))) = Some u.
Proof.
  revert req st.
  apply (handle_cases EmailStr
           (fun req st r =>
              dict_get String.eqb e (users st) = Some u ->
              dict_get String.eqb e (users (fst r)) = Some u));
    intros; rewrite ?fmap_state; trivial.
  - unfold register_job_seeker. unfold_monad.
    destruct (dict_mem _ _ _) eqn:E; simpl; [assumption|].
    apply dict_mem_false in E.
    rewrite (get_set_other String.eqb Seqb_spec); [assumption|congruence].
  - unfold register_employer. unfold_monad.
    destruct (dict_mem _ _ _) eqn:E; simpl; [assumption|].
    apply dict_mem_false in E.
    rewrite (get_set_other String.eqb Seqb_spec); [assumption|congruence].
  - crunch_handler; assumption.
  - crunch_handler; assumption.
  - crunch_handler; assumption.
  - crunch_handler; assumption.
  - crunch_handler; assumption.
Qed.

Lemma run_users_kept EmailStr reqs : forall st e u,
  dict_get String.eqb e (users st) = Some u ->
  dict_get String.eqb e (users (fst (run EmailStr reqs st))) = Some u.
Proof.
  induction reqs as [|req rest IH]; intros st e u H; [exact H|].
  rewrite run_cons. simpl. apply IH. now apply handle_users_kept.
Qed.

Lemma get_current_user_Return token st st' u :
  get_current_user token st = (st', Return u)
  <-> st' = st
      /\ exists email role,
           jwt_decode token = Some (Payload.mk (Some email) (Some role))
           /\ (role = "jobseeker" \/ role = "employer")
           /\ dict_get String.eqb email (users st) = Some u
           /\ User.role u = role.
Proof.
  unfold get_current_user. unfold_monad. split.
  - destruct (jwt_decode token) as [[[email|] [role|]]|]; simpl;
      try discriminate.
    destruct (String.eqb role "jobseeker" || (String.eqb role "employer" || false))
      eqn:R; simpl; [|discriminate].
    destruct (dict_get String.eqb email (users st)) as [u0|] eqn:G;
      [|discriminate].
    destruct (str_ne (User.role u0) role) eqn:N; [discriminate|].
    intros [= <- <-]. split; [reflexivity|]. exists email, role.
    apply str_ne_false in N. rewrite !orb_true_iff in R.
    repeat split; trivial.
    destruct R as [R|[R|R]]; [| |discriminate];
      apply String.eqb_eq in R; auto.
  - intros (-> & email & role & -> & Hr & Hg & Hu). simpl.
    assert (R : String.eqb role "jobseeker"
                || (String.eqb role "employer" || false) = true).
    { destruct Hr as [->| ->]; reflexivity. }
    rewrite R. simpl. rewrite Hg, (proj2 (str_ne_false _ _) Hu).
    reflexivity.
Qed.

Lemma get_current_user_Raise token st st' e :
  get_current_user token st = (st', Raise e) ->
  st' = st /\ e = credentials_exception.
Proof.
  intros H. split; [eapply get_current_user_state; eassumption|].
  revert H. unfold get_current_user. unfold_monad.
  repeat match goal with
         | |- context [match ?x with _ => _ end] => destruct x
         end; congruence.
Qed.

Lemma registered_row_of_reachable EmailStr st e u :
  reachable EmailStr st ->
  dict_get String.eqb e (users st) = Some u ->
  User.email u = e /\ registered_row EmailStr u.
Proof.
  intros Hr G. apply (get_In String.eqb Seqb_spec) in G. split.
  - exact (inv_users_email _ (reachable_Inv _ _ Hr) _ _ G).
  - exact (reachable_UsersInv _ _ Hr _ _ G).
Qed.

(** X1.  In every reachable state a row of the users table is stored under
    its own email, that email is one [EmailStr] returned, the password has
    at least six characters, counted as [len] counts them (code points, not
    bytes), and the row is either a job seeker without a company name or an
    employer with one. *)
Theorem registered_users_are_well_formed
    (EmailStr : string -> option string) (st : State) (e : string)
    (u : User.t) :
  reachable EmailStr st ->
  dict_get String.eqb e (users st) = Some u ->
  User.email u = e
  /\ ((User.role u = "jobseeker" /\ User.company_name u = None)
      \/ (User.role u = "employer"
          /\ exists c, User.company_name u = Some c))
  /\ (6 <= str_len (User.password u))%nat
  /\ exists raw, EmailStr raw = Some e.
Proof.
  intros Hr G. apply (get_In String.eqb Seqb_spec) in G.
  pose proof (inv_users_email _ (reachable_Inv _ _ Hr) _ _ G) as He.
  destruct (reachable_UsersInv _ _ Hr _ _ G) as (H1 & H2 & H3).
  rewrite He in H3. auto.
Qed.

(** The password "ééé" has three characters in six bytes, and the
    registration that carries it is answered 422. *)
Example password_length_is_in_code_points :
  str_len three_e_acute = 3%nat
  /\ String.length three_e_acute = 6%nat
  /\ handle EmailStr_id
       (POST_auth_register_jobseeker
          (JobSeekerRegister.mk "zoe@mail.io" three_e_acute "Zoe" None))
       initial_state
     = (initial_state, Raise RequestValidationError).
Proof. vm_compute. repeat split. Qed.

(** On the demo portal: Boss is an employer of "Acme". *)
Lemma registered_users_are_well_formed_witness :
  User.email boss_user = "boss@acme.io"
  /\ ((User.role boss_user = "jobseeker"
       /\ User.company_name boss_user = None)
      \/ (User.role boss_user = "employer"
          /\ exists c, User.company_name boss_user = Some c))
  /\ (6 <= str_len (User.password boss_user))%nat
  /\ exists raw, EmailStr_id raw = Some "boss@acme.io".
Proof.
  apply (registered_users_are_well_formed EmailStr_id demo_state);
    [exact reachable_demo_state|reflexivity].
Defined.

(** X2.  No request removes or rewrites a user: a row found under an email
    is found there, unchanged, after any run of requests; so a token that
    resolves to a user keeps resolving to that user for as long as it decodes
    to the same payload. *)
Theorem registration_is_permanent
    (EmailStr : string -> option string) (reqs : list Request) (st : State) :
  (forall e u,
      dict_get String.eqb e (users st) = Some u ->
      dict_get String.eqb e (users (fst (run EmailStr reqs st))) = Some u)
  /\ (forall token u,
        get_current_user token st = (st, Return u) ->
        get_current_user token (fst (run EmailStr reqs st))
        = (fst (run EmailStr reqs st), Return u)).
Proof.
  split; [intros; now apply run_users_kept|].
  intros token u H. apply get_current_user_Return in H.
  destruct H as (_ & email & role & Hd & Hr & Hg & Hu).
  apply get_current_user_Return. split; [reflexivity|].
  exists email, role. repeat split; trivial. now apply run_users_kept.
Qed.

(** X3.  Once an email is in the users table, both registration handlers
    turn it down with 400 "Email already registered" and write nothing, in
    that state and after any run of requests; and a registration that
    returns has put its row under its email. *)
Theorem duplicate_email_is_rejected
    (EmailStr : string -> option string) (st : State) :
  (forall d st1 r,
      register_job_seeker d st = (st1, Return r) ->
      dict_get String.eqb (JobSeekerRegister.email d) (users st) = None
      /\ dict_get String.eqb (JobSeekerRegister.email d) (users st1)
         = Some (JobSeekerRegister.dict d))
  /\ (forall d st1 r,
        register_employer d st = (st1, Return r) ->
        dict_get String.eqb (EmployerRegister.email d) (users st) = None
        /\ dict_get String.eqb (EmployerRegister.email d) (users st1)
           = Some (EmployerRegister.dict d))
  /\ (forall email u reqs,
        dict_get String.eqb email (users st) = Some u ->
        let st2 := fst (run EmailStr reqs st) in
        (forall d, JobSeekerRegister.email d = email ->
           exists e, register_job_seeker d st2 = (st2, Raise e)
                     /\ DuplicateEmail e)
        /\ (forall d, EmployerRegister.email d = email ->
              exists e, register_employer d st2 = (st2, Raise e)
                        /\ DuplicateEmail e)).
Proof.
  split; [|split].
  - intros d st1 r. unfold register_job_seeker. unfold_monad.
    destruct (dict_mem _ _ _) eqn:E; [discriminate|]. intros [= <- _].
    split; [now apply dict_mem_false|]. simpl.
    apply (get_set_same String.eqb Seqb_spec).
  - intros d st1 r. unfold register_employer. unfold_monad.
    destruct (dict_mem _ _ _) eqn:E; [discriminate|]. intros [= <- _].
    split; [now apply dict_mem_false|]. simpl.
    apply (get_set_same String.eqb Seqb_spec).
  - intros email u reqs G st2.
    pose proof (run_users_kept EmailStr reqs _ _ _ G) as G2. fold st2 in G2.
    split; intros d <-.
    + unfold register_job_seeker, dict_mem. unfold_monad. rewrite G2.
      eexists. split; reflexivity.
    + unfold register_employer, dict_mem. unfold_monad. rewrite G2.
      eexists. split; reflexivity.
Qed.

(** On the demo portal: Boss's email is taken for both kinds of account. *)
Lemma duplicate_email_is_rejected_witness :
  (exists e, register_job_seeker
               (JobSeekerRegister.mk "boss@acme.io" "another1" "B" None)
               demo_state = (demo_state, Raise e)
             /\ DuplicateEmail e)
  /\ (exists e, register_employer boss demo_state = (demo_state, Raise e)
                /\ DuplicateEmail e).
Proof.
  destruct (duplicate_email_is_rejected EmailStr_id demo_state)
    as (_ & _ & H).
  destruct (H "boss@acme.io" boss_user [] eq_refl) as [H1 H2].
  split; [apply H1|apply H2]; reflexivity.
Defined.

(** ** Logging in and coming back with the token *)

(** X4.  In a reachable state, [login_alt] with the email, password and
    role of a stored user returns a bearer token that [get_current_user]
    resolves to that very user; with an unknown email, a wrong password or a
    wrong role it answers the one 401 "Incorrect email, password, or role".
    [login] is [login_alt] with the first scope of the form as the role, or
    "jobseeker" when there is none.  Neither writes anything. *)
Theorem login_token_resolves_to_the_user
    (EmailStr : string -> option string) (st : State) :
  reachable EmailStr st ->
  (forall data u,
      dict_get String.eqb (UserLogin.email data) (users st) = Some u ->
      User.password u = UserLogin.password data ->
      User.role u = UserLogin.role data ->
      exists tok,
        login_alt data st = (st, Return tok)
        /\ Token.token_type tok = "bearer"
        /\ get_current_user (Token.access_token tok) st = (st, Return u))
  /\ (forall data,
        (forall u,
            dict_get String.eqb (UserLogin.email data) (users st) = Some u ->
            User.password u <> UserLogin.password data
            \/ User.role u <> UserLogin.role data) ->
        login_alt data st
        = (st, Raise (HTTP 401 "Incorrect email, password, or role")))
  /\ (forall form_data,
        login form_data st
        = login_alt
            (UserLogin.mk (OAuth2PasswordRequestForm.username form_data)
                          (OAuth2PasswordRequestForm.password form_data)
                          (hd "jobseeker"
                              (OAuth2PasswordRequestForm.scopes form_data)))
            st).
Proof.
  intros Hreach. split; [|split].
  - intros data u G Hp Hr. unfold login_alt, bind.
    rewrite authenticate_user_run, G.
    rewrite (proj2 (str_ne_false _ _) Hp), (proj2 (str_ne_false _ _) Hr).
    simpl. eexists. split; [reflexivity|]. split; [reflexivity|]. simpl.
    apply get_current_user_Return. split; [reflexivity|].
    exists (User.email u), (User.role u).
    destruct (registered_row_of_reachable EmailStr st _ _ Hreach G)
      as (He & Hrow).
    split; [reflexivity|]. split; [|split; [|reflexivity]].
    + destruct Hrow as ([[R _]|[R _]] & _); auto.
    + now rewrite He.
  - intros data H. unfold login_alt, bind. rewrite authenticate_user_run.
    destruct (dict_get String.eqb (UserLogin.email data) (users st))
      as [u|] eqn:G; [|reflexivity].
    destruct (H u eq_refl) as [N|N]; apply str_ne_true in N; rewrite N;
      [reflexivity|]. rewrite orb_true_r. reflexivity.
  - intros form_data. unfold login, login_alt. simpl.
    now destruct (OAuth2PasswordRequestForm.scopes form_data).
Qed.

(** On the demo portal: Ann logs in as a job seeker and her token resolves
    to her row; with the role "employer" she gets the 401. *)
Lemma login_token_resolves_to_the_user_witness :
  (exists tok,
     login_alt (UserLogin.mk "ann@mail.io" "hunter22" "jobseeker") demo_state
       = (demo_state, Return tok)
     /\ Token.token_type tok = "bearer"
     /\ get_current_user (Token.access_token tok) demo_state
        = (demo_state, Return ann_user))
  /\ login_alt (UserLogin.mk "ann@mail.io" "hunter22" "employer") demo_state
     = (demo_state, Raise (HTTP 401 "Incorrect email, password, or role")).
Proof.
  destruct (login_token_resolves_to_the_user EmailStr_id demo_state
              reachable_demo_state) as (H1 & H2 & _).
  split.
  - apply (H1 (UserLogin.mk "ann@mail.io" "hunter22" "jobseeker") ann_user);
      reflexivity.
  - apply H2. intros u G. vm_compute in G. injection G as <-.
    right. simpl. discriminate.
Defined.

(** X5.  [get_current_user] either returns the row stored under the email
    of the payload, and then the role of the payload is "jobseeker" or
    "employer" and is the role of that row, or raises the one 401 "Could
    not validate credentials"; it writes nothing.  When it raises, every
    request that carries the token is answered with that 401 and nothing is
    written, whatever the body. *)
Theorem unresolved_token_is_unauthorized
    (EmailStr : string -> option string) (token : jwt) (st : State) :
  ((exists u email role,
       get_current_user token st = (st, Return u)
       /\ jwt_decode token = Some (Payload.mk (Some email) (Some role))
       /\ (role = "jobseeker" \/ role = "employer")
       /\ dict_get String.eqb email (users st) = Some u
       /\ User.role u = role)
   \/ get_current_user token st = (st, Raise credentials_exception))
  /\ (get_current_user token st = (st, Raise credentials_exception) ->
      forall req, bearer req = Some token ->
        handle EmailStr req st = (st, Raise credentials_exception)).
Proof.
  split.
  - destruct (get_current_user token st) as [st' [u|e]] eqn:H.
    + left. apply get_current_user_Return in H.
      destruct H as (-> & email & role & H). exists u, email, role.
      split; [reflexivity|exact H].
    + right. apply get_current_user_Raise in H.
      destruct H as [-> ->]. reflexivity.
  - intros H req Hb.
    destruct req; simpl in Hb; try discriminate; injection Hb as ->;
      simpl; unfold bind at 1; rewrite H; reflexivity.
Qed.

(** On the demo portal: a token for an email nobody registered opens no
    endpoint. *)
Lemma unresolved_token_is_unauthorized_witness :
  handle EmailStr_id
    (DELETE_jobs (create_access_token "eve@mail.io" "employer") 1) demo_state
  = (demo_state, Raise credentials_exception).
Proof.
  destruct (unresolved_token_is_unauthorized EmailStr_id
              (create_access_token "eve@mail.io" "employer") demo_state)
    as [_ H].
  apply H; reflexivity.
Defined.

(** ** The job catalog over time *)

(** What a request can do to the catalog: nothing, add a job under the next
    id, write a job over by [Job.update], or take a job out. *)
Lemma handle_jobs_effect EmailStr req st :
  let st' := fst (handle EmailStr req st) in
  jobs st' = jobs st
  \/ (exists j, jobs st' = dict_set Z.eqb (last_job_id st + 1) j (jobs st))
  \/ (exists id j0 upd,
        dict_get Z.eqb id (jobs st) = Some j0
        /\ jobs st' = dict_set Z.eqb id (Job.update j0 upd) (jobs st))
  \/ (exists id, jobs st' = dict_del Z.eqb id (jobs st)).
Proof.
  cbv zeta. revert req st.
  apply (handle_cases EmailStr
           (fun req st r =>
              jobs (fst r) = jobs st
              \/ (exists j,
                    jobs (fst r) = dict_set Z.eqb (last_job_id st + 1) j (jobs st))
              \/ (exists id j0 upd,
                    dict_get Z.eqb id (jobs st) = Some j0
                    /\ jobs (fst r)
                       = dict_set Z.eqb id (Job.update j0 upd) (jobs st))
              \/ (exists id, jobs (fst r) = dict_del Z.eqb id (jobs st))));
    intros; rewrite ?fmap_state; auto; crunch_handler; eauto 10.
Qed.

Lemma handle_job_absent EmailStr req st k :
  Inv st -> k <= last_job_id st ->
  dict_get Z.eqb k (jobs st) = None ->
  dict_get Z.eqb k (jobs (fst (handle EmailStr req st))) = None.
Proof.
  intros HI Hk G.
  destruct (handle_jobs_effect EmailStr req st)
    as [E|[(j & E)|[(id & j0 & upd & G0 & E)|(id & E)]]]; rewrite E.
  - exact G.
  - rewrite (get_set_other Z.eqb Zeqb_spec); [exact G|lia].
  - rewrite (get_set_other Z.eqb Zeqb_spec); [exact G|congruence].
  - destruct (Z.eq_dec k id) as [->|Hn].
    + apply (get_del_same Z.eqb).
    + now rewrite (get_del_other Z.eqb Zeqb_spec).
Qed.

Lemma run_Inv EmailStr reqs : forall st,
  Inv st -> Inv (fst (run EmailStr reqs st)).
Proof.
  induction reqs as [|req rest IH]; intros st HI; [exact HI|].
  rewrite run_cons. simpl. apply IH. now apply handle_Inv.
Qed.

Lemma run_job_absent EmailStr reqs : forall st k,
  Inv st -> k <= last_job_id st ->
  dict_get Z.eqb k (jobs st) = None ->
  dict_get Z.eqb k (jobs (fst (run EmailStr reqs st))) = None.
Proof.
  induction reqs as [|req rest IH]; intros st k HI Hk G; [exact G|].
  rewrite run_cons. simpl. apply IH.
  - now apply handle_Inv.
  - destruct (handle_ids EmailStr req st) as (H & _). lia.
  - now apply handle_job_absent.
Qed.

Lemma same_job_refl j : same_job j j.
Proof. repeat split. Qed.

Lemma same_job_trans j1 j2 j3 :
  same_job j1 j2 -> same_job j2 j3 -> same_job j1 j3.
Proof. unfold same_job. intuition congruence. Qed.

Lemma handle_job_kept EmailStr req st k j :
  Inv st ->
  dict_get Z.eqb k (jobs st) = Some j ->
  match dict_get Z.eqb k (jobs (fst (handle EmailStr req st))) with
  | Some j' => same_job j j'
  | None => True
  end.
Proof.
  intros HI G.
  destruct (handle_jobs_effect EmailStr req st)
    as [E|[(j1 & E)|[(id & j0 & upd & G0 & E)|(id & E)]]]; rewrite E.
  - rewrite G. apply same_job_refl.
  - rewrite (get_set_other Z.eqb Zeqb_spec);
      [rewrite G; apply same_job_refl|].
    pose proof (get_In Z.eqb Zeqb_spec _ _ _ G) as Hin.
    apply (inv_jobs_id _ HI) in Hin. lia.
  - destruct (Z.eq_dec k id) as [->|Hn].
    + rewrite (get_set_same Z.eqb Zeqb_spec).
      assert (j0 = j) by congruence. subst j0. repeat split.
    + rewrite (get_set_other Z.eqb Zeqb_spec); [|assumption].
      rewrite G. apply same_job_refl.
  - destruct (Z.eq_dec k id) as [->|Hn].
    + now rewrite (get_del_same Z.eqb).
    + rewrite (get_del_other Z.eqb Zeqb_spec); [|assumption].
      rewrite G. apply same_job_refl.
Qed.

Lemma run_job_kept EmailStr reqs : forall st k j,
  Inv st ->
  dict_get Z.eqb k (jobs st) = Some j ->
  match dict_get Z.eqb k (jobs (fst (run EmailStr reqs st))) with
  | Some j' => same_job j j'
  | None => True
  end.
Proof.
  induction reqs as [|req rest IH]; intros st k j HI G.
  - simpl. rewrite G. apply same_job_refl.
  - rewrite run_cons. simpl.
    pose proof (handle_job_kept EmailStr req st k j HI G) as H1.
    pose proof (handle_Inv EmailStr req st HI) as HI1.
    destruct (dict_get Z.eqb k (jobs (fst (handle EmailStr req st))))
      as [j1|] eqn:G1.
    + specialize (IH _ _ _ HI1 G1).
      destruct (dict_get Z.eqb k (jobs (fst (run EmailStr rest _))));
        [|trivial].
      eapply same_job_trans; eassumption.
    + rewrite (run_job_absent EmailStr rest _ k HI1); trivial.
      pose proof (get_In Z.eqb Zeqb_spec _ _ _ G) as Hin.
      apply (inv_jobs_id _ HI) in Hin.
      destruct (handle_ids EmailStr req st) as (H & _). lia.
Qed.

(** X6.  What [get_job] finds after a write: the job that [post_job] has
    just returned, under its id; the job that [update_job] has just
    returned, under the id that was updated; and a 404 under the id that
    [delete_job] has just removed, for a second [delete_job] as well.
    [get_job] itself writes nothing. *)
Theorem get_job_after_write (st : State) :
  (forall job u now st1 j,
      post_job job u now st = (st1, Return j) ->
      get_job (Job.id j) st1 = (st1, Return j))
  /\ (forall job_id upd u st1 j,
        update_job job_id upd u st = (st1, Return j) ->
        get_job job_id st1 = (st1, Return j))
  /\ (forall job_id u st1 r,
        delete_job job_id u st = (st1, Return r) ->
        (exists e, get_job job_id st1 = (st1, Raise e) /\ NotFound e)
        /\ (forall u', exists e,
              delete_job job_id u' st1 = (st1, Raise e) /\ NotFound e))
  /\ (forall job_id, fst (get_job job_id st) = st).
Proof.
  split; [|split; [|split]].
  - intros job u now st1 j. unfold post_job. unfold_monad.
    destruct (str_ne _ _); [discriminate|]. intros [= <- <-].
    unfold get_job. unfold_monad. simpl.
    now rewrite (get_set_same Z.eqb Zeqb_spec).
  - intros job_id upd u st1 j. unfold update_job. unfold_monad.
    destruct (dict_get Z.eqb job_id (jobs st)); [|discriminate].
    destruct (str_ne _ _); [discriminate|]. intros [= <- <-].
    unfold get_job. unfold_monad. simpl.
    now rewrite (get_set_same Z.eqb Zeqb_spec).
  - intros job_id u st1 r. unfold delete_job. unfold_monad.
    destruct (dict_get Z.eqb job_id (jobs st)); [|discriminate].
    destruct (str_ne _ _); [discriminate|]. intros [= <- _].
    unfold get_job. unfold_monad. simpl.
    rewrite (get_del_same Z.eqb). split; [|intros u'];
      eexists; split; reflexivity.
  - intros job_id. unfold get_job. unfold_monad.
    now destruct (dict_get Z.eqb job_id (jobs st)).
Qed.

(** On the demo portal: job 1 is there, and gone once Boss deletes it. *)
Lemma get_job_after_write_witness :
  get_job 1 demo_state = (demo_state, Return demo_job)
  /\ exists e, get_job 1 (set_jobs [] demo_state)
               = (set_jobs [] demo_state, Raise e)
               /\ NotFound e.
Proof.
  split; [vm_compute; reflexivity|].
  destruct (get_job_after_write demo_state) as (_ & _ & H & _).
  assert (Hdel : delete_job 1 boss_user demo_state
                 = (set_jobs [] demo_state, Return tt))
    by (vm_compute; reflexivity).
  exact (proj1 (H 1 boss_user _ _ Hdel)).
Defined.

(** X7.  In a reachable state, when [post_job] returns a job for a user
    that [get_current_user] resolved, the user is an employer and the
    company of the job is the company name the employer registered with:
    the company of the payload is not used.  The other six fields are the
    payload's, [posted_by] is the employer's email, [created_at] is the
    time of the call, and the job is added at the end of the catalog; the
    other tables and the application counter are as before. *)
Theorem post_job_stores_the_registered_company
    (EmailStr : string -> option string) (st st1 : State) (token : jwt)
    (u : User.t) (job : JobCreate.t) (now : Z) (j : Job.t) :
  reachable EmailStr st ->
  get_current_user token st = (st, Return u) ->
  post_job job u now st = (st1, Return j) ->
  User.role u = "employer"
  /\ User.company_name u = Some (Job.company j)
  /\ Job.posted_by j = User.email u
  /\ Job.created_at j = now
  /\ Job.title j = JobCreate.title job
  /\ Job.description j = JobCreate.description job
  /\ Job.location j = JobCreate.location job
  /\ Job.skills j = JobCreate.skills job
  /\ Job.salary_min j = JobCreate.salary_min job
  /\ Job.salary_max j = JobCreate.salary_max job
  /\ jobs st1 = jobs st ++ [(Job.id j, j)]
  /\ users st1 = users st
  /\ applications st1 = applications st
  /\ last_app_id st1 = last_app_id st.
Proof.
  intros Hreach Hu. apply get_current_user_Return in Hu.
  destruct Hu as (_ & email & role & _ & _ & G & _).
  destruct (registered_row_of_reachable _ _ _ _ Hreach G) as (_ & Hrow & _).
  unfold post_job. unfold_monad.
  destruct (str_ne (User.role u) "employer") eqn:E; [discriminate|].
  apply str_ne_false in E. intros [= <- <-]. simpl.
  split; [assumption|]. split.
  - destruct Hrow as [[R _]|[_ [c Hc]]]; [congruence|]. now rewrite Hc.
  - repeat (split; [reflexivity|]). split; [|repeat split].
    apply (set_absent Z.eqb).
    destruct (dict_get Z.eqb (last_job_id st + 1) (jobs st)) as [x|] eqn:Gx;
      [|reflexivity].
    apply (get_In Z.eqb Zeqb_spec) in Gx.
    apply (inv_jobs_id _ (reachable_Inv _ _ Hreach)) in Gx. lia.
Qed.

(** On the demo portal: Boss posts the frontend job with "Initech" as the
    company of the payload; the stored company is "Acme". *)
Lemma post_job_stores_the_registered_company_witness :
  exists st1 j,
    post_job (JobCreate.mk "Frontend Dev" "React" "Initech" "NYC" ["react"]
                           None None) boss_user 300 demo_state
      = (st1, Return j)
    /\ User.company_name boss_user = Some (Job.company j)
    /\ Job.company j = "Acme"
    /\ jobs st1 = jobs demo_state ++ [(Job.id j, j)].
Proof.
  destruct (post_job (JobCreate.mk "Frontend Dev" "React" "Initech" "NYC"
                                   ["react"] None None)
                     boss_user 300 demo_state) as [st1 [j|e]] eqn:P;
    [|vm_compute in P; discriminate].
  exists st1, j. split; [reflexivity|].
  assert (Hu : get_current_user boss_token demo_state
               = (demo_state, Return boss_user)) by (vm_compute; reflexivity).
  pose proof (post_job_stores_the_registered_company EmailStr_id demo_state
                st1 boss_token boss_user _ 300 j reachable_demo_state Hu P)
    as (_ & Hc & _ & _ & _ & _ & _ & _ & _ & _ & Hj & _).
  split; [exact Hc|]. split; [|exact Hj].
  simpl in Hc. now injection Hc as <-.
Defined.

(** X8.  In a reachable state, once [delete_job] has removed a job, its id
    stays out of the catalog after any run of requests: [get_job] on it is a
    404, a job seeker who applies to it gets a 404, and a review of any
    application that refers to it is a 403 for every user. *)
Theorem deleted_job_stays_gone
    (EmailStr : string -> option string) (st st1 : State) (job_id : Z)
    (u : User.t) (r : unit) (reqs : list Request) :
  reachable EmailStr st ->
  delete_job job_id u st = (st1, Return r) ->
  let st2 := fst (run EmailStr reqs st1) in
  dict_get Z.eqb job_id (jobs st2) = None
  /\ (exists e, get_job job_id st2 = (st2, Raise e) /\ NotFound e)
  /\ (forall a seeker now,
        ApplicationBase.job_id a = job_id ->
        User.role seeker = "jobseeker" ->
        ApplicationBase.seeker_email a = User.email seeker ->
        exists e, apply_for_job a seeker now st2 = (st2, Raise e)
                  /\ NotFound e)
  /\ (forall app_id a review employer,
        dict_get Z.eqb app_id (applications st2) = Some a ->
        Application.job_id a = job_id ->
        exists e,
          review_application app_id review employer st2 = (st2, Raise e)
          /\ Forbidden e).
Proof.
  intros Hreach Hdel st2.
  assert (Hgone : dict_get Z.eqb job_id (jobs st2) = None).
  { pose proof (reachable_Inv _ _ Hreach) as HI.
    pose proof (delete_job_Inv job_id u st HI) as HI1.
    revert Hdel HI1. unfold delete_job. unfold_monad.
    destruct (dict_get Z.eqb job_id (jobs st)) as [j|] eqn:G;
      [|discriminate].
    destruct (str_ne _ _); [discriminate|]. intros [= <- _] HI1.
    simpl in HI1. subst st2. apply run_job_absent; trivial.
    - simpl. apply (get_In Z.eqb Zeqb_spec) in G.
      apply (inv_jobs_id _ HI) in G. lia.
    - simpl. apply (get_del_same Z.eqb). }
  split; [exact Hgone|]. split; [|split].
  - unfold get_job. unfold_monad. rewrite Hgone.
    eexists. split; reflexivity.
  - intros a seeker now Hj Hr Hs. unfold apply_for_job.
    rewrite (proj2 (str_ne_false _ _) Hr), (proj2 (str_ne_false _ _) Hs).
    unfold_monad. rewrite Hj, Hgone. eexists. split; reflexivity.
  - intros app_id a review employer Ha Hj. unfold review_application.
    unfold_monad. rewrite Ha, Hj, Hgone. eexists. split; reflexivity.
Qed.

(** X9.  In a reachable state, a job keeps its id, its [posted_by] and its
    [created_at] for as long as it is in the catalog: whatever requests
    follow, the row found later under the same id has the same three. *)
Theorem job_identity_never_changes
    (EmailStr : string -> option string) (st : State) (k : Z) (j j' : Job.t)
    (reqs : list Request) :
  reachable EmailStr st ->
  dict_get Z.eqb k (jobs st) = Some j ->
  dict_get Z.eqb k (jobs (fst (run EmailStr reqs st))) = Some j' ->
  Job.id j' = k
  /\ Job.id j' = Job.id j
  /\ Job.posted_by j' = Job.posted_by j
  /\ Job.created_at j' = Job.created_at j.
Proof.
  intros Hreach G G'. pose proof (reachable_Inv _ _ Hreach) as HI.
  pose proof (run_job_kept EmailStr reqs st k j HI G) as H.
  rewrite G' in H. destruct H as (H1 & H2 & H3).
  apply (get_In Z.eqb Zeqb_spec) in G.
  apply (inv_jobs_id _ HI) in G. intuition congruence.
Qed.

(** On the demo portal: Boss deletes job 1 and posts another job; job 1 is
    still gone and Ann's application to it can no longer be reviewed. *)
Lemma deleted_job_stays_gone_witness :
  let st2 := fst (run EmailStr_id [POST_jobs boss_token frontend_job 300]
                      (set_jobs [] demo_state)) in
  dict_get Z.eqb 1 (jobs st2) = None
  /\ exists e,
       review_application 1 (ApplicationReview.mk "accepted") boss_user st2
         = (st2, Raise e)
       /\ Forbidden e.
Proof.
  assert (Hdel : delete_job 1 boss_user demo_state
                 = (set_jobs [] demo_state, Return tt))
    by (vm_compute; reflexivity).
  destruct (deleted_job_stays_gone EmailStr_id demo_state _ 1 boss_user tt
              [POST_jobs boss_token frontend_job 300]
              reachable_demo_state Hdel) as (H1 & _ & _ & H4).
  split; [exact H1|].
  apply (H4 1 demo_application); reflexivity.
Defined.

(** On the demo portal: after Boss's update, job 1 is still his, with the
    creation time it had. *)
Lemma job_identity_never_changes_witness :
  Job.id demo_updated = 1
  /\ Job.id demo_updated = Job.id demo_job
  /\ Job.posted_by demo_updated = Job.posted_by demo_job
  /\ Job.created_at demo_updated = Job.created_at demo_job.
Proof.
  apply (job_identity_never_changes EmailStr_id demo_state 1 demo_job
           demo_updated [PUT_jobs boss_token 1 frontend_job]
           reachable_demo_state); reflexivity.
Defined.

(** ** The application ledger over time *)

(** What a request can do to the ledger: nothing, add an application of a
    resolved job seeker to a job of the catalog under the next id, or write
    a status over. *)
Lemma handle_apps_effect EmailStr req st :
  Inv st ->
  let st' := fst (handle EmailStr req st) in
  applications st' = applications st
  \/ (exists a u,
        Resolved st u /\ User.role u = "jobseeker"
        /\ Application.seeker_email a = User.email u
        /\ (exists j, dict_get Z.eqb (Application.job_id a) (jobs st) = Some j)
        /\ ~ AlreadyApplied st (Application.job_id a)
                            (Application.seeker_email a)
        /\ Application.id a = last_app_id st + 1
        /\ Application.status a = "pending"
        /\ applications st'
           = dict_set Z.eqb (last_app_id st + 1) a (applications st))
  \/ (exists id a0 s,
        dict_get Z.eqb id (applications st) = Some a0
        /\ applications st'
           = dict_set Z.eqb id (Application.set_status s a0)
                      (applications st)).
Proof.
  cbv zeta. revert req st.
  apply (handle_cases EmailStr
           (fun req st r =>
              Inv st ->
              applications (fst r) = applications st
              \/ (exists a u,
                    Resolved st u /\ User.role u = "jobseeker"
                    /\ Application.seeker_email a = User.email u
                    /\ (exists j, dict_get Z.eqb (Application.job_id a)
                                           (jobs st) = Some j)
                    /\ ~ AlreadyApplied st (Application.job_id a)
                                        (Application.seeker_email a)
                    /\ Application.id a = last_app_id st + 1
                    /\ Application.status a = "pending"
                    /\ applications (fst r)
                       = dict_set Z.eqb (last_app_id st + 1) a
                                  (applications st))
              \/ (exists id a0 s,
                    dict_get Z.eqb id (applications st) = Some a0
                    /\ applications (fst r)
                       = dict_set Z.eqb id (Application.set_status s a0)
                                  (applications st))));
    intros; rewrite ?fmap_state; auto.
  - crunch_handler; auto.
  - crunch_handler; auto.
  - crunch_handler; auto.
  - crunch_handler; auto.
  - crunch_handler; auto.
  - destruct (get_current_user_resolved _ _ _ _ H1 H) as (Hres & _).
    unfold apply_for_job.
    destruct (str_ne (User.role u) "jobseeker") eqn:R; [now left|].
    destruct (str_ne (ApplicationBase.seeker_email a) (User.email u)) eqn:S;
      [now left|].
    unfold_monad.
    destruct (dict_get Z.eqb (ApplicationBase.job_id a) (jobs st))
      as [j|] eqn:G; [|now left].
    rewrite apply_scan_run.
    destruct (existsb _ _) eqn:X; [now left|].
    right. left. apply str_ne_false in R.
    apply not_AlreadyApplied_scan in X.
    eexists. exists u. simpl.
    repeat split; try reflexivity; trivial.
    now exists j.
  - crunch_handler; auto. right. right. eauto.
Qed.

Lemma handle_AppsInv EmailStr req st :
  Inv st -> AppsInv st -> AppsInv (fst (handle EmailStr req st)).
Proof.
  intros HI HA.
  assert (Hseek : forall a,
             (exists u, dict_get String.eqb (Application.seeker_email a)
                                 (users st) = Some u
                        /\ User.role u = "jobseeker") ->
             exists u, dict_get String.eqb (Application.seeker_email a)
                         (users (fst (handle EmailStr req st))) = Some u
                       /\ User.role u = "jobseeker").
  { intros a (u & G & R). exists u. split; [|assumption].
    now apply handle_users_kept. }
  destruct (handle_ids EmailStr req st) as (Hmono & _).
  destruct (handle_apps_effect EmailStr req st HI)
    as [E|[(a & u & Hres & Hrole & Hmail & (j & Hj) & Hnot & Hid & _ & E)
          |(id & a0 & s & G0 & E)]];
    constructor; rewrite E.
  - intros k x Hin. apply Hseek. eapply ainv_seeker; eassumption.
  - intros k x Hin. apply (ainv_job _ HA) in Hin. lia.
  - apply (ainv_unique _ HA).
  - intros k x Hin.
    apply (In_set_nodup Z.eqb Zeqb_spec) in Hin; [|apply (inv_apps_nodup _ HI)].
    destruct Hin as [[= -> ->]|[Hin _]].
    + apply Hseek. exists u. rewrite Hmail. split; assumption.
    + apply Hseek. eapply ainv_seeker; eassumption.
  - intros k x Hin.
    apply (In_set_nodup Z.eqb Zeqb_spec) in Hin; [|apply (inv_apps_nodup _ HI)].
    destruct Hin as [[= -> ->]|[Hin _]].
    + apply (get_In Z.eqb Zeqb_spec) in Hj.
      apply (inv_jobs_id _ HI) in Hj. lia.
    + apply (ainv_job _ HA) in Hin. lia.
  - intros k1 a1 k2 a2 H1 H2 Ej Es.
    apply (In_set_nodup Z.eqb Zeqb_spec) in H1; [|apply (inv_apps_nodup _ HI)].
    apply (In_set_nodup Z.eqb Zeqb_spec) in H2; [|apply (inv_apps_nodup _ HI)].
    destruct H1 as [[= -> ->]|[H1 _]], H2 as [[= -> ->]|[H2 _]];
      trivial.
    + exfalso. apply Hnot. exists a2.
      split; [apply values_In; now exists k2|]. split; congruence.
    + exfalso. apply Hnot. exists a1.
      split; [apply values_In; now exists k1|]. split; congruence.
    + eapply (ainv_unique _ HA); eassumption.
  - intros k x Hin.
    apply (In_set_nodup Z.eqb Zeqb_spec) in Hin; [|apply (inv_apps_nodup _ HI)].
    apply (get_In Z.eqb Zeqb_spec) in G0.
    destruct Hin as [[= -> ->]|[Hin _]]; apply Hseek.
    + simpl. eapply ainv_seeker; eassumption.
    + eapply ainv_seeker; eassumption.
  - intros k x Hin.
    apply (In_set_nodup Z.eqb Zeqb_spec) in Hin; [|apply (inv_apps_nodup _ HI)].
    apply (get_In Z.eqb Zeqb_spec) in G0.
    destruct Hin as [[= -> ->]|[Hin _]].
    + simpl. apply (ainv_job _ HA) in G0. lia.
    + apply (ainv_job _ HA) in Hin. lia.
  - intros k1 a1 k2 a2 H1 H2 Ej Es.
    apply (In_set_nodup Z.eqb Zeqb_spec) in H1; [|apply (inv_apps_nodup _ HI)].
    apply (In_set_nodup Z.eqb Zeqb_spec) in H2; [|apply (inv_apps_nodup _ HI)].
    apply (get_In Z.eqb Zeqb_spec) in G0.
    destruct H1 as [[= -> ->]|[H1 N1]], H2 as [[= -> ->]|[H2 N2]];
      trivial; simpl in *.
    + eapply (ainv_unique _ HA); eassumption.
    + eapply (ainv_unique _ HA); eassumption.
    + eapply (ainv_unique _ HA); eassumption.
Qed.

Lemma AppsInv_initial : AppsInv initial_state.
Proof. constructor; simpl; intros; contradiction. Qed.

Lemma reachable_AppsInv EmailStr st : reachable EmailStr st -> AppsInv st.
Proof.
  induction 1 as [|st req Hr IH]; [apply AppsInv_initial|].
  apply handle_AppsInv; [now apply reachable_Inv with EmailStr|assumption].
Qed.

Lemma same_application_refl a : same_application a a.
Proof. repeat split. Qed.

Lemma same_application_trans a1 a2 a3 :
  same_application a1 a2 -> same_application a2 a3 ->
  same_application a1 a3.
Proof. unfold same_application. intuition congruence. Qed.

Lemma handle_app_kept EmailStr req st k a :
  Inv st ->
  dict_get Z.eqb k (applications st) = Some a ->
  exists a',
    dict_get Z.eqb k (applications (fst (handle EmailStr req st))) = Some a'
    /\ same_application a a'.
Proof.
  intros HI G.
  destruct (handle_apps_effect EmailStr req st HI)
    as [E|[(x & u & _ & _ & _ & _ & _ & _ & _ & E)|(id & a0 & s & G0 & E)]];
    rewrite E.
  - exists a. split; [exact G|apply same_application_refl].
  - exists a. split; [|apply same_application_refl].
    rewrite (get_set_other Z.eqb Zeqb_spec); [exact G|].
    apply (get_In Z.eqb Zeqb_spec) in G. apply (inv_apps_id _ HI) in G. lia.
  - destruct (Z.eq_dec k id) as [->|Hn].
    + rewrite (get_set_same Z.eqb Zeqb_spec).
      assert (a0 = a) by congruence. subst a0.
      eexists. split; [reflexivity|repeat split].
    + rewrite (get_set_other Z.eqb Zeqb_spec); [|assumption].
      exists a. split; [exact G|apply same_application_refl].
Qed.

Lemma run_app_kept EmailStr reqs : forall st k a,
  Inv st ->
  dict_get Z.eqb k (applications st) = Some a ->
  exists a',
    dict_get Z.eqb k (applications (fst (run EmailStr reqs st))) = Some a'
    /\ same_application a a'.
Proof.
  induction reqs as [|req rest IH]; intros st k a HI G.
  - exists a. split; [exact G|apply same_application_refl].
  - rewrite run_cons. simpl.
    destruct (handle_app_kept EmailStr req st k a HI G) as (a1 & G1 & S1).
    destruct (IH _ k a1 (handle_Inv EmailStr req st HI) G1)
      as (a2 & G2 & S2).
    exists a2. split; [exact G2|]. eapply same_application_trans; eassumption.
Qed.

(** X10.  In every reachable state an application is stored under its own
    id, was sent by a registered job seeker, refers to a job id that has
    been handed out, and is the only application of that seeker to that
    job. *)
Theorem applications_are_well_formed
    (EmailStr : string -> option string) (st : State) (k : Z)
    (a : Application.t) :
  reachable EmailStr st ->
  dict_get Z.eqb k (applications st) = Some a ->
  Application.id a = k
  /\ 1 <= k <= last_app_id st
  /\ (exists u, dict_get String.eqb (Application.seeker_email a) (users st)
                = Some u
                /\ User.role u = "jobseeker")
  /\ 1 <= Application.job_id a <= last_job_id st
  /\ (forall k2 a2,
        dict_get Z.eqb k2 (applications st) = Some a2 ->
        Application.job_id a2 = Application.job_id a ->
        Application.seeker_email a2 = Application.seeker_email a ->
        k2 = k).
Proof.
  intros Hreach G. pose proof (reachable_Inv _ _ Hreach) as HI.
  pose proof (reachable_AppsInv _ _ Hreach) as HA.
  apply (get_In Z.eqb Zeqb_spec) in G.
  destruct (inv_apps_id _ HI _ _ G) as [H1 H2].
  split; [exact H1|]. split; [exact H2|].
  split; [eapply ainv_seeker; eassumption|].
  split; [eapply ainv_job; eassumption|].
  intros k2 a2 G2 Ej Es. apply (get_In Z.eqb Zeqb_spec) in G2.
  eapply (ainv_unique _ HA); eassumption.
Qed.

(** On the demo portal: Ann's application. *)
Lemma applications_are_well_formed_witness :
  Application.id demo_application = 1
  /\ 1 <= Application.job_id demo_application <= last_job_id demo_state
  /\ exists u, dict_get String.eqb "ann@mail.io" (users demo_state) = Some u
               /\ User.role u = "jobseeker".
Proof.
  destruct (applications_are_well_formed EmailStr_id demo_state 1
              demo_application reachable_demo_state eq_refl)
    as (H1 & _ & H3 & H4 & _).
  split; [exact H1|]. split; [exact H4|exact H3].
Defined.

(** X11.  No request removes an application, and the only thing a request
    changes in one is its status: in a reachable state, an application
    found under an id is found under that id after any run of requests, with
    the same id, job, seeker, cover letter and time of application. *)
Theorem applications_are_permanent
    (EmailStr : string -> option string) (st : State) (k : Z)
    (a : Application.t) (reqs : list Request) :
  reachable EmailStr st ->
  dict_get Z.eqb k (applications st) = Some a ->
  exists a',
    dict_get Z.eqb k (applications (fst (run EmailStr reqs st))) = Some a'
    /\ Application.id a' = Application.id a
    /\ Application.job_id a' = Application.job_id a
    /\ Application.seeker_email a' = Application.seeker_email a
    /\ Application.cover_letter a' = Application.cover_letter a
    /\ Application.applied_at a' = Application.applied_at a.
Proof.
  intros Hreach G.
  exact (run_app_kept EmailStr reqs st k a (reachable_Inv _ _ Hreach) G).
Qed.

(** On the demo portal: Boss deletes the job and then tries to review;
    Ann's application is still there, as it was. *)
Lemma applications_are_permanent_witness :
  exists a',
    dict_get Z.eqb 1
      (applications
         (fst (run EmailStr_id
                   [DELETE_jobs boss_token 1;
                    PUT_applications_review boss_token 1 "accepted"]
                   demo_state))) = Some a'
    /\ Application.job_id a' = 1
    /\ Application.seeker_email a' = "ann@mail.io".
Proof.
  destruct (applications_are_permanent EmailStr_id demo_state 1
              demo_application
              [DELETE_jobs boss_token 1;
               PUT_applications_review boss_token 1 "accepted"]
              reachable_demo_state eq_refl)
    as (a' & G & _ & Hj & Hs & _).
  exists a'. split; [exact G|]. split; [exact Hj|exact Hs].
Defined.

(** X12.  In a reachable state, once [apply_for_job] has returned an
    application, the same job seeker never gets a second one for that job:
    after any run of requests, applying again as oneself to the same job is
    a 400 "Already applied to this job" while the job is in the catalog and
    a 404 once it is not, and nothing is written. *)
Theorem second_application_is_refused
    (EmailStr : string -> option string) (st st1 : State)
    (a a' : ApplicationBase.t) (u : User.t) (now now' : Z)
    (x : Application.t) (reqs : list Request) :
  reachable EmailStr st ->
  apply_for_job a u now st = (st1, Return x) ->
  ApplicationBase.job_id a' = ApplicationBase.job_id a ->
  ApplicationBase.seeker_email a' = User.email u ->
  let st2 := fst (run EmailStr reqs st1) in
  exists e,
    apply_for_job a' u now' st2 = (st2, Raise e)
    /\ if dict_mem Z.eqb (ApplicationBase.job_id a) (jobs st2)
       then DuplicateApplication e
       else NotFound e.
Proof.
  intros Hreach Happ Hj Hs st2.
  pose proof (reachable_Inv _ _ Hreach) as HI.
  pose proof (apply_for_job_Inv a u now st HI) as HI1.
  rewrite Happ in HI1. simpl in HI1.
  assert (Hrole : User.role u = "jobseeker"
                  /\ dict_get Z.eqb (last_app_id st + 1) (applications st1)
                     = Some x
                  /\ Application.job_id x = ApplicationBase.job_id a
                  /\ Application.seeker_email x = User.email u).
  { revert Happ. unfold apply_for_job.
    destruct (str_ne (User.role u) "jobseeker") eqn:R; [discriminate|].
    destruct (str_ne _ (User.email u)); [discriminate|]. unfold_monad.
    destruct (dict_get Z.eqb _ (jobs st)); [|discriminate].
    rewrite apply_scan_run. destruct (existsb _ _); [discriminate|].
    intros [= <- <-]. simpl. apply str_ne_false in R.
    split; [exact R|]. split; [|now split].
    apply (get_set_same Z.eqb Zeqb_spec). }
  destruct Hrole as (Hrole & Gx & Hxj & Hxs).
  destruct (run_app_kept EmailStr reqs st1 _ x HI1 Gx)
    as (x' & Gx' & _ & Hj' & Hs' & _).
  fold st2 in Gx'.
  assert (Hdup : AlreadyApplied st2 (ApplicationBase.job_id a) (User.email u)).
  { exists x'. split; [|split; congruence].
    apply values_In. exists (last_app_id st + 1).
    now apply (get_In Z.eqb Zeqb_spec). }
  unfold apply_for_job, dict_mem.
  rewrite (proj2 (str_ne_false _ _) Hrole), (proj2 (str_ne_false _ _) Hs).
  unfold_monad. rewrite Hj.
  destruct (dict_get Z.eqb (ApplicationBase.job_id a) (jobs st2)).
  - rewrite apply_scan_run. apply AlreadyApplied_scan in Hdup.
    rewrite Hdup. eexists. split; reflexivity.
  - eexists. split; reflexivity.
Qed.

(** On the demo portal: Ann applied to job 1 from the state before; after
    Boss has updated the job she is still turned down with 400. *)
Lemma second_application_is_refused_witness :
  let st2 := fst (run EmailStr_id [PUT_jobs boss_token 1 frontend_job]
                      demo_state) in
  exists e,
    apply_for_job (ApplicationBase.mk 1 "ann@mail.io" None) ann_user 400 st2
      = (st2, Raise e)
    /\ DuplicateApplication e.
Proof.
  assert (Hr : reachable EmailStr_id demo_state_before_apply).
  { apply reachable_run. constructor. }
  assert (Ha : apply_for_job ann_applies ann_user 200 demo_state_before_apply
               = (demo_state, Return demo_application))
    by (vm_compute; reflexivity).
  exact (second_application_is_refused EmailStr_id demo_state_before_apply
           demo_state ann_applies (ApplicationBase.mk 1 "ann@mail.io" None)
           ann_user 200 400 demo_application
           [PUT_jobs boss_token 1 frontend_job] Hr Ha eq_refl eq_refl).
Defined.

(** ** Reviews *)

Lemma dict_set_set {K V} (eqb : K -> K -> bool)
    (eqb_spec : forall a b, eqb a b = true <-> a = b)
    (k : K) (v1 v2 : V) (d : list (K * V)) :
  dict_set eqb k v2 (dict_set eqb k v1 d) = dict_set eqb k v2 d.
Proof.
  induction d as [|[k' v'] r IH]; simpl.
  - now rewrite (proj2 (eqb_spec k k) eq_refl).
  - destruct (eqb k k') eqn:E; simpl.
    + now rewrite (proj2 (eqb_spec k k) eq_refl).
    + now rewrite E, IH.
Qed.

(** X13.  A [review_application] that returns has changed one thing: the
    status of the application under that id, which is now the status of the
    review.  The other fields of the application, the other applications,
    the order of the ledger, the other tables and the counters are as
    before.  A further review by the same user then gives what it would have
    given without the first: the last status wins, whatever came before. *)
Theorem review_changes_only_the_status
    (app_id : Z) (review : ApplicationReview.t) (u : User.t)
    (st st1 : State) (a' : Application.t) :
  review_application app_id review u st = (st1, Return a') ->
  exists a,
    dict_get Z.eqb app_id (applications st) = Some a
    /\ dict_get Z.eqb app_id (applications st1) = Some a'
    /\ Application.status a' = ApplicationReview.status review
    /\ Application.id a' = Application.id a
    /\ Application.job_id a' = Application.job_id a
    /\ Application.seeker_email a' = Application.seeker_email a
    /\ Application.cover_letter a' = Application.cover_letter a
    /\ Application.applied_at a' = Application.applied_at a
    /\ (forall k, k <> app_id ->
          dict_get Z.eqb k (applications st1)
          = dict_get Z.eqb k (applications st))
    /\ dict_keys (applications st1) = dict_keys (applications st)
    /\ jobs st1 = jobs st
    /\ users st1 = users st
    /\ last_job_id st1 = last_job_id st
    /\ last_app_id st1 = last_app_id st
    /\ (forall review2,
          review_application app_id review2 u st1
          = review_application app_id review2 u st).
Proof.
  unfold review_application. unfold_monad.
  destruct (dict_get Z.eqb app_id (applications st)) as [a|] eqn:G;
    [|discriminate].
  destruct (dict_get Z.eqb (Application.job_id a) (jobs st)) as [j|] eqn:Gj;
    [|discriminate].
  destruct (str_ne (Job.posted_by j) (User.email u)) eqn:N; [discriminate|].
  intros [= <- <-]. exists a. simpl.
  split; [reflexivity|].
  split; [apply (get_set_same Z.eqb Zeqb_spec)|].
  repeat (split; [reflexivity|]).
  split; [intros k Hk; now apply (get_set_other Z.eqb Zeqb_spec)|].
  split; [now apply (keys_set_present Z.eqb Zeqb_spec _ _ a)|].
  repeat (split; [reflexivity|]).
  intros review2. rewrite (get_set_same Z.eqb Zeqb_spec). simpl.
  rewrite Gj, N. unfold set_applications. simpl.
  now rewrite (dict_set_set Z.eqb Zeqb_spec).
Qed.

(** On the demo portal: Boss rejects Ann's application and then accepts
    it; the ledger ends as if he had accepted it at once. *)
Lemma review_changes_only_the_status_witness :
  exists st1 a1,
    review_application 1 (ApplicationReview.mk "rejected") boss_user
                       demo_state = (st1, Return a1)
    /\ Application.status a1 = "rejected"
    /\ review_application 1 (ApplicationReview.mk "accepted") boss_user st1
       = review_application 1 (ApplicationReview.mk "accepted") boss_user
                            demo_state.
Proof.
  destruct (review_application 1 (ApplicationReview.mk "rejected") boss_user
                               demo_state) as [st1 [a1|e]] eqn:R;
    [|vm_compute in R; discriminate].
  exists st1, a1. split; [reflexivity|].
  destruct (review_changes_only_the_status _ _ _ _ _ _ R)
    as (a & _ & _ & Hs & _ & _ & _ & _ & _ & _ & _ & _ & _ & _ & _ & H2).
  split; [exact Hs|apply H2].
Defined.

Lemma In_values_get {V} (id : V -> Z) (d : @dict Z V) (x : V) :
  NoDup (dict_keys d) ->
  (forall k v, In (k, v) d -> id v = k) ->
  In x (dict_values d) <-> dict_get Z.eqb (id x) d = Some x.
Proof.
  intros Hnd Hid. rewrite values_In. split.
  - intros (k & Hin). pose proof (Hid _ _ Hin) as E. rewrite E.
    now apply (In_get Z.eqb Zeqb_spec).
  - intros G. exists (id x). now apply (get_In Z.eqb Zeqb_spec).
Qed.

(** X14.  In a reachable state, after a [review_application] that
    returned, the reviewed application shows with its new status, and is the
    only entry with its id, both in what [applications_for_job] gives the
    employer for that job and in what [my_applications] gives the job seeker
    who sent it. *)
Theorem review_is_visible
    (EmailStr : string -> option string) (app_id : Z)
    (review : ApplicationReview.t) (u : User.t) (st st1 : State)
    (a' : Application.t) :
  reachable EmailStr st ->
  review_application app_id review u st = (st1, Return a') ->
  Application.status a' = ApplicationReview.status review
  /\ (exists l,
        applications_for_job (Application.job_id a') u st1 = (st1, Return l)
        /\ In a' l
        /\ forall x, In x l -> Application.id x = app_id -> x = a')
  /\ (forall seeker,
        User.role seeker = "jobseeker" ->
        User.email seeker = Application.seeker_email a' ->
        exists l,
          my_applications seeker st1 = (st1, Return l)
          /\ In a' l
          /\ forall x, In x l -> Application.id x = app_id -> x = a').
Proof.
  intros Hreach Hrev. pose proof (reachable_Inv _ _ Hreach) as HI.
  pose proof (review_application_Inv app_id review u st HI) as HI1.
  rewrite Hrev in HI1. simpl in HI1.
  assert (Hone : forall x, In x (dict_values (applications st1)) ->
                           Application.id x = app_id ->
                           dict_get Z.eqb app_id (applications st1) = Some x).
  { intros x Hx <-.
    apply (In_values_get Application.id); trivial.
    - apply (inv_apps_nodup _ HI1).
    - intros k v Hin. now apply (inv_apps_id _ HI1). }
  revert Hrev Hone. unfold review_application. unfold_monad.
  destruct (dict_get Z.eqb app_id (applications st)) as [a|] eqn:G;
    [|discriminate].
  destruct (dict_get Z.eqb (Application.job_id a) (jobs st)) as [j|] eqn:Gj;
    [|discriminate].
  destruct (str_ne (Job.posted_by j) (User.email u)) eqn:N; [discriminate|].
  intros [= <- <-] Hone. simpl in *.
  assert (Ga : dict_get Z.eqb app_id
                 (dict_set Z.eqb app_id
                    (Application.set_status (ApplicationReview.status review) a)
                    (applications st))
               = Some (Application.set_status
                         (ApplicationReview.status review) a))
    by apply (get_set_same Z.eqb Zeqb_spec).
  assert (Hin : In (Application.set_status (ApplicationReview.status review) a)
                   (dict_values
                      (dict_set Z.eqb app_id
                         (Application.set_status
                            (ApplicationReview.status review) a)
                         (applications st)))).
  { apply values_In. exists app_id. now apply (get_In Z.eqb Zeqb_spec). }
  split; [reflexivity|]. split.
  - unfold applications_for_job. unfold_monad. simpl. rewrite Gj, N.
    eexists. split; [reflexivity|]. split.
    + apply filter_In. split; [exact Hin|]. simpl. apply Z.eqb_refl.
    + intros x Hx Hid. apply filter_In in Hx. destruct Hx as [Hx _].
      specialize (Hone x Hx Hid). congruence.
  - intros seeker Hr He. unfold my_applications.
    rewrite (proj2 (str_ne_false _ _) Hr). unfold_monad. simpl.
    eexists. split; [reflexivity|]. split.
    + apply filter_In. split; [exact Hin|]. simpl. rewrite He.
      apply String.eqb_refl.
    + intros x Hx Hid. apply filter_In in Hx. destruct Hx as [Hx _].
      specialize (Hone x Hx Hid). congruence.
Qed.

(** On the demo portal: Boss accepts Ann's application; both of them see
    it accepted. *)
Lemma review_is_visible_witness :
  let accepted := Application.set_status "accepted" demo_application in
  let st1 := set_applications [(1, accepted)] demo_state in
  (exists l, applications_for_job 1 boss_user st1 = (st1, Return l)
             /\ In accepted l)
  /\ (exists l, my_applications ann_user st1 = (st1, Return l)
                /\ In accepted l).
Proof.
  intros accepted st1.
  assert (Hrev : review_application 1 (ApplicationReview.mk "accepted")
                   boss_user demo_state = (st1, Return accepted))
    by (vm_compute; reflexivity).
  destruct (review_is_visible EmailStr_id 1 _ boss_user demo_state st1
              accepted reachable_demo_state Hrev)
    as (_ & (l & H1 & H2 & _) & H3).
  split; [exists l; split; assumption|].
  destruct (H3 ann_user eq_refl eq_refl) as (l' & H4 & H5 & _).
  exists l'. split; assumption.
Defined.

(** ** Listings and dashboards *)

Lemma NoDup_map_filter_values {V} (f : V -> Z) (p : V -> bool)
    (d : @dict Z V) :
  NoDup (dict_keys d) ->
  (forall k1 a1 k2 a2,
      In (k1, a1) d -> In (k2, a2) d ->
      p a1 = true -> p a2 = true -> f a1 = f a2 -> k1 = k2) ->
  NoDup (map f (filter p (dict_values d))).
Proof.
  induction d as [|[k a] r IH]; simpl; intros Hnd Hinj; [constructor|].
  inversion Hnd as [|? ? Hni Hnd']; subst.
  assert (IH' : NoDup (map f (filter p (dict_values r)))).
  { apply IH; [assumption|]. intros k1 a1 k2 a2 H1 H2.
    apply Hinj; now right. }
  destruct (p a) eqn:Pa; [|exact IH']. simpl. constructor; [|exact IH'].
  intros Hin. apply in_map_iff in Hin. destruct Hin as (a2 & Ef & Hin).
  apply filter_In in Hin. destruct Hin as [Hin P2].
  apply values_In in Hin. destruct Hin as (k2 & Hin).
  assert (k = k2).
  { apply (Hinj k a k2 a2); simpl; auto. }
  subst k2. apply Hni. unfold dict_keys.
  change k with (fst (k, a2)). now apply in_map.
Qed.

(** X15.  In a reachable state, what [my_applications] returns to a job
    seeker is exactly the stored applications that carry the seeker's email;
    no two of them are for the same job, and no two have the same id.
    Nothing is written. *)
Theorem my_applications_lists_each_job_once
    (EmailStr : string -> option string) (st : State) (u : User.t) :
  reachable EmailStr st ->
  User.role u = "jobseeker" ->
  exists l,
    my_applications u st = (st, Return l)
    /\ (forall a,
          In a l <->
          dict_get Z.eqb (Application.id a) (applications st) = Some a
          /\ Application.seeker_email a = User.email u)
    /\ NoDup (map Application.job_id l)
    /\ NoDup (map Application.id l).
Proof.
  intros Hreach Hr. pose proof (reachable_Inv _ _ Hreach) as HI.
  pose proof (reachable_AppsInv _ _ Hreach) as HA.
  unfold my_applications. rewrite (proj2 (str_ne_false _ _) Hr).
  unfold_monad. eexists. split; [reflexivity|]. split; [|split].
  - intros a. rewrite filter_In, String.eqb_eq.
    rewrite (In_values_get Application.id); [reflexivity| |].
    + apply (inv_apps_nodup _ HI).
    + intros k v Hin. now apply (inv_apps_id _ HI).
  - apply NoDup_map_filter_values; [apply (inv_apps_nodup _ HI)|].
    intros k1 a1 k2 a2 H1 H2 P1 P2 E.
    apply String.eqb_eq in P1, P2.
    apply (ainv_unique _ HA k1 a1 k2 a2); congruence.
  - apply NoDup_map_filter_values; [apply (inv_apps_nodup _ HI)|].
    intros k1 a1 k2 a2 H1 H2 _ _ E.
    apply (inv_apps_id _ HI) in H1, H2. intuition congruence.
Qed.

(** On the demo portal: Ann has one application. *)
Lemma my_applications_lists_each_job_once_witness :
  exists l,
    my_applications ann_user demo_state = (demo_state, Return l)
    /\ In demo_application l
    /\ NoDup (map Application.job_id l).
Proof.
  destruct (my_applications_lists_each_job_once EmailStr_id demo_state
              ann_user reachable_demo_state eq_refl)
    as (l & H1 & H2 & H3 & _).
  exists l. split; [exact H1|]. split; [|exact H3].
  apply H2. split; reflexivity.
Defined.

(** X16.  In a reachable state, the dashboard of an employer holds exactly
    the jobs of the catalog that the employer posted and exactly the stored
    applications whose job is one of those; the two counts are the lengths
    of the two lists.  An application whose job has been deleted is in no
    employer's dashboard.  Nothing is written. *)
Theorem employer_dashboard_contents
    (EmailStr : string -> option string) (st : State) (u : User.t) :
  reachable EmailStr st ->
  User.role u = "employer" ->
  exists d,
    employer_dashboard u st = (st, Return d)
    /\ EmployerDashboard.user d
       = UserBase.mk (User.email u) (User.name u) "employer"
    /\ EmployerDashboard.num_jobs_posted d
       = List.length (EmployerDashboard.jobs d)
    /\ EmployerDashboard.num_applications d
       = List.length (EmployerDashboard.applications d)
    /\ (forall j,
          In j (EmployerDashboard.jobs d) <->
          dict_get Z.eqb (Job.id j) (jobs st) = Some j
          /\ Job.posted_by j = User.email u)
    /\ (forall a,
          In a (EmployerDashboard.applications d) <->
          dict_get Z.eqb (Application.id a) (applications st) = Some a
          /\ exists j,
               dict_get Z.eqb (Application.job_id a) (jobs st) = Some j
               /\ Job.posted_by j = User.email u).
Proof.
  intros Hreach Hr. pose proof (reachable_Inv _ _ Hreach) as HI.
  unfold employer_dashboard. rewrite (proj2 (str_ne_false _ _) Hr).
  unfold_monad. eexists. split; [reflexivity|]. simpl.
  assert (Hjobs : forall j,
             In j (filter (fun job => String.eqb (Job.posted_by job)
                                                 (User.email u))
                          (dict_values (jobs st))) <->
             dict_get Z.eqb (Job.id j) (jobs st) = Some j
             /\ Job.posted_by j = User.email u).
  { intros j. rewrite filter_In, String.eqb_eq.
    rewrite (In_values_get Job.id); [reflexivity| |].
    - apply (inv_jobs_nodup _ HI).
    - intros k v Hin. now apply (inv_jobs_id _ HI). }
  repeat (split; [reflexivity|]). split; [exact Hjobs|].
  intros a. rewrite filter_In, existsb_exists.
  rewrite (In_values_get Application.id);
    [| apply (inv_apps_nodup _ HI)
     | intros k v Hin; now apply (inv_apps_id _ HI)].
  split; intros [Ha Hj]; split; trivial.
  - destruct Hj as (i & Hi & E). apply Z.eqb_eq in E.
    apply in_map_iff in Hi. destruct Hi as (j & <- & Hin).
    apply Hjobs in Hin. exists j. now rewrite E.
  - destruct Hj as (j & Gj & Hp).
    exists (Job.id j).
    assert (Ej : Job.id j = Application.job_id a).
    { apply (get_In Z.eqb Zeqb_spec) in Gj.
      now apply (inv_jobs_id _ HI) in Gj. }
    split; [|rewrite Ej; apply Z.eqb_refl].
    apply in_map. apply Hjobs. rewrite Ej. now split.
Qed.

(** On the demo portal: Boss sees his job and Ann's application. *)
Lemma employer_dashboard_contents_witness :
  exists d,
    employer_dashboard boss_user demo_state = (demo_state, Return d)
    /\ In demo_job (EmployerDashboard.jobs d)
    /\ In demo_application (EmployerDashboard.applications d).
Proof.
  destruct (employer_dashboard_contents EmailStr_id demo_state boss_user
              reachable_demo_state eq_refl)
    as (d & H1 & _ & _ & _ & Hj & Ha).
  exists d. split; [exact H1|]. split.
  - apply Hj. split; reflexivity.
  - apply Ha. split; [reflexivity|]. exists demo_job. split; reflexivity.
Defined.

Lemma jobs_of_ids_full table ids :
  (forall i, In i ids -> dict_get Z.eqb i table <> None) ->
  List.length (jobs_of_ids table ids) = List.length ids.
Proof.
  induction ids as [|i rest IH]; simpl; intros H; [reflexivity|].
  rewrite length_app. fold (jobs_of_ids table rest).
  rewrite IH; [|intros; apply H; now right].
  destruct (dict_get Z.eqb i table) eqn:G; [reflexivity|].
  exfalso. apply (H i); [now left|exact G].
Qed.

(** X17.  The dashboard of a job seeker lists exactly the stored
    applications that carry the seeker's email and counts them.  Each
    entry of [applied_jobs] is the row the catalog holds for the job of one
    of those applications, so [applied_jobs] is never longer than the list
    of applications, and it has the same length when every one of those jobs
    is still in the catalog.  Nothing is written. *)
Theorem jobseeker_dashboard_join (st : State) (u : User.t) :
  User.role u = "jobseeker" ->
  exists d,
    jobseeker_dashboard u st = (st, Return d)
    /\ JobseekerDashboard.user d
       = UserBase.mk (User.email u) (User.name u) "jobseeker"
    /\ JobseekerDashboard.num_applications d
       = List.length (JobseekerDashboard.applications d)
    /\ (forall a,
          In a (JobseekerDashboard.applications d) <->
          In a (dict_values (applications st))
          /\ Application.seeker_email a = User.email u)
    /\ (forall j,
          In j (JobseekerDashboard.applied_jobs d) ->
          exists a,
            In a (JobseekerDashboard.applications d)
            /\ dict_get Z.eqb (Application.job_id a) (jobs st) = Some j)
    /\ (List.length (JobseekerDashboard.applied_jobs d)
        <= JobseekerDashboard.num_applications d)%nat
    /\ ((forall a, In a (JobseekerDashboard.applications d) ->
                   dict_get Z.eqb (Application.job_id a) (jobs st) <> None) ->
        List.length (JobseekerDashboard.applied_jobs d)
        = JobseekerDashboard.num_applications d).
Proof.
  intros Hr. unfold jobseeker_dashboard.
  rewrite (proj2 (str_ne_false _ _) Hr). unfold_monad.
  eexists. split; [reflexivity|]. simpl.
  repeat (split; [reflexivity|]).
  split; [intros a; now rewrite filter_In, String.eqb_eq|].
  split; [|split].
  - intros j Hj. apply jobs_of_ids_In in Hj. destruct Hj as (i & Hi & G).
    apply in_map_iff in Hi. destruct Hi as (a & <- & Ha). now exists a.
  - rewrite <- (length_map Application.job_id (filter _ _)).
    apply jobs_of_ids_length.
  - intros H. rewrite <- (length_map Application.job_id (filter _ _)).
    apply jobs_of_ids_full. intros i Hi.
    apply in_map_iff in Hi. destruct Hi as (a & <- & Ha). now apply H.
Qed.

(** On the demo portal: Ann's dashboard has one application and its job. *)
Lemma jobseeker_dashboard_join_witness :
  exists d,
    jobseeker_dashboard ann_user demo_state = (demo_state, Return d)
    /\ JobseekerDashboard.num_applications d = 1%nat
    /\ List.length (JobseekerDashboard.applied_jobs d) = 1%nat.
Proof.
  destruct (jobseeker_dashboard_join demo_state ann_user eq_refl)
    as (d & H1 & _ & H3 & _ & _ & _ & H7).
  exists d. split; [exact H1|].
  assert (E : d = JobseekerDashboard.mk
                    (UserBase.mk "ann@mail.io" "Ann" "jobseeker") 1
                    [demo_job] [demo_application]).
  { vm_compute in H1. now injection H1 as <-. }
  split; [now rewrite E|]. rewrite H7; [now rewrite E|].
  intros a Ha. rewrite E in Ha. destruct Ha as [<-|[]]. discriminate.
Defined.

(** X18.  In a reachable state, [applications_for_job] answers 404 for an
    id that is not in the catalog and 403 for a job the caller did not post;
    to the employer who posted the job it returns exactly the stored
    applications for that job, and no two of them come from the same job
    seeker.  Nothing is written. *)
Theorem applications_for_job_contents
    (EmailStr : string -> option string) (st : State) (job_id : Z)
    (u : User.t) :
  reachable EmailStr st ->
  (dict_get Z.eqb job_id (jobs st) = None ->
     exists e, applications_for_job job_id u st = (st, Raise e)
               /\ NotFound e)
  /\ (forall j, dict_get Z.eqb job_id (jobs st) = Some j ->
        Job.posted_by j <> User.email u ->
        exists e, applications_for_job job_id u st = (st, Raise e)
                  /\ Forbidden e)
  /\ (forall j, dict_get Z.eqb job_id (jobs st) = Some j ->
        Job.posted_by j = User.email u ->
        exists l,
          applications_for_job job_id u st = (st, Return l)
          /\ (forall a,
                In a l <->
                dict_get Z.eqb (Application.id a) (applications st) = Some a
                /\ Application.job_id a = job_id)
          /\ NoDup (map Application.seeker_email l)).
Proof.
  intros Hreach. pose proof (reachable_Inv _ _ Hreach) as HI.
  pose proof (reachable_AppsInv _ _ Hreach) as HA.
  unfold applications_for_job. unfold_monad. split; [|split].
  - intros ->. eexists. split; reflexivity.
  - intros j -> Hn. rewrite (proj2 (str_ne_true _ _) Hn).
    eexists. split; reflexivity.
  - intros j -> Hp. rewrite (proj2 (str_ne_false _ _) Hp).
    eexists. split; [reflexivity|]. split.
    + intros a. rewrite filter_In, Z.eqb_eq.
      rewrite (In_values_get Application.id); [reflexivity| |].
      * apply (inv_apps_nodup _ HI).
      * intros k v Hin. now apply (inv_apps_id _ HI).
    + pose proof (inv_apps_nodup _ HI) as Hnd.
      pose proof (ainv_unique _ HA) as Hun.
      revert Hnd Hun. generalize (applications st) as d.
      induction d as [|[k a] r IH]; simpl; intros Hnd Hun; [constructor|].
      inversion Hnd as [|? ? Hni Hnd']; subst.
      assert (IH' : NoDup (map Application.seeker_email
                             (filter (fun a => Application.job_id a =? job_id)
                                     (dict_values r)))).
      { apply IH; [assumption|]. intros k1 a1 k2 a2 H1 H2.
        apply Hun; now right. }
      destruct (Application.job_id a =? job_id) eqn:Pa; [|exact IH'].
      simpl. constructor; [|exact IH'].
      intros Hin. apply in_map_iff in Hin. destruct Hin as (a2 & Es & Hin).
      apply filter_In in Hin. destruct Hin as [Hin P2].
      apply values_In in Hin. destruct Hin as (k2 & Hin).
      apply Z.eqb_eq in Pa, P2.
      assert (k = k2).
      { apply (Hun k a k2 a2); simpl; auto; congruence. }
      subst k2. apply Hni. unfold dict_keys.
      change k with (fst (k, a2)). now apply in_map.
Qed.

(** On the demo portal: Boss sees Ann's application for job 1, and Ann is
    turned away. *)
Lemma applications_for_job_contents_witness :
  (exists l, applications_for_job 1 boss_user demo_state
             = (demo_state, Return l)
             /\ In demo_application l)
  /\ (exists e, applications_for_job 1 ann_user demo_state
                = (demo_state, Raise e)
                /\ Forbidden e).
Proof.
  destruct (applications_for_job_contents EmailStr_id demo_state 1 boss_user
              reachable_demo_state) as (_ & _ & H3).
  destruct (applications_for_job_contents EmailStr_id demo_state 1 ann_user
              reachable_demo_state) as (_ & H2 & _).
  split.
  - destruct (H3 demo_job eq_refl eq_refl) as (l & Hl & Hin & _).
    exists l. split; [exact Hl|]. apply Hin. split; reflexivity.
  - apply (H2 demo_job); [reflexivity|simpl; discriminate].
Defined.

(** X19.  The handlers that only read leave the state as it is, whatever
    they return or raise: [get_current_user], [authenticate_user], [login],
    [login_alt], [list_jobs], [get_job], [my_applications],
    [applications_for_job], the two dashboards and the health check. *)
Theorem reading_writes_nothing (st : State) :
  (forall token, fst (get_current_user token st) = st)
  /\ (forall email password role,
        fst (authenticate_user email password role st) = st)
  /\ (forall form_data, fst (login form_data st) = st)
  /\ (forall data, fst (login_alt data st) = st)
  /\ (forall lower query location skills,
        fst (list_jobs lower query location skills st) = st)
  /\ (forall job_id, fst (get_job job_id st) = st)
  /\ (forall u, fst (my_applications u st) = st)
  /\ (forall job_id u, fst (applications_for_job job_id u st) = st)
  /\ (forall u, fst (jobseeker_dashboard u st) = st)
  /\ (forall u, fst (employer_dashboard u st) = st)
  /\ fst (health_check st) = st.
Proof.
  repeat match goal with |- _ /\ _ => split end; intros.
  - destruct (get_current_user token st) as [s r] eqn:H.
    simpl. eapply get_current_user_state; eassumption.
  - now rewrite authenticate_user_run.
  - unfold login, bind. rewrite authenticate_user_run.
    unfold issue_token, ret, raise.
    repeat match goal with
           | |- context [match ?x with _ => _ end] => destruct x
           end; reflexivity.
  - unfold login_alt, bind. rewrite authenticate_user_run.
    unfold issue_token, ret, raise.
    repeat match goal with
           | |- context [match ?x with _ => _ end] => destruct x
           end; reflexivity.
  - now rewrite list_jobs_run.
  - unfold get_job. unfold_monad.
    now destruct (dict_get Z.eqb job_id (jobs st)).
  - unfold my_applications. unfold_monad. now destruct (str_ne _ _).
  - unfold applications_for_job. unfold_monad.
    destruct (dict_get Z.eqb job_id (jobs st)); [|reflexivity].
    now destruct (str_ne _ _).
  - unfold jobseeker_dashboard. unfold_monad. now destruct (str_ne _ _).
  - unfold employer_dashboard. unfold_monad. now destruct (str_ne _ _).
  - reflexivity.
Qed.

(** ** More on [list_jobs] *)

Lemma skills_match_map lower sk job :
  skills_match lower sk job
  = forallb (fun x => existsb (String.eqb x) (map lower (Job.skills job)))
            (map lower sk).
Proof.
  unfold skills_match.
  induction sk as [|s sk IH]; simpl; [reflexivity|now rewrite IH].
Qed.

Lemma job_matches_same_lower lower q q' l l' sk sk' job :
  option_map lower (given_text q) = option_map lower (given_text q') ->
  option_map lower (given_text l) = option_map lower (given_text l') ->
  option_map (map lower) (given_list sk)
    = option_map (map lower) (given_list sk') ->
  job_matches lower q l sk job = job_matches lower q' l' sk' job.
Proof.
  intros Hq Hl Hs. unfold job_matches. f_equal; [f_equal|].
  - destruct q as [[|c x]|], q' as [[|c' x']|]; simpl in Hq;
      try discriminate; try reflexivity.
    injection Hq as Hq. unfold query_matches. now rewrite Hq.
  - destruct l as [[|c x]|], l' as [[|c' x']|]; simpl in Hl;
      try discriminate; try reflexivity.
    injection Hl as Hl. unfold location_matches. now rewrite Hl.
  - destruct sk as [[|c x]|], sk' as [[|c' x']|]; simpl in Hs;
      try discriminate; try reflexivity.
    injection Hs as H1 H2. rewrite !skills_match_map. simpl.
    now rewrite H1, H2.
Qed.

(** X20.  Whatever function [lower] stands for [str.lower()], [list_jobs]
    sees its filters through their lower case only: two calls whose
    queries, locations and skills are given or not alike (given meaning
    neither [None] nor empty) and have the same lower case where given,
    return the same list.  Whatever the filters, every job returned is a job
    of the unfiltered list, and in a reachable state [get_job] on its id
    returns that same job. *)
Theorem list_jobs_ignores_case_and_returns_stored_jobs
    (EmailStr : string -> option string) (lower : string -> string)
    (st : State) (query location : option string)
    (skills : option (list string)) :
  (forall query' location' skills',
      option_map lower (given_text query)
        = option_map lower (given_text query') ->
      option_map lower (given_text location)
        = option_map lower (given_text location') ->
      option_map (map lower) (given_list skills)
        = option_map (map lower) (given_list skills') ->
      list_jobs lower query location skills st
      = list_jobs lower query' location' skills' st)
  /\ (forall l job,
        list_jobs lower query location skills st = (st, Return l) ->
        In job l ->
        (exists all, list_jobs lower None None None st = (st, Return all)
                     /\ In job all)
        /\ (reachable EmailStr st ->
            get_job (Job.id job) st = (st, Return job))).
Proof.
  split.
  - intros query' location' skills' Hq Hl Hs.
    rewrite !list_jobs_run. f_equal. f_equal. apply filter_ext.
    intros job. now apply job_matches_same_lower.
  - intros l job. rewrite list_jobs_run. intros [= <-] Hin.
    apply filter_In in Hin. destruct Hin as [Hin _]. split.
    + exists (dict_values (jobs st)). split; [|exact Hin].
      rewrite list_jobs_run. f_equal. f_equal. clear Hin.
      induction (dict_values (jobs st)) as [|j r IH]; simpl;
        [reflexivity|now rewrite IH].
    + intros Hreach. pose proof (reachable_Inv _ _ Hreach) as HI.
      unfold get_job. unfold_monad.
      apply (In_values_get Job.id) in Hin.
      * now rewrite Hin.
      * apply (inv_jobs_nodup _ HI).
      * intros k v Hk. now apply (inv_jobs_id _ HI).
Qed.

(** On the demo portal, with [ascii_lower]: "REMOTE" and "remote" find the
    same job, which [get_job] returns under its id. *)
Lemma list_jobs_ignores_case_and_returns_stored_jobs_witness :
  list_jobs ascii_lower None (Some "REMOTE") None demo_state
    = list_jobs ascii_lower None (Some "remote") None demo_state
  /\ get_job (Job.id demo_job) demo_state = (demo_state, Return demo_job).
Proof.
  destruct (list_jobs_ignores_case_and_returns_stored_jobs EmailStr_id
              ascii_lower demo_state None (Some "REMOTE") None) as [H1 H2].
  split; [apply H1; reflexivity|].
  apply (H2 [demo_job] demo_job);
    [vm_compute; reflexivity|now left|exact reachable_demo_state].
Defined.

(** ** Who can write what *)

(** X21.  In a reachable state, a request changes what the catalog holds
    under an id only if it carries a token that resolves to an employer who
    is the [posted_by] both of the job that was there and of the job that
    is there afterwards: employers add jobs in their own name, and only the
    employer who posted a job rewrites or removes it. *)
Theorem catalog_writes_need_the_owner
    (EmailStr : string -> option string) (req : Request) (st : State)
    (k : Z) :
  reachable EmailStr st ->
  dict_get Z.eqb k (jobs (fst (handle EmailStr req st)))
    <> dict_get Z.eqb k (jobs st) ->
  exists token u,
    bearer req = Some token
    /\ get_current_user token st = (st, Return u)
    /\ User.role u = "employer"
    /\ (forall j, dict_get Z.eqb k (jobs st) = Some j ->
                  Job.posted_by j = User.email u)
    /\ (forall j', dict_get Z.eqb k (jobs (fst (handle EmailStr req st)))
                   = Some j' ->
                   Job.posted_by j' = User.email u).
Proof.
  intros Hreach. pose proof (reachable_Inv _ _ Hreach) as HI.
  revert req st HI Hreach.
  apply (handle_cases EmailStr
           (fun req st r =>
              Inv st -> reachable EmailStr st ->
              dict_get Z.eqb k (jobs (fst r)) <> dict_get Z.eqb k (jobs st) ->
              exists token u,
                bearer req = Some token
                /\ get_current_user token st = (st, Return u)
                /\ User.role u = "employer"
                /\ (forall j, dict_get Z.eqb k (jobs st) = Some j ->
                              Job.posted_by j = User.email u)
                /\ (forall j', dict_get Z.eqb k (jobs (fst r)) = Some j' ->
                               Job.posted_by j' = User.email u)));
    intros; rewrite ?fmap_state in *.
  - simpl in *. congruence.
  - exfalso. revert H2. crunch_handler; congruence.
  - exfalso. revert H2. crunch_handler; congruence.
  - (* post_job *)
    revert H2. unfold post_job. unfold_monad.
    destruct (str_ne (User.role u) "employer") eqn:R; simpl; [congruence|].
    apply str_ne_false in R. intros Hne.
    destruct (Z.eq_dec k (last_job_id st + 1)) as [->|Hk];
      [|rewrite (get_set_other Z.eqb Zeqb_spec) in Hne; congruence].
    exists token, u. repeat split; trivial.
    + intros j G. apply (get_In Z.eqb Zeqb_spec) in G.
      apply (inv_jobs_id _ H0) in G. lia.
    + rewrite (get_set_same Z.eqb Zeqb_spec). now intros j' [= <-].
  - (* update_job *)
    revert H2. unfold update_job. unfold_monad.
    destruct (dict_get Z.eqb job_id (jobs st)) as [j0|] eqn:G;
      simpl; [|congruence].
    destruct (str_ne (Job.posted_by j0) (User.email u)) eqn:N;
      simpl; [congruence|].
    apply str_ne_false in N. intros Hne.
    destruct (Z.eq_dec k job_id) as [->|Hk];
      [|rewrite (get_set_other Z.eqb Zeqb_spec) in Hne; congruence].
    exists token, u. split; [reflexivity|]. split; [assumption|].
    split; [|split].
    + destruct (get_current_user_resolved _ _ _ _ H0 H) as (Hres & _).
      apply (get_In Z.eqb Zeqb_spec) in G.
      destruct (inv_jobs_owner _ H0 _ _ G) as (u0 & G0 & R0).
      unfold Resolved in Hres. rewrite N in G0. congruence.
    + intros j. rewrite G. now intros [= <-].
    + rewrite (get_set_same Z.eqb Zeqb_spec). now intros j' [= <-].
  - (* delete_job *)
    revert H2. unfold delete_job. unfold_monad.
    destruct (dict_get Z.eqb job_id (jobs st)) as [j0|] eqn:G;
      simpl; [|congruence].
    destruct (str_ne (Job.posted_by j0) (User.email u)) eqn:N;
      simpl; [congruence|].
    apply str_ne_false in N. intros Hne.
    destruct (Z.eq_dec k job_id) as [->|Hk];
      [|rewrite (get_del_other Z.eqb Zeqb_spec) in Hne; congruence].
    exists token, u. split; [reflexivity|]. split; [assumption|].
    split; [|split].
    + destruct (get_current_user_resolved _ _ _ _ H0 H) as (Hres & _).
      apply (get_In Z.eqb Zeqb_spec) in G.
      destruct (inv_jobs_owner _ H0 _ _ G) as (u0 & G0 & R0).
      unfold Resolved in Hres. rewrite N in G0. congruence.
    + intros j. rewrite G. now intros [= <-].
    + rewrite (get_del_same Z.eqb). discriminate.
  - exfalso. revert H3. crunch_handler; congruence.
  - exfalso. revert H3. crunch_handler; congruence.
Qed.

(** On the demo portal: Boss's update changes job 1, and Boss posted it. *)
Lemma catalog_writes_need_the_owner_witness :
  exists token u,
    bearer (PUT_jobs boss_token 1 frontend_job) = Some token
    /\ get_current_user token demo_state = (demo_state, Return u)
    /\ User.role u = "employer"
    /\ Job.posted_by demo_job = User.email u.
Proof.
  destruct (catalog_writes_need_the_owner EmailStr_id
              (PUT_jobs boss_token 1 frontend_job) demo_state 1
              reachable_demo_state)
    as (token & u & H1 & H2 & H3 & H4 & _);
    [vm_compute; discriminate|].
  exists token, u. repeat split; trivial. now apply H4.
Defined.

(** X22.  In a reachable state, a request changes what the ledger holds
    under an id only in two ways.  Either nothing was there and the new row
    is a pending application in the name of the job seeker whose token the
    request carries; or a row was there and the request carries the token of
    the user who posted the job of that application, and the row that is
    there afterwards differs from it in the status at most. *)
Theorem ledger_writes_need_the_seeker_or_the_job_owner
    (EmailStr : string -> option string) (req : Request) (st : State)
    (k : Z) :
  reachable EmailStr st ->
  dict_get Z.eqb k (applications (fst (handle EmailStr req st)))
    <> dict_get Z.eqb k (applications st) ->
  exists token u,
    bearer req = Some token
    /\ get_current_user token st = (st, Return u)
    /\ ((dict_get Z.eqb k (applications st) = None
         /\ User.role u = "jobseeker"
         /\ exists a,
              dict_get Z.eqb k (applications (fst (handle EmailStr req st)))
              = Some a
              /\ Application.seeker_email a = User.email u
              /\ Application.status a = "pending")
        \/ (exists a a' j,
              dict_get Z.eqb k (applications st) = Some a
              /\ dict_get Z.eqb k
                   (applications (fst (handle EmailStr req st))) = Some a'
              /\ same_application a a'
              /\ dict_get Z.eqb (Application.job_id a) (jobs st) = Some j
              /\ Job.posted_by j = User.email u)).
Proof.
  intros Hreach. pose proof (reachable_Inv _ _ Hreach) as HI.
  revert req st HI Hreach.
  apply (handle_cases EmailStr
           (fun req st r =>
              Inv st -> reachable EmailStr st ->
              dict_get Z.eqb k (applications (fst r))
                <> dict_get Z.eqb k (applications st) ->
              exists token u,
                bearer req = Some token
                /\ get_current_user token st = (st, Return u)
                /\ ((dict_get Z.eqb k (applications st) = None
                     /\ User.role u = "jobseeker"
                     /\ exists a,
                          dict_get Z.eqb k (applications (fst r)) = Some a
                          /\ Application.seeker_email a = User.email u
                          /\ Application.status a = "pending")
                    \/ (exists a a' j,
                          dict_get Z.eqb k (applications st) = Some a
                          /\ dict_get Z.eqb k (applications (fst r)) = Some a'
                          /\ same_application a a'
                          /\ dict_get Z.eqb (Application.job_id a) (jobs st)
                             = Some j
                          /\ Job.posted_by j = User.email u))));
    intros; rewrite ?fmap_state in *.
  - simpl in *. congruence.
  - exfalso. revert H2. crunch_handler; congruence.
  - exfalso. revert H2. crunch_handler; congruence.
  - exfalso. revert H2. crunch_handler; congruence.
  - exfalso. revert H2. crunch_handler; congruence.
  - exfalso. revert H2. crunch_handler; congruence.
  - (* apply_for_job *)
    revert H3. unfold apply_for_job.
    destruct (str_ne (User.role u) "jobseeker") eqn:R; simpl; [congruence|].
    destruct (str_ne _ (User.email u)); simpl; [congruence|].
    unfold_monad.
    destruct (dict_get Z.eqb _ (jobs st)); simpl; [|congruence].
    rewrite apply_scan_run.
    destruct (existsb _ _); simpl; [congruence|].
    apply str_ne_false in R. intros Hne.
    destruct (Z.eq_dec k (last_app_id st + 1)) as [->|Hk];
      [|rewrite (get_set_other Z.eqb Zeqb_spec) in Hne; congruence].
    exists token, u. split; [reflexivity|]. split; [assumption|]. left.
    split; [|split; [assumption|]].
    + destruct (dict_get Z.eqb (last_app_id st + 1) (applications st))
        as [x|] eqn:G; [|reflexivity].
      apply (get_In Z.eqb Zeqb_spec) in G.
      apply (inv_apps_id _ H1) in G. lia.
    + rewrite (get_set_same Z.eqb Zeqb_spec). eexists.
      split; [reflexivity|]. split; reflexivity.
  - (* review_application *)
    revert H3. unfold review_application. unfold_monad.
    destruct (dict_get Z.eqb app_id (applications st)) as [a0|] eqn:G;
      simpl; [|congruence].
    destruct (dict_get Z.eqb (Application.job_id a0) (jobs st))
      as [j|] eqn:Gj; simpl; [|congruence].
    destruct (str_ne (Job.posted_by j) (User.email u)) eqn:N;
      simpl; [congruence|].
    apply str_ne_false in N. intros Hne.
    destruct (Z.eq_dec k app_id) as [->|Hk];
      [|rewrite (get_set_other Z.eqb Zeqb_spec) in Hne; congruence].
    exists token, u. split; [reflexivity|]. split; [assumption|]. right.
    exists a0, (Application.set_status (ApplicationReview.status review) a0), j.
    split; [assumption|].
    split; [apply (get_set_same Z.eqb Zeqb_spec)|].
    split; [repeat split|]. now split.
Qed.

(** On the demo portal: Boss's review changes application 1, and Boss
    posted its job. *)
Lemma ledger_writes_need_the_seeker_or_the_job_owner_witness :
  exists token u,
    bearer (PUT_applications_review boss_token 1 "accepted") = Some token
    /\ get_current_user token demo_state = (demo_state, Return u)
    /\ User.email u = "boss@acme.io".
Proof.
  destruct (ledger_writes_need_the_seeker_or_the_job_owner EmailStr_id
              (PUT_applications_review boss_token 1 "accepted") demo_state 1
              reachable_demo_state)
    as (token & u & H1 & H2 & H3);
    [vm_compute; discriminate|].
  exists token, u. split; [exact H1|]. split; [exact H2|].
  destruct H3 as [(G & _)|(a & a' & j & G & _ & _ & Gj & Hp)].
  - vm_compute in G. discriminate.
  - vm_compute in G. injection G as <-. vm_compute in Gj.
    injection Gj as <-. now rewrite <- Hp.
Defined.

(** On the demo portal: Ann's token still resolves to her after Boss has
    deleted his job and another employer has registered. *)
Lemma registration_is_permanent_witness :
  let st2 := fst (run EmailStr_id
                      [DELETE_jobs boss_token 1;
                       POST_auth_register_employer
                         (EmployerRegister.mk "cto@initech.io" "secret2"
                                              "Cto" "Initech")]
                      demo_state) in
  get_current_user ann_token st2 = (st2, Return ann_user).
Proof.
  destruct (registration_is_permanent EmailStr_id
              [DELETE_jobs boss_token 1;
               POST_auth_register_employer
                 (EmployerRegister.mk "cto@initech.io" "secret2"
                                      "Cto" "Initech")]
              demo_state) as [_ H].
  apply H. vm_compute. reflexivity.
Defined.
